(** * Product catalog: query construction, pagination and entity invariants

    A shallow embedding of the product routes (routes/products.js) and of
    the Product model (models/Product) of the catalog backend, with the
    properties of the catalog specification stated over it.

    Conventions of the embedding:
    - a JavaScript number is a rational [Number] (prices, counters, ratings,
      text scores); the integers produced by [parseInt] are [jint], where
      [None] stands for NaN;
    - an absent request parameter ([undefined]) is [None]; the parameters of
      a query string are strings, the values of a request body are [JValue]s;
    - the document store is the list of the stored products, in insertion
      order; a Mongoose document held by a handler is a [Doc]: a copy of the
      stored product together with the paths modified since it was loaded;
    - a handler takes the store and returns the store and its reply; the
      population of references and the projection of fields, which do not
      change what is stored or selected, are left out, so a property of an
      answer is stated for the requests that are answered with success;
    - a save validates the whole document, the paths loaded from the store
      as well as the modified ones ([Model.valid]); the paths of the schema
      that a [Product] does not carry are taken to hold valid values;
    - the two reads of the listing are independent ([Listing.listProductsAt]
      takes the store of each), and an increment that a route does not wait
      for is one more store access of the request ([Concurrent]);
    - numbers are exact: where the handlers compute with a counter, a page
      or a count, a property is stated for integers up to
      [JS.MAX_SAFE_INTEGER], where the doubles of JavaScript are exact too;
    - the operations of third-party libraries that the handlers rely on are
      the methods of the classes [FloatSyntax] (float validation and
      parsing), [TextIndex] (text search of the store), [Slugify] and
      [Casts] (coercions of body values); the properties hold for every
      instance, and [Sample] gives one to run the handlers on examples.

    Besides the catalog, the development covers the download route, the
    virtuals and statics of the Product model, the newsletter routes (the
    set of subscribers is the state of their module; the syntax of
    addresses is the class [EmailSyntax]) and the pattern of the email
    path of the User model. *)

From Stdlib Require Import List String Ascii Bool ZArith QArith Lia Lqa
  DecimalString Sorted Permutation.
Import ListNotations.

#[local] Set Warnings "-register-all".
#[local] Open Scope string_scope.
#[local] Open Scope Z_scope.

Definition Number : Type := Q.

(** An integer-valued JavaScript number, or NaN. *)
Definition jint : Type := option Z.

(** ** JavaScript primitives used by the handlers *)
Module JS.

Definition between (lo hi : nat) (c : ascii) : bool :=
  (lo <=? nat_of_ascii c)%nat && (nat_of_ascii c <=? hi)%nat.

Definition isDigit (c : ascii) : bool := between 48 57 c.

Definition isHexDigit (c : ascii) : bool :=
  isDigit c || between 97 102 c || between 65 70 c.

Definition isSpace (c : ascii) : bool :=
  between 9 13 c || (nat_of_ascii c =? 32)%nat.

(** The value of a digit in the given radix (10 or 16). *)
Definition digitVal (radix : Z) (c : ascii) : option Z :=
  let n := Z.of_nat (nat_of_ascii c) in
  if isDigit c then Some (n - 48)
  else if (radix =? 16) && between 97 102 c then Some (n - 87)
  else if (radix =? 16) && between 65 70 c then Some (n - 55)
  else None.

(** The longest prefix of digits; NaN when there is none. *)
Fixpoint digitsPrefix (radix : Z) (seen : bool) (acc : Z) (s : string) : jint :=
  match s with
  | EmptyString => if seen then Some acc else None
  | String c r =>
      match digitVal radix c with
      | Some d => digitsPrefix radix true (acc * radix + d) r
      | None => if seen then Some acc else None
      end
  end.

Fixpoint trimStart (s : string) : string :=
  match s with
  | String c r => if isSpace c then trimStart r else s
  | EmptyString => EmptyString
  end.

Fixpoint rev_string (acc s : string) : string :=
  match s with
  | EmptyString => acc
  | String c r => rev_string (String c acc) r
  end.

Definition trim (s : string) : string :=
  rev_string "" (trimStart (rev_string "" (trimStart s))).

Definition unsigned (s : string) : jint :=
  match s with
  | String "0"%char (String "x"%char r)
  | String "0"%char (String "X"%char r) => digitsPrefix 16 false 0 r
  | _ => digitsPrefix 10 false 0 s
  end.

(** [parseInt(s)]: leading white space, an optional sign, then digits. *)
Definition parseInt (s : string) : jint :=
  match trimStart s with
  | String "-"%char r => option_map Z.opp (unsigned r)
  | String "+"%char r => unsigned r
  | r => unsigned r
  end.

(** A request parameter in a condition: absent and empty are falsy. *)
Definition truthy (v : option string) : bool :=
  match v with
  | Some s => negb (s =? "")%string
  | None => false
  end.

Fixpoint allChars (f : ascii -> bool) (s : string) : bool :=
  match s with
  | EmptyString => true
  | String c r => f c && allChars f r
  end.

(** [identifier.match(/^[0-9a-fA-F]{24}$/)] *)
Definition isObjectIdString (s : string) : bool :=
  (String.length s =? 24)%nat && allChars isHexDigit s.

Definition lowerChar (c : ascii) : ascii :=
  if between 65 90 c then ascii_of_nat (nat_of_ascii c + 32) else c.

Fixpoint toLowerCase (s : string) : string :=
  match s with
  | EmptyString => EmptyString
  | String c r => String (lowerChar c) (toLowerCase r)
  end.

Fixpoint splitFrom (sep : ascii) (cur : string) (s : string) : list string :=
  match s with
  | EmptyString => [rev_string "" cur]
  | String c r =>
      if Ascii.eqb c sep then rev_string "" cur :: splitFrom sep "" r
      else splitFrom sep (String c cur) r
  end.

(** [s.split(sep)] for a one-character separator *)
Definition split (sep : ascii) (s : string) : list string := splitFrom sep "" s.

Fixpoint mapFrom {A B : Type} (index : nat) (f : A -> nat -> B) (l : list A) : list B :=
  match l with
  | [] => []
  | x :: t => f x index :: mapFrom (S index) f t
  end.

(** [array.map((x, index) => ...)] *)
Definition mapIndexed {A B : Type} (f : A -> nat -> B) (l : list A) : list B :=
  mapFrom 0 f l.

(** The decimal form of an index in a template string. *)
Definition decimal (n : nat) : string := NilEmpty.string_of_uint (Nat.to_uint n).

(** Arithmetic and comparison on integers-or-NaN. *)
Definition lift2 (f : Z -> Z -> Z) (a b : jint) : jint :=
  match a, b with
  | Some x, Some y => Some (f x y)
  | _, _ => None
  end.

Definition lt (a b : jint) : bool :=
  match a, b with
  | Some x, Some y => x <? y
  | _, _ => false
  end.

(** [Math.ceil(total / limit)] for integers; a non-finite quotient is NaN. *)
Definition ceilDiv (total : Z) (limit : jint) : jint :=
  match limit with
  | Some l => if l =? 0 then None else Some (- ((- total) / l))
  | None => None
  end.

(** [Number.MAX_SAFE_INTEGER]: up to it the doubles of JavaScript hold
    every integer, and sums and products of integers that stay below it
    are exact. *)
Definition MAX_SAFE_INTEGER : Z := 2 ^ 53 - 1.

(** A character of the ASCII range, where bytes, characters and UTF-16
    code units coincide. *)
Definition isAscii (c : ascii) : bool := (nat_of_ascii c <? 128)%nat.

End JS.

(** ** express-validator chains of the routes *)
Module Validator.

Record FieldError := { param : string; msg : string }.

Definition intRegex (s : string) : bool :=
  match s with
  | String "-"%char r | String "+"%char r => negb (r =? "")%string && JS.allChars JS.isDigit r
  | _ => negb (s =? "")%string && JS.allChars JS.isDigit s
  end.

(** [isInt({min, max})]: the pattern [^[-+]?[0-9]+$] and the bounds. *)
Definition isInt (min : Z) (max : option Z) (s : string) : bool :=
  intRegex s &&
  match JS.parseInt s with
  | Some v => (min <=? v) && match max with Some m => v <=? m | None => true end
  | None => false
  end.

Definition isIn (values : list string) (s : string) : bool :=
  existsb (String.eqb s) values.

Definition isLength (min max : nat) (s : string) : bool :=
  (min <=? String.length s)%nat && (String.length s <=? max)%nat.

(** [.optional()]: an absent field is not validated. *)
Definition check (field : string) (message : string)
    (valid : string -> bool) (v : option string) : list FieldError :=
  match v with
  | None => []
  | Some s => if valid s then [] else [{| param := field; msg := message |}]
  end.

Definition categories : list string :=
  ["templates"; "components"; "themes"; "plugins"; "courses"; "ebooks";
   "graphics"; "other"].

Definition sortKeys : list string :=
  ["newest"; "oldest"; "price-low"; "price-high"; "popular"; "rating"].

End Validator.

(** ** Data model (models/Product) *)

Record Image := { url : string; alt : string; isPrimary : bool }.

Record Rating := { average : Number; count : Number }.

Record Stats := {
  views : Number;
  downloads : Number;
  sales : Number;
  rating : Rating
}.

(** The schema paths the catalog operations read or write.  [_id] is the
    24-character hexadecimal form of the store's identifier and [createdAt]
    a timestamp. *)
Record Product := {
  _id : string;
  name : string;
  slug : string;
  description : string;
  price : Number;
  category : string;
  tags : list string;
  images : list Image;
  isActive : bool;
  isFeatured : bool;
  stats : Stats;
  createdBy : string;
  updatedBy : option string;
  createdAt : Z
}.

(** The collection, in insertion order. *)
Definition Store : Type := list Product.

(** A value of a parsed request body. *)
Inductive JValue :=
| JNull
| JBool (b : bool)
| JNum (n : Number)
| JStr (s : string)
| JArr (items : list JValue)
| JObj (fields : list (string * JValue)).

Definition Body : Type := list (string * JValue).

(** ** Third-party operations *)

(** Float syntax: express-validator's [isFloat({ min: 0 })] and [parseFloat]. *)
Class FloatSyntax := {
  isFloatMin0 : string -> bool;
  parseFloat : string -> Number
}.

(** The text index of the store: whether a product matches a search string,
    and its relevance score. *)
Class TextIndex := {
  textMatch : string -> Product -> bool;
  textScore : string -> Product -> Number
}.

(** ** The store's query interface *)
Module Query.

Record PriceRange := { gte : option Number; lte : option Number }.

(** A filter document: an absent key does not constrain. *)
Record Filter := {
  f_isActive : option bool;
  f_category : option string;
  f_price : option PriceRange;
  f_isFeatured : option bool;
  f_text : option string
}.

Inductive SortSpec :=
| Dir (d : Z)
| MetaTextScore.

(** A sort document: its keys in insertion order. *)
Definition SortObj : Type := list (string * SortSpec).

Definition holds {A : Type} (o : option A) (f : A -> bool) : bool :=
  match o with
  | None => true
  | Some a => f a
  end.

Definition inRange (r : PriceRange) (x : Number) : bool :=
  holds (gte r) (fun g => Qle_bool g x) && holds (lte r) (fun l => Qle_bool x l).

Definition matches `{TextIndex} (f : Filter) (p : Product) : bool :=
  holds (f_isActive f) (Bool.eqb (isActive p)) &&
  holds (f_category f) (String.eqb (category p)) &&
  holds (f_price f) (fun r => inRange r (price p)) &&
  holds (f_isFeatured f) (Bool.eqb (isFeatured p)) &&
  holds (f_text f) (fun s => textMatch s p).

Definition fieldValue (path : string) (p : Product) : Number :=
  if (path =? "createdAt")%string then inject_Z (createdAt p)
  else if (path =? "price")%string then price p
  else if (path =? "stats.sales")%string then sales (stats p)
  else if (path =? "stats.views")%string then views (stats p)
  else if (path =? "stats.rating.average")%string then average (rating (stats p))
  else if (path =? "stats.rating.count")%string then count (rating (stats p))
  else 0%Q.

(** The order of one sort key: ascending for a positive direction,
    descending otherwise; a text score sorts the best match first. *)
Definition compareKey `{TextIndex} (search : option string)
    (k : string * SortSpec) (a b : Product) : comparison :=
  match snd k with
  | Dir d =>
      if 0 <? d then (fieldValue (fst k) a ?= fieldValue (fst k) b)%Q
      else (fieldValue (fst k) b ?= fieldValue (fst k) a)%Q
  | MetaTextScore =>
      match search with
      | Some s => (textScore s b ?= textScore s a)%Q
      | None => Eq
      end
  end.

(** Keys are compared in order: a later key decides only among products
    that are equal on all earlier keys. *)
Fixpoint compareBy `{TextIndex} (search : option string) (so : SortObj)
    (a b : Product) : comparison :=
  match so with
  | [] => Eq
  | k :: rest =>
      match compareKey search k a b with
      | Eq => compareBy search rest a b
      | c => c
      end
  end.

Fixpoint insertBy (cmp : Product -> Product -> comparison)
    (x : Product) (l : list Product) : list Product :=
  match l with
  | [] => [x]
  | y :: t =>
      match cmp x y with
      | Gt => y :: insertBy cmp x t
      | _ => x :: l
      end
  end.

Definition sortBy (cmp : Product -> Product -> comparison)
    (l : list Product) : list Product :=
  fold_right (insertBy cmp) [] l.

(** [a] may stand before [b] in a list sorted by [cmp]. *)
Definition notAfter (cmp : Product -> Product -> comparison) (a b : Product) : Prop :=
  cmp a b <> Gt.

(** [Product.find(f).sort(so).skip(skip).limit(limit)] *)
Definition find `{TextIndex} (store : Store) (f : Filter) (so : SortObj)
    (skip limit : Z) : list Product :=
  firstn (Z.to_nat limit)
    (skipn (Z.to_nat skip)
       (sortBy (compareBy (f_text f) so) (filter (matches f) store))).

(** [Product.countDocuments(f)] *)
Definition countDocuments `{TextIndex} (store : Store) (f : Filter) : Z :=
  Z.of_nat (List.length (filter (matches f) store)).

(** [Product.findById(id)]: an identifier is compared as the 12 bytes it
    denotes, whatever the case of its hexadecimal digits. *)
Definition findById (store : Store) (id : string) : option Product :=
  List.find (fun p => (_id p =? JS.toLowerCase id)%string) store.

(** [Product.findOne({ slug })] *)
Definition findOneBySlug (store : Store) (s : string) : option Product :=
  List.find (fun p => (slug p =? s)%string) store.

Fixpoint distinct (l : list string) : bool :=
  match l with
  | [] => true
  | x :: t => negb (existsb (String.eqb x) t) && distinct t
  end.

(** What the store maintains of a collection: identifiers are 24
    hexadecimal digits in lower case, and identifiers and slugs are unique
    (the primary key and the unique index on [slug]). *)
Definition wellFormed (store : Store) : bool :=
  distinct (map _id store)
  && distinct (map slug store)
  && forallb (fun p => JS.isObjectIdString (_id p)
                       && (JS.toLowerCase (_id p) =? _id p)%string) store.

End Query.

(** ** GET /api/products *)
Module Listing.
Import Validator Query.

(** [req.query] *)
Record ListQuery := {
  q_page : option string;
  q_limit : option string;
  q_category : option string;
  q_minPrice : option string;
  q_maxPrice : option string;
  q_sort : option string;
  q_search : option string;
  q_featured : option string
}.

Record Pagination := {
  currentPage : jint;
  totalPages : jint;
  totalProducts : Z;
  hasNextPage : bool;
  hasPrevPage : bool;
  limit : jint
}.

Record Filters := {
  fl_category : option string;
  fl_minPrice : option string;
  fl_maxPrice : option string;
  fl_search : option string;
  fl_sort : string
}.

Inductive ListResponse :=
| ListOk (data : list Product) (pagination : Pagination) (filters : Filters)
| ListInvalid (errors : list FieldError)
| ListServerError.

(** The validation chain of the route; [validationResult(req).array()]. *)
Definition validate `{FloatSyntax} (q : ListQuery) : list FieldError :=
  check "page" "Page must be a positive integer" (isInt 1 None) (q_page q) ++
  check "limit" "Limit must be between 1 and 100" (isInt 1 (Some 100)) (q_limit q) ++
  check "category" "Invalid value" (isIn categories) (q_category q) ++
  check "minPrice" "Min price must be non-negative" isFloatMin0 (q_minPrice q) ++
  check "maxPrice" "Max price must be non-negative" isFloatMin0 (q_maxPrice q) ++
  check "sort" "Invalid value" (isIn sortKeys) (q_sort q) ++
  check "search" "Search term must be between 1 and 100 characters"
    (isLength 1 100) (q_search q).

(** Destructuring defaults: [page = 1], [limit = 12], [sort = 'newest']. *)
Definition pageOf (q : ListQuery) : jint :=
  match q_page q with Some s => JS.parseInt s | None => Some 1 end.

Definition limitOf (q : ListQuery) : jint :=
  match q_limit q with Some s => JS.parseInt s | None => Some 12 end.

Definition sortOf (q : ListQuery) : string :=
  match q_sort q with Some s => s | None => "newest" end.

Definition withCategory (c : string) (f : Filter) : Filter :=
  {| f_isActive := f_isActive f; f_category := Some c; f_price := f_price f;
     f_isFeatured := f_isFeatured f; f_text := f_text f |}.

Definition withPrice (r : PriceRange) (f : Filter) : Filter :=
  {| f_isActive := f_isActive f; f_category := f_category f; f_price := Some r;
     f_isFeatured := f_isFeatured f; f_text := f_text f |}.

Definition withFeatured (b : bool) (f : Filter) : Filter :=
  {| f_isActive := f_isActive f; f_category := f_category f; f_price := f_price f;
     f_isFeatured := Some b; f_text := f_text f |}.

Definition withText (s : string) (f : Filter) : Filter :=
  {| f_isActive := f_isActive f; f_category := f_category f; f_price := f_price f;
     f_isFeatured := f_isFeatured f; f_text := Some s |}.

Definition bound `{FloatSyntax} (v : option string) : option Number :=
  match v with
  | Some s => if JS.truthy v then Some (parseFloat s) else None
  | None => None
  end.

(** The filter built from the parameters, starting from
    [{ isActive: true }]. *)
Definition buildQuery `{FloatSyntax} (q : ListQuery) : Filter :=
  let query :=
    {| f_isActive := Some true; f_category := None; f_price := None;
       f_isFeatured := None; f_text := None |} in
  let query :=
    match q_category q with
    | Some c => if JS.truthy (q_category q) then withCategory c query else query
    | None => query
    end in
  let query :=
    if JS.truthy (q_minPrice q) || JS.truthy (q_maxPrice q)
    then withPrice {| gte := bound (q_minPrice q); lte := bound (q_maxPrice q) |} query
    else query in
  let query :=
    match q_featured q with
    | Some v => if (v =? "true")%string then withFeatured true query else query
    | None => query
    end in
  match q_search q with
  | Some s => if JS.truthy (q_search q) then withText s query else query
  | None => query
  end.

(** The [switch (sort)] of the handler. *)
Definition resolveSort (sort : string) : SortObj :=
  if (sort =? "newest")%string then [("createdAt", Dir (-1))]
  else if (sort =? "oldest")%string then [("createdAt", Dir 1)]
  else if (sort =? "price-low")%string then [("price", Dir 1)]
  else if (sort =? "price-high")%string then [("price", Dir (-1))]
  else if (sort =? "popular")%string
    then [("stats.sales", Dir (-1)); ("stats.views", Dir (-1))]
  else if (sort =? "rating")%string
    then [("stats.rating.average", Dir (-1)); ("stats.rating.count", Dir (-1))]
  else [("createdAt", Dir (-1))].

(** [{ score: { $meta: 'textScore' }, ...sortObj }] when searching. *)
Definition buildSort (q : ListQuery) : SortObj :=
  let sortObj := resolveSort (sortOf q) in
  if JS.truthy (q_search q) then ("score", MetaTextScore) :: sortObj else sortObj.

Definition skipOf (q : ListQuery) : jint :=
  JS.lift2 (fun p l => (p - 1) * l) (pageOf q) (limitOf q).

Definition paginate (q : ListQuery) (total : Z) : Pagination :=
  let totalPages := JS.ceilDiv total (limitOf q) in
  {| currentPage := pageOf q;
     totalPages := totalPages;
     totalProducts := total;
     hasNextPage := JS.lt (pageOf q) totalPages;
     hasPrevPage := JS.lt (Some 1) (pageOf q);
     limit := limitOf q |}.

(** The handler.  [Promise.all([find, countDocuments])] issues two
    independent reads: the page is read from the store as it is at one
    moment ([found]) and the matches are counted as it is at another
    ([counted]). *)
Definition listProductsAt `{FloatSyntax} `{TextIndex}
    (found counted : Store) (q : ListQuery) : ListResponse :=
  match validate q with
  | (_ :: _) as errors => ListInvalid errors
  | [] =>
      let query := buildQuery q in
      let sortObj := buildSort q in
      match skipOf q, limitOf q with
      | Some skip, Some lim =>
          let products := find found query sortObj skip lim in
          let total := countDocuments counted query in
          ListOk products (paginate q total)
            {| fl_category := q_category q; fl_minPrice := q_minPrice q;
               fl_maxPrice := q_maxPrice q; fl_search := q_search q;
               fl_sort := sortOf q |}
      | _, _ => ListServerError
      end
  end.

(** The listing when no write comes between its two reads. *)
Definition listProducts `{FloatSyntax} `{TextIndex}
    (store : Store) (q : ListQuery) : ListResponse :=
  listProductsAt store store q.

End Listing.

(** slugify(name, { lower: true, strict: true }) *)
Class Slugify := { slugify : string -> string }.

(** ** The Product model: documents, hooks and instance methods *)
Module Model.

Definition setName (v : string) (p : Product) : Product :=
  {| _id := _id p; name := v; slug := slug p; description := description p;
     price := price p; category := category p; tags := tags p; images := images p;
     isActive := isActive p; isFeatured := isFeatured p; stats := stats p;
     createdBy := createdBy p; updatedBy := updatedBy p; createdAt := createdAt p |}.

Definition setSlug (v : string) (p : Product) : Product :=
  {| _id := _id p; name := name p; slug := v; description := description p;
     price := price p; category := category p; tags := tags p; images := images p;
     isActive := isActive p; isFeatured := isFeatured p; stats := stats p;
     createdBy := createdBy p; updatedBy := updatedBy p; createdAt := createdAt p |}.

Definition setDescription (v : string) (p : Product) : Product :=
  {| _id := _id p; name := name p; slug := slug p; description := v;
     price := price p; category := category p; tags := tags p; images := images p;
     isActive := isActive p; isFeatured := isFeatured p; stats := stats p;
     createdBy := createdBy p; updatedBy := updatedBy p; createdAt := createdAt p |}.

Definition setPrice (v : Number) (p : Product) : Product :=
  {| _id := _id p; name := name p; slug := slug p; description := description p;
     price := v; category := category p; tags := tags p; images := images p;
     isActive := isActive p; isFeatured := isFeatured p; stats := stats p;
     createdBy := createdBy p; updatedBy := updatedBy p; createdAt := createdAt p |}.

Definition setCategory (v : string) (p : Product) : Product :=
  {| _id := _id p; name := name p; slug := slug p; description := description p;
     price := price p; category := v; tags := tags p; images := images p;
     isActive := isActive p; isFeatured := isFeatured p; stats := stats p;
     createdBy := createdBy p; updatedBy := updatedBy p; createdAt := createdAt p |}.

Definition setTags (v : list string) (p : Product) : Product :=
  {| _id := _id p; name := name p; slug := slug p; description := description p;
     price := price p; category := category p; tags := v; images := images p;
     isActive := isActive p; isFeatured := isFeatured p; stats := stats p;
     createdBy := createdBy p; updatedBy := updatedBy p; createdAt := createdAt p |}.

Definition setImages (v : list Image) (p : Product) : Product :=
  {| _id := _id p; name := name p; slug := slug p; description := description p;
     price := price p; category := category p; tags := tags p; images := v;
     isActive := isActive p; isFeatured := isFeatured p; stats := stats p;
     createdBy := createdBy p; updatedBy := updatedBy p; createdAt := createdAt p |}.

Definition setIsActive (v : bool) (p : Product) : Product :=
  {| _id := _id p; name := name p; slug := slug p; description := description p;
     price := price p; category := category p; tags := tags p; images := images p;
     isActive := v; isFeatured := isFeatured p; stats := stats p;
     createdBy := createdBy p; updatedBy := updatedBy p; createdAt := createdAt p |}.

Definition setIsFeatured (v : bool) (p : Product) : Product :=
  {| _id := _id p; name := name p; slug := slug p; description := description p;
     price := price p; category := category p; tags := tags p; images := images p;
     isActive := isActive p; isFeatured := v; stats := stats p;
     createdBy := createdBy p; updatedBy := updatedBy p; createdAt := createdAt p |}.

Definition setStats (v : Stats) (p : Product) : Product :=
  {| _id := _id p; name := name p; slug := slug p; description := description p;
     price := price p; category := category p; tags := tags p; images := images p;
     isActive := isActive p; isFeatured := isFeatured p; stats := v;
     createdBy := createdBy p; updatedBy := updatedBy p; createdAt := createdAt p |}.

Definition setCreatedBy (v : string) (p : Product) : Product :=
  {| _id := _id p; name := name p; slug := slug p; description := description p;
     price := price p; category := category p; tags := tags p; images := images p;
     isActive := isActive p; isFeatured := isFeatured p; stats := stats p;
     createdBy := v; updatedBy := updatedBy p; createdAt := createdAt p |}.

Definition setUpdatedBy (v : option string) (p : Product) : Product :=
  {| _id := _id p; name := name p; slug := slug p; description := description p;
     price := price p; category := category p; tags := tags p; images := images p;
     isActive := isActive p; isFeatured := isFeatured p; stats := stats p;
     createdBy := createdBy p; updatedBy := v; createdAt := createdAt p |}.

Definition setViews (v : Number) (s : Stats) : Stats :=
  {| views := v; downloads := downloads s; sales := sales s; rating := rating s |}.

Definition setDownloads (v : Number) (s : Stats) : Stats :=
  {| views := views s; downloads := v; sales := sales s; rating := rating s |}.

Definition setSales (v : Number) (s : Stats) : Stats :=
  {| views := views s; downloads := downloads s; sales := v; rating := rating s |}.

Definition setPrimary (b : bool) (i : Image) : Image :=
  {| url := url i; alt := alt i; isPrimary := b |}.

(** A document in memory: the values of its paths, whether it was ever
    stored, the paths assigned since it was loaded, and whether an
    assignment failed to cast (reported when the document is saved). *)
Record Doc := {
  val : Product;
  isNew : bool;
  modified : list string;
  castFailed : bool
}.

(** A document as returned by a query. *)
Definition load (p : Product) : Doc :=
  {| val := p; isNew := false; modified := []; castFailed := false |}.

Definition isModified (path : string) (d : Doc) : bool :=
  existsb (String.eqb path) (modified d).

(** Assignment to a path of the document. *)
Definition assignPath (path : string) (f : Product -> Product) (d : Doc) : Doc :=
  {| val := f (val d); isNew := isNew d; modified := path :: modified d;
     castFailed := castFailed d |}.

Definition failCast (d : Doc) : Doc :=
  {| val := val d; isNew := isNew d; modified := modified d; castFailed := true |}.

(** The value of one path taken from [src], the rest from [dst]. *)
Definition copyPath (path : string) (src dst : Product) : Product :=
  if (path =? "name")%string then setName (name src) dst
  else if (path =? "slug")%string then setSlug (slug src) dst
  else if (path =? "description")%string then setDescription (description src) dst
  else if (path =? "price")%string then setPrice (price src) dst
  else if (path =? "category")%string then setCategory (category src) dst
  else if (path =? "tags")%string then setTags (tags src) dst
  else if (path =? "images")%string then setImages (images src) dst
  else if (path =? "isActive")%string then setIsActive (isActive src) dst
  else if (path =? "isFeatured")%string then setIsFeatured (isFeatured src) dst
  else if (path =? "stats")%string then setStats (stats src) dst
  else if (path =? "stats.views")%string
    then setStats (setViews (views (stats src)) (stats dst)) dst
  else if (path =? "stats.downloads")%string
    then setStats (setDownloads (downloads (stats src)) (stats dst)) dst
  else if (path =? "stats.sales")%string
    then setStats (setSales (sales (stats src)) (stats dst)) dst
  else if (path =? "createdBy")%string then setCreatedBy (createdBy src) dst
  else if (path =? "updatedBy")%string then setUpdatedBy (updatedBy src) dst
  else dst.

(** The paths that write the statistics. *)
Definition statsPaths : list string :=
  ["stats"; "stats.views"; "stats.downloads"; "stats.sales"].

(** The update a save sends for an existing document: the modified paths
    are set, every other path of the stored document stays. *)
Definition applyPaths (paths : list string) (src dst : Product) : Product :=
  fold_right (fun path acc => copyPath path src acc) dst paths.

(** Schema validators of a path. *)
Definition validPath (path : string) (p : Product) : bool :=
  if (path =? "name")%string
    then negb (name p =? "")%string && (String.length (name p) <=? 100)%nat
  else if (path =? "description")%string
    then negb (description p =? "")%string
         && (String.length (description p) <=? 2000)%nat
  else if (path =? "price")%string then Qle_bool 0 (price p)
  else if (path =? "category")%string then Validator.isIn Validator.categories (category p)
  else if (path =? "images")%string
    then forallb (fun i => negb (url i =? "")%string) (images p)
  else if (path =? "stats")%string
    then Qle_bool 0 (average (rating (stats p)))
         && Qle_bool (average (rating (stats p))) 5
  else if (path =? "createdBy")%string then negb (createdBy p =? "")%string
  else true.

(** The paths of the schema that carry a validator. *)
Definition validatedPaths : list string :=
  ["name"; "description"; "price"; "category"; "images"; "stats"; "createdBy"].

(** A product passes every validator of the schema. *)
Definition valid (p : Product) : bool :=
  forallb (fun path => validPath path p) validatedPaths.

(** Validation before a save.  Every path of the document is validated:
    the paths loaded from the store as well as the modified ones, and for
    a new document the defaults and the required paths. *)
Definition validates (d : Doc) : bool :=
  negb (castFailed d) && valid (val d).

(** Pre-save hook: the slug follows the name. *)
Definition slugHook `{Slugify} (d : Doc) : Doc :=
  if isModified "name" d
  then assignPath "slug" (setSlug (slugify (name (val d)))) d
  else d.

Fixpoint forEachFrom {A : Type} (index : nat) (f : A -> nat -> A) (l : list A) : list A :=
  match l with
  | [] => []
  | x :: t => f x index :: forEachFrom (S index) f t
  end.

(** [array.forEach((x, index) => ...)] with an updating callback *)
Definition forEach {A : Type} (f : A -> nat -> A) (l : list A) : list A :=
  forEachFrom 0 f l.

(** Pre-save hook: "ensure only one primary image". *)
Definition primaryImageHook (d : Doc) : Doc :=
  if isModified "images" d then
    let imgs := images (val d) in
    let primaryImages := filter isPrimary imgs in
    if (1 <? List.length primaryImages)%nat then
      assignPath "images"
        (setImages
           (forEach (fun img index => if (0 <? index)%nat then setPrimary false img else img)
              imgs)) d
    else if (List.length primaryImages =? 0)%nat && (0 <? List.length imgs)%nat then
      assignPath "images"
        (setImages
           (match imgs with
            | first :: rest => setPrimary true first :: rest
            | [] => []
            end)) d
    else d
  else d.

(** The number of images marked primary. *)
Definition primaryCount (imgs : list Image) : nat :=
  List.length (filter isPrimary imgs).

Inductive SaveError :=
| DuplicateKey        (* error.code === 11000 *)
| ValidationFailed
| DocumentNotFound.

(** The collection after the update of the documents with the identifier
    of [d]: the modified paths of [d] are written. *)
Definition updatedStore (store : Store) (d : Doc) : Store :=
  map (fun q => if (_id q =? _id (val d))%string
                then applyPaths (modified d) (val d) q else q) store.

Definition persisted (d : Doc) : Doc :=
  {| val := val d; isNew := false; modified := []; castFailed := false |}.

(** [doc.save()]: validation, then the pre-save hooks, then one insert or
    one update of the modified paths.  The [_id] and [slug] indexes are
    unique. *)
Definition save `{Slugify} (store : Store) (d0 : Doc) : Store * Doc * option SaveError :=
  if negb (validates d0) then (store, d0, Some ValidationFailed)
  else
    let d := primaryImageHook (slugHook d0) in
    let p := val d in
    if isNew d then
      if existsb (fun q => (_id q =? _id p)%string || (slug q =? slug p)%string) store
      then (store, d, Some DuplicateKey)
      else ((store ++ [p])%list, persisted d, None)
    else
      match modified d with
      | [] => (store, d, None)
      | _ :: _ =>
          if isModified "slug" d
             && existsb (fun q => negb (_id q =? _id p)%string && (slug q =? slug p)%string)
                  store
          then (store, d, Some DuplicateKey)
          else if negb (existsb (fun q => (_id q =? _id p)%string) store)
          then (store, d, Some DocumentNotFound)
          else (updatedStore store d, persisted d, None)
      end.

(** Instance methods: the counter of the document in memory is bumped,
    then the document is saved. *)
Definition incrementViews `{Slugify} (store : Store) (d : Doc) :=
  let d := assignPath "stats.views"
             (fun p => setStats (setViews (views (stats p) + 1)%Q (stats p)) p) d in
  save store d.

Definition incrementDownloads `{Slugify} (store : Store) (d : Doc) :=
  let d := assignPath "stats.downloads"
             (fun p => setStats (setDownloads (downloads (stats p) + 1)%Q (stats p)) p) d in
  save store d.

Definition incrementSales `{Slugify} (store : Store) (d : Doc) :=
  let d := assignPath "stats.sales"
             (fun p => setStats (setSales (sales (stats p) + 1)%Q (stats p)) p) d in
  save store d.

End Model.

(** Coercions of body values: the string express-validator validates, and
    the casts of the schema types ([None]: the value does not cast). *)
Class Casts := {
  toString : JValue -> string;
  castString : JValue -> option string;
  castNumber : JValue -> option Number;
  castBoolean : JValue -> option bool;
  castObjectId : JValue -> option string;
  castStrings : JValue -> option (list string);
  castImages : JValue -> option (list Image);
  castStats : Stats -> JValue -> option Stats
}.

(** ** Request bodies *)
Module Req.

(** [body[key]]; the last binding of a key is the one the object holds. *)
Definition get (key : string) (body : Body) : option JValue :=
  fold_left (fun acc kv => if (fst kv =? key)%string then Some (snd kv) else acc)
    body None.

Definition remove (key : string) (body : Body) : Body :=
  filter (fun kv => negb (fst kv =? key)%string) body.

Definition has (key : string) (body : Body) : bool :=
  existsb (fun kv => (fst kv =? key)%string) body.

(** A sanitizer writes its result back into the body. *)
Definition sanitize (key : string) (f : JValue -> JValue) (body : Body) : Body :=
  map (fun kv => if (fst kv =? key)%string then (fst kv, f (snd kv)) else kv) body.

Record User := { uid : string; role : string }.

(** The reply of a handler: status code and JSON payload. *)
Record Response := {
  status : Z;
  success : bool;
  message : string;
  errors : option (list Validator.FieldError);
  data : option Product
}.

Definition reply (code : Z) (ok : bool) (text : string) : Response :=
  {| status := code; success := ok; message := text; errors := None; data := None |}.

Definition replyErrors (text : string) (errs : list Validator.FieldError) : Response :=
  {| status := 400; success := false; message := text; errors := Some errs; data := None |}.

Definition replyData (code : Z) (text : string) (p : Product) : Response :=
  {| status := code; success := true; message := text; errors := None; data := Some p |}.

(** middleware/admin.js: the gate in front of the write routes. *)
Definition admin (user : option User) : option Response :=
  match user with
  | None => Some (reply 401 false "Access denied. Authentication required.")
  | Some u =>
      if (role u =? "admin")%string then None
      else Some (reply 403 false "Access denied. Admin privileges required.")
  end.

End Req.

(** ** The product routes (routes/products.js) *)
Module Routes.
Import Validator Query Model Req.

Definition notFound : Response := reply 404 false "Product not found".

(** GET /api/products/:identifier *)
Definition getProduct `{Slugify} (store : Store) (identifier : string)
    : Store * Response :=
  let product :=
    if JS.isObjectIdString identifier
    then findById store identifier
    else findOneBySlug store identifier in
  match product with
  | Some p =>
      if isActive p then
        (* the increment is not awaited; its failure is only logged *)
        let '(store', d, _) := incrementViews store (load p) in
        (store', {| status := 200; success := true; message := "";
                    errors := None; data := Some (val d) |})
      else (store, notFound)
  | None => (store, notFound)
  end.

(** The lookup of [getProduct], by the shape of the identifier. *)
Definition lookup (store : Store) (identifier : string) : option Product :=
  if JS.isObjectIdString identifier
  then findById store identifier
  else findOneBySlug store identifier.

(** [product[key] = value] on a Mongoose document: the value is cast to
    the type of the path; a path whose value does not change is not
    marked modified. *)
Definition assignCast {A : Type} (c : option A) (k : A -> Doc) (d : Doc) : Doc :=
  match c with
  | Some a => k a
  | None => failCast d
  end.

Definition assignIfChanged {A : Type} (eqb : A -> A -> bool) (path : string)
    (current : A) (set : A -> Product -> Product) (v : A) (d : Doc) : Doc :=
  if eqb current v then d else assignPath path (set v) d.

Definition setId (v : string) (p : Product) : Product :=
  {| _id := v; name := name p; slug := slug p; description := description p;
     price := price p; category := category p; tags := tags p; images := images p;
     isActive := isActive p; isFeatured := isFeatured p; stats := stats p;
     createdBy := createdBy p; updatedBy := updatedBy p; createdAt := createdAt p |}.

Definition assign `{Casts} (key : string) (v : JValue) (d : Doc) : Doc :=
  let p := val d in
  if (key =? "name")%string then
    assignCast (castString v)
      (fun s => assignIfChanged String.eqb "name" (name p) setName (JS.trim s) d) d
  else if (key =? "slug")%string then
    assignCast (castString v)
      (fun s => assignIfChanged String.eqb "slug" (slug p) setSlug s d) d
  else if (key =? "description")%string then
    assignCast (castString v)
      (fun s => assignIfChanged String.eqb "description" (description p) setDescription s d) d
  else if (key =? "price")%string then
    assignCast (castNumber v)
      (fun n => assignIfChanged Qeq_bool "price" (price p) setPrice n d) d
  else if (key =? "category")%string then
    assignCast (castString v)
      (fun s => assignIfChanged String.eqb "category" (category p) setCategory s d) d
  else if (key =? "tags")%string then
    assignCast (castStrings v) (fun l => assignPath "tags" (setTags (map JS.trim l)) d) d
  else if (key =? "images")%string then
    assignCast (castImages v) (fun l => assignPath "images" (setImages l) d) d
  else if (key =? "isActive")%string then
    assignCast (castBoolean v)
      (fun b => assignIfChanged Bool.eqb "isActive" (isActive p) setIsActive b d) d
  else if (key =? "isFeatured")%string then
    assignCast (castBoolean v)
      (fun b => assignIfChanged Bool.eqb "isFeatured" (isFeatured p) setIsFeatured b d) d
  else if (key =? "stats")%string then
    assignCast (castStats (stats p) v) (fun s => assignPath "stats" (setStats s) d) d
  else if (key =? "createdBy")%string then
    assignCast (castObjectId v)
      (fun s => assignIfChanged String.eqb "createdBy" (createdBy p) setCreatedBy s d) d
  else if (key =? "updatedBy")%string then
    assignCast (castObjectId v) (fun s => assignPath "updatedBy" (setUpdatedBy (Some s)) d) d
  else if (key =? "_id")%string then
    assignCast (castObjectId v)
      (fun s => if (s =? _id p)%string then d
                else if isNew d then assignPath "_id" (setId s) d
                else failCast d) d
  else d.

(** The keys [assign] has a schema path for. *)
Definition assignable : list string :=
  ["name"; "slug"; "description"; "price"; "category"; "tags"; "images";
   "isActive"; "isFeatured"; "stats"; "createdBy"; "updatedBy"; "_id"].

(** What a document keeps while the paths in [named] are assigned: every
    other field, and, once stored, its identifier; only assignable paths
    in [named] become modified. *)
Record Kept (named : string -> Prop) (d d' : Doc) : Prop := {
  kept_isNew : isNew d' = isNew d;
  kept_id : isNew d = false -> _id (val d') = _id (val d);
  kept_name : ~ named "name" -> name (val d') = name (val d);
  kept_slug : ~ named "slug" -> slug (val d') = slug (val d);
  kept_stats : ~ named "stats" -> stats (val d') = stats (val d);
  kept_createdBy : ~ named "createdBy" -> createdBy (val d') = createdBy (val d);
  kept_isActive : ~ named "isActive" -> isActive (val d') = isActive (val d);
  kept_modified : forall path, In path (modified d') ->
      In path (modified d) \/ (named path /\ In path assignable)
}.

(** The paths an update may touch, given the keys of its body. *)
Definition touched (body : Body) (key : string) : Prop :=
  has key body = true \/ key = "updatedBy" \/ key = "images"
  \/ (key = "slug" /\ has "name" body = true).

(** [Object.keys(body).forEach(key => doc[key] = body[key])] *)
Definition assignAll `{Casts} (body : Body) (d : Doc) : Doc :=
  fold_left (fun acc kv => assign (fst kv) (snd kv) acc) body d.

(** The string an absent or present body field is validated as. *)
Definition fieldString `{Casts} (key : string) (body : Body) : string :=
  match get key body with
  | Some v => toString v
  | None => ""
  end.

Definition trimmed `{Casts} (key : string) (body : Body) : Body :=
  sanitize key (fun v => JStr (JS.trim (toString v))) body.

Definition checkBody `{Casts} (optional : bool) (field : string) (message : string)
    (valid : string -> bool) (body : Body) : list FieldError :=
  if optional && negb (has field body) then []
  else if valid (fieldString field body) then []
  else [{| param := field; msg := message |}].

(** The validation chain shared by POST (fields required) and PUT (fields
    optional). *)
Definition validateBody `{FloatSyntax} `{Casts} (optional : bool) (body : Body)
    : list FieldError :=
  checkBody optional "name" "Product name must be between 1 and 100 characters"
    (isLength 1 100) body ++
  checkBody optional "description" "Description must be between 10 and 2000 characters"
    (isLength 10 2000) body ++
  checkBody optional "price" "Price must be a non-negative number" isFloatMin0 body ++
  checkBody optional "category" "Invalid category" (isIn categories) body.

(** Truthiness of a body value. *)
Definition truthyValue (v : JValue) : bool :=
  match v with
  | JNull => false
  | JBool b => b
  | JNum n => negb (Qeq_bool n 0)
  | JStr s => negb (s =? "")%string
  | JArr _ | JObj _ => true
  end.

Definition defaults (id : string) (now : Z) : Product :=
  {| _id := id; name := ""; slug := ""; description := ""; price := 0%Q;
     category := ""; tags := []; images := []; isActive := true; isFeatured := false;
     stats := {| views := 0%Q; downloads := 0%Q; sales := 0%Q;
                 rating := {| average := 0%Q; count := 0%Q |} |};
     createdBy := ""; updatedBy := None; createdAt := now |}.

(** [new Product(data)] starts from the schema defaults. *)
Definition fresh (id : string) (now : Z) : Doc :=
  {| val := defaults id now; isNew := true; modified := []; castFailed := false |}.

(** The images built from the uploaded files. *)
Definition uploaded (productName : string) (files : list string) : list Image :=
  JS.mapIndexed
    (fun path index =>
       {| url := path;
          alt := productName ++ " - Image " ++ JS.decimal (index + 1);
          isPrimary := (index =? 0)%nat |})
    files.

Definition serverError (text : string) : Response := reply 500 false text.

(** [await product.save()] of POST and its [catch]: a duplicate key is
    told apart from the other failures. *)
Definition saveCreated `{Slugify} (store : Store) (d : Doc) : Store * Response :=
  match save store d with
  | (store', d', None) =>
      (store', replyData 201 "Product created successfully" (val d'))
  | (_, _, Some DuplicateKey) =>
      (store, reply 400 false "Product with this name already exists")
  | (_, _, Some _) => (store, serverError "Server error while creating product")
  end.

(** [await product.save()] of PUT and its [catch]. *)
Definition saveUpdated `{Slugify} (store : Store) (d : Doc) : Store * Response :=
  match save store d with
  | (store', d', None) =>
      (store', replyData 200 "Product updated successfully" (val d'))
  | (_, _, Some _) => (store, serverError "Server error while updating product")
  end.

(** [await product.save()] of DELETE and its [catch]. *)
Definition saveDeleted `{Slugify} (store : Store) (d : Doc) : Store * Response :=
  match save store d with
  | (store', _, None) => (store', reply 200 true "Product deleted successfully")
  | (_, _, Some _) => (store, serverError "Server error while deleting product")
  end.

(** The parsing of an array field of the form data:
    [Array.isArray(v) ? v : v.split(',').map(x => x.trim())] when [v] is
    truthy.  A truthy value that is neither an array nor a string has no
    [split]: the handler throws. *)
Inductive Parsed :=
| AsGiven
| Parts (l : list string)
| Throws.

Definition parseArray (v : option JValue) : Parsed :=
  match v with
  | None | Some (JArr _) => AsGiven
  | Some (JStr s) =>
      if truthyValue (JStr s) then Parts (map JS.trim (JS.split ","%char s)) else AsGiven
  | Some v => if truthyValue v then Throws else AsGiven
  end.

(** POST /api/products.  [newId] is the identifier the driver generates
    for the new document and [now] the time of the request. *)
Definition createProduct `{FloatSyntax} `{Casts} `{Slugify}
    (store : Store) (user : option User) (newId : string) (now : Z)
    (files : list string) (body0 : Body) : Store * Response :=
  match admin user, user with
  | Some denied, _ => (store, denied)
  | None, None => (store, serverError "Server error in authorization")
  | None, Some u =>
      let body := trimmed "description" (trimmed "name" body0) in
      match validateBody false body with
      | (_ :: _) as errs => (store, replyErrors "Validation failed" errs)
      | [] =>
          let images :=
            match files with
            | [] => None
            | _ :: _ => Some (uploaded (fieldString "name" body) files)
            end in
          match parseArray (get "tags" body), parseArray (get "features" body),
                parseArray (get "techStack" body) with
          | Throws, _, _ | _, Throws, _ | _, _, Throws =>
              (store, serverError "Server error while creating product")
          | tagList, _, _ =>
              (* productData: the body, with createdBy, images and tags replaced *)
              let data := remove "createdBy" body in
              let data := match images with Some _ => remove "images" data | None => data end in
              let data := match tagList with Parts _ => remove "tags" data | _ => data end in
              (* new Product(productData) *)
              let d := assignAll data (fresh newId now) in
              let d := match images with
                       | Some l => assignPath "images" (setImages l) d
                       | None => d
                       end in
              let d := match tagList with
                       | Parts l => assignPath "tags" (setTags l) d
                       | _ => d
                       end in
              let d := assignPath "createdBy" (setCreatedBy (uid u)) d in
              saveCreated store d
          end
      end
  end.

(** An unguarded [Product.findById(req.params.id)] throws on a string
    that is not an identifier. *)
Definition findByParam (store : Store) (id : string) : option (option Product) :=
  if JS.isObjectIdString id then Some (findById store id) else None.

(** PUT /api/products/:id *)
Definition updateProduct `{FloatSyntax} `{Casts} `{Slugify}
    (store : Store) (user : option User) (id : string) (body0 : Body)
    : Store * Response :=
  match admin user, user with
  | Some denied, _ => (store, denied)
  | None, None => (store, serverError "Server error in authorization")
  | None, Some u =>
      let body := trimmed "description" (trimmed "name" body0) in
      match validateBody true body with
      | (_ :: _) as errs => (store, replyErrors "Validation failed" errs)
      | [] =>
          match findByParam store id with
          | None => (store, serverError "Server error while updating product")
          | Some None => (store, notFound)
          | Some (Some p) =>
              let d := assignAll body (load p) in
              let d := assignPath "updatedBy" (setUpdatedBy (Some (uid u))) d in
              saveUpdated store d
          end
      end
  end.

(** DELETE /api/products/:id (soft delete) *)
Definition deleteProduct `{Slugify}
    (store : Store) (user : option User) (id : string) : Store * Response :=
  match admin user, user with
  | Some denied, _ => (store, denied)
  | None, None => (store, serverError "Server error in authorization")
  | None, Some u =>
      match findByParam store id with
      | None => (store, serverError "Server error while deleting product")
      | Some None => (store, notFound)
      | Some (Some p) =>
          let d := assignIfChanged Bool.eqb "isActive" (isActive p) setIsActive false
                     (load p) in
          let d := assignPath "updatedBy" (setUpdatedBy (Some (uid u))) d in
          saveDeleted store d
      end
  end.

End Routes.

(** ** A concrete choice of the third-party operations

    Enough of each library to run the handlers on examples: prices written
    as whole numbers, body values that are strings, booleans, whole numbers,
    arrays of strings, image objects and complete stats objects. *)
Module Sample.

#[export] Instance wholeNumbers : FloatSyntax := {|
  isFloatMin0 := Validator.isInt 0 None;
  parseFloat := fun s =>
    match JS.parseInt s with
    | Some z => inject_Z z
    | None => 0%Q
    end
|}.

Fixpoint contains (needle s : string) : bool :=
  String.prefix needle s ||
  match s with
  | EmptyString => false
  | String _ r => contains needle r
  end.

(** A match in the name weighs more than a match in a tag. *)
#[export] Instance nameAndTags : TextIndex := {|
  textMatch := fun s p => contains s (name p) || existsb (contains s) (tags p);
  textScore := fun s p =>
    ((if contains s (name p) then 1 else 0)
     + (if existsb (contains s) (tags p) then 1 # 2 else 0))%Q
|}.

Definition isAlnum (c : ascii) : bool :=
  JS.isDigit c || JS.between 97 122 c || JS.between 65 90 c.

(** Letters and digits in lower case; each run of other characters between
    two words becomes one hyphen. *)
Fixpoint hyphenate (pending : bool) (started : bool) (s : string) : string :=
  match s with
  | EmptyString => EmptyString
  | String c r =>
      if isAlnum c
      then (if pending && started then String "-"%char else fun x => x)
             (String (JS.lowerChar c) (hyphenate false true r))
      else hyphenate true started r
  end.

#[export] Instance hyphens : Slugify := {| slugify := hyphenate false false |}.

Definition wholeString (n : Number) : string :=
  if (Zpos (Qden n) =? 1)%Z
  then NilEmpty.string_of_int (Z.to_int (Qnum n))
  else "".

Fixpoint strings (l : list JValue) : option (list string) :=
  match l with
  | [] => Some []
  | JStr s :: t => option_map (cons s) (strings t)
  | _ :: _ => None
  end.

Definition image (v : JValue) : option Image :=
  match v with
  | JObj [("url", JStr u); ("alt", JStr a); ("isPrimary", JBool b)] =>
      Some {| url := u; alt := a; isPrimary := b |}
  | JObj [("url", JStr u); ("isPrimary", JBool b)] =>
      Some {| url := u; alt := ""; isPrimary := b |}
  | JObj [("url", JStr u)] => Some {| url := u; alt := ""; isPrimary := false |}
  | _ => None
  end.

Fixpoint imageList (l : list JValue) : option (list Image) :=
  match l with
  | [] => Some []
  | v :: t =>
      match image v, imageList t with
      | Some i, Some r => Some (i :: r)
      | _, _ => None
      end
  end.

#[export] Instance plainCasts : Casts := {|
  toString := fun v =>
    match v with
    | JStr s => s
    | JNum n => wholeString n
    | JBool b => if b then "true" else "false"
    | _ => ""
    end;
  castString := fun v => match v with JStr s => Some s | _ => None end;
  castNumber := fun v => match v with JNum n => Some n | _ => None end;
  castBoolean := fun v => match v with JBool b => Some b | _ => None end;
  castObjectId := fun v =>
    match v with
    | JStr s => if JS.isObjectIdString s then Some (JS.toLowerCase s) else None
    | _ => None
    end;
  castStrings := fun v => match v with JArr l => strings l | _ => None end;
  castImages := fun v => match v with JArr l => imageList l | _ => None end;
  castStats := fun _ v =>
    match v with
    | JObj [("views", JNum v); ("downloads", JNum d); ("sales", JNum s);
            ("rating", JObj [("average", JNum a); ("count", JNum c)])] =>
        Some {| views := v; downloads := d; sales := s;
                rating := {| average := a; count := c |} |}
    | _ => None
    end
|}.

End Sample.

(** ** Increment requests running concurrently

    A request that increments a counter of the product [id] first loads the
    document (one read of the store) and later saves it (one write).  Other
    requests may run between the two. *)
Module Concurrent.
Import Query Model.

Inductive Counter := Views | Downloads | Sales.

Definition counterEqb (a b : Counter) : bool :=
  match a, b with
  | Views, Views | Downloads, Downloads | Sales, Sales => true
  | _, _ => false
  end.

Definition counter (c : Counter) (p : Product) : Number :=
  match c with
  | Views => views (stats p)
  | Downloads => downloads (stats p)
  | Sales => sales (stats p)
  end.

(** The schema path of a counter, and a product with that counter raised
    by one. *)
Definition path (c : Counter) : string :=
  match c with
  | Views => "stats.views"
  | Downloads => "stats.downloads"
  | Sales => "stats.sales"
  end.

Definition bumped (c : Counter) (p : Product) : Product :=
  match c with
  | Views => setStats (setViews (views (stats p) + 1)%Q (stats p)) p
  | Downloads => setStats (setDownloads (downloads (stats p) + 1)%Q (stats p)) p
  | Sales => setStats (setSales (sales (stats p) + 1)%Q (stats p)) p
  end.

Definition increment `{Slugify} (c : Counter) (store : Store) (d : Doc) :=
  match c with
  | Views => incrementViews store d
  | Downloads => incrementDownloads store d
  | Sales => incrementSales store d
  end.

Inductive Task :=
| Received (c : Counter)              (* nothing done yet *)
| Loaded (c : Counter) (d : Doc)      (* document read, increment not saved *)
| Finished (c : Counter) (saved : bool)
| Missed.                             (* no active product: 404 *)

(** The next store access of a request. *)
Definition run `{Slugify} (id : string) (t : Task) (store : Store) : Store * Task :=
  match t with
  | Received c =>
      match findById store id with
      | Some p => if isActive p then (store, Loaded c (load p)) else (store, Missed)
      | None => (store, Missed)
      end
  | Loaded c d =>
      let '(store', _, err) := increment c store d in
      (store', Finished c (match err with None => true | Some _ => false end))
  | Finished _ _ | Missed => (store, t)
  end.

Record World := { db : Store; tasks : list Task }.

Fixpoint replace {A : Type} (i : nat) (x : A) (l : list A) : list A :=
  match l, i with
  | [], _ => []
  | _ :: t, O => x :: t
  | y :: t, S j => y :: replace j x t
  end.

(** Request number [i] performs its next store access. *)
Definition stepAt `{Slugify} (id : string) (w : World) (i : nat) : World :=
  match nth_error (tasks w) i with
  | Some t =>
      let '(store', t') := run id t (db w) in
      {| db := store'; tasks := replace i t' (tasks w) |}
  | None => w
  end.

(** A schedule names the request that moves at each instant. *)
Definition exec `{Slugify} (id : string) (schedule : list nat) (w : World) : World :=
  fold_left (stepAt id) schedule w.

Definition isSaved (c : Counter) (t : Task) : bool :=
  match t with
  | Finished c' true => counterEqb c c'
  | _ => false
  end.

(** The increments of [c] whose save succeeded. *)
Definition saved (c : Counter) (ts : list Task) : nat :=
  List.length (filter (isSaved c) ts).

(** The schedule of [n] requests that do not overlap: the save of each
    request follows its read with no access of another request between,
    whether or not a handler waits for it. *)
Definition oneByOne (n : nat) : list nat :=
  flat_map (fun i => [i; i]) (seq 0 n).

Definition requested (c : Counter) (cs : list Counter) : nat :=
  List.length (filter (counterEqb c) cs).

(** [x] lies between [v0] and [v0 + n]. *)
Definition within (v0 : Number) (n : nat) (x : Number) : Prop :=
  (v0 <= x)%Q /\ (x <= v0 + inject_Z (Z.of_nat n))%Q.

(** What holds of the counter [c] of the product [id] while increments
    run, [v0] being its value before the first of them: the stored value
    and every value held by a request lie between [v0] and [v0] plus the
    number of saved increments, and the stored value is above [v0] as soon
    as one increment is saved. *)
Record Inv (id : string) (c : Counter) (v0 : Number) (w : World) : Prop := {
  inv_stored :
    exists q, findById (db w) id = Some q /\ isActive q = true
              /\ within v0 (saved c (tasks w)) (counter c q)
              /\ ((1 <= saved c (tasks w))%nat -> (v0 + 1 <= counter c q)%Q);
  inv_loaded :
    forall c' d, In (Loaded c' d) (tasks w) ->
      d = load (val d) /\ _id (val d) = JS.toLowerCase id
      /\ within v0 (saved c (tasks w)) (counter c (val d))
}.

(** What a request holds while the stored product [p] fails validation:
    no save has succeeded. *)
Definition unsaved (p : Product) (t : Task) : Prop :=
  match t with
  | Loaded _ d => d = load p
  | Finished _ b => b = false
  | _ => True
  end.

End Concurrent.

(** ** The in-scope operations as transitions of the store *)
Module Service.
Import Req.

Inductive Op :=
| ListProducts (q : Listing.ListQuery)
| GetProduct (identifier : string)
| CreateProduct (user : option User) (newId : string) (now : Z)
    (files : list string) (body : Body)
| UpdateProduct (user : option User) (id : string) (body : Body)
| SoftDeleteProduct (user : option User) (id : string).

Definition apply `{FloatSyntax} `{Casts} `{Slugify}
    (store : Store) (op : Op) : Store :=
  match op with
  | ListProducts _ => store
  | GetProduct identifier => fst (Routes.getProduct store identifier)
  | CreateProduct user newId now files body =>
      fst (Routes.createProduct store user newId now files body)
  | UpdateProduct user id body => fst (Routes.updateProduct store user id body)
  | SoftDeleteProduct user id => fst (Routes.deleteProduct store user id)
  end.

Definition applyAll `{FloatSyntax} `{Casts} `{Slugify}
    (ops : list Op) (store : Store) : Store :=
  fold_left apply ops store.

(** The flag of the stored product with the given identifier. *)
Definition activeFlag (store : Store) (id : string) : option bool :=
  option_map isActive (List.find (fun p => (_id p =? id)%string) store).

(** Whether an operation is an update whose body names [isActive]. *)
Definition namesIsActive (op : Op) : bool :=
  match op with
  | UpdateProduct _ _ body => has "isActive" body
  | _ => false
  end.

(** Soft-deleted products stay soft-deleted from [store] to [store']. *)
Definition flagKept (store store' : Store) : Prop :=
  forall id, activeFlag store id = Some false -> activeFlag store' id = Some false.

End Service.

(** ** Example data *)
Module Fixtures.
Import Listing Req.

Definition product (id productName productSlug : string) (active : bool)
    (viewCount : Number) : Product :=
  {| _id := id; name := productName; slug := productSlug;
     description := "A product of the catalog";
     price := 10%Q; category := "templates"; tags := []; images := [];
     isActive := active; isFeatured := false;
     stats := {| views := viewCount; downloads := 0%Q; sales := 0%Q;
                 rating := {| average := 0%Q; count := 0%Q |} |};
     createdBy := "cccccccccccccccccccccccc"; updatedBy := None; createdAt := 0 |}.

Definition idA : string := "aaaaaaaaaaaaaaaaaaaaaaaa".
Definition idB : string := "bbbbbbbbbbbbbbbbbbbbbbbb".

Definition administrator : option User :=
  Some {| uid := "cccccccccccccccccccccccc"; role := "admin" |}.

Definition noParams : ListQuery :=
  {| q_page := None; q_limit := None; q_category := None; q_minPrice := None;
     q_maxPrice := None; q_sort := None; q_search := None; q_featured := None |}.

Definition sortedBy (key : string) : ListQuery :=
  {| q_page := None; q_limit := None; q_category := None; q_minPrice := None;
     q_maxPrice := None; q_sort := Some key; q_search := None; q_featured := None |}.

Definition onPage (page : string) : ListQuery :=
  {| q_page := Some page; q_limit := None; q_category := None; q_minPrice := None;
     q_maxPrice := None; q_sort := None; q_search := None; q_featured := None |}.

Definition searching (term : string) : ListQuery :=
  {| q_page := None; q_limit := None; q_category := None; q_minPrice := None;
     q_maxPrice := None; q_sort := Some "price-low"; q_search := Some term;
     q_featured := None |}.

Definition picture (path : string) (primary : bool) : Image :=
  {| url := path; alt := ""; isPrimary := primary |}.

(** An active product and a soft-deleted one. *)
Definition twoProducts : Store :=
  [product idA "Alpha" "alpha" true 0%Q; product idB "Beta" "beta" false 0%Q].

(** A soft-deleted product whose slug has the shape of an identifier:
    the identifier of the active product stored next to it. *)
Definition slugLikeId : Store :=
  [product idB "aaaaaaaaaaaaaaaaaaaaaaaa" idA false 0%Q;
   product idA "Alpha" "alpha" true 0%Q].

(** The same arrangement with both products active. *)
Definition slugIsOtherId : Store :=
  [product idB "aaaaaaaaaaaaaaaaaaaaaaaa" idA true 0%Q;
   product idA "Alpha" "alpha" true 0%Q].

Definition emptyPageTwo : Pagination :=
  {| currentPage := Some 2; totalPages := Some 0; totalProducts := 0;
     hasNextPage := false; hasPrevPage := true; limit := Some 12 |}.

Definition noFilters : Filters :=
  {| fl_category := None; fl_minPrice := None; fl_maxPrice := None;
     fl_search := None; fl_sort := "newest" |}.

(** Three pictures of which the second and the third are marked. *)
Definition laterPrimaries : list Image :=
  [picture "/img/a.png" false; picture "/img/b.png" true; picture "/img/c.png" true].

Definition laterPrimariesBody : Body :=
  [("images",
    JArr [JObj [("url", JStr "/img/a.png"); ("isPrimary", JBool false)];
          JObj [("url", JStr "/img/b.png"); ("isPrimary", JBool true)];
          JObj [("url", JStr "/img/c.png"); ("isPrimary", JBool true)]])].

Definition alpha (viewCount : Number) : Product :=
  product idA "Alpha" "alpha" true viewCount.

Definition beta : Product := product idB "Beta" "beta" false 0%Q.

(** A body for POST that names a new product "Alpha". *)
Definition newAlpha : Body :=
  [("name", JStr "Alpha"); ("description", JStr "Another product called Alpha");
   ("price", JNum 12%Q); ("category", JStr "themes")].

Definition idC : string := "dddddddddddddddddddddddd".

Definition fullStats (v : Number) : JValue :=
  JObj [("views", JNum v); ("downloads", JNum 0%Q); ("sales", JNum 0%Q);
        ("rating", JObj [("average", JNum 0%Q); ("count", JNum 0%Q)])].

(** The answer to a search for "Alpha" among [twoProducts]. *)
Definition alphaPage : Pagination :=
  {| currentPage := Some 1; totalPages := Some 1; totalProducts := 1;
     hasNextPage := false; hasPrevPage := false; limit := Some 12 |}.

Definition alphaFilters : Filters :=
  {| fl_category := None; fl_minPrice := None; fl_maxPrice := None;
     fl_search := Some "Alpha"; fl_sort := "price-low" |}.

(** Operations none of which is an update naming [isActive]. *)
Definition quietOps : list Service.Op :=
  [Service.GetProduct "beta";
   Service.UpdateProduct administrator idB [("price", JNum 5%Q)];
   Service.SoftDeleteProduct administrator idA;
   Service.ListProducts noParams;
   Service.CreateProduct administrator idC 0 [] newAlpha].

End Fixtures.

(** ** Requests to the listing, for the statements about it *)
Module Params.
Import Validator Listing.

(** The request without its [featured] parameter. *)
Definition withoutFeatured (q : ListQuery) : ListQuery :=
  {| q_page := q_page q; q_limit := q_limit q; q_category := q_category q;
     q_minPrice := q_minPrice q; q_maxPrice := q_maxPrice q; q_sort := q_sort q;
     q_search := q_search q; q_featured := None |}.

(** The validation error on [field] is reported. *)
Definition reports `{FloatSyntax} (q : ListQuery) (field : string) : Prop :=
  exists message, In {| param := field; msg := message |} (validate q).

(** The parameter [v] is present and fails [valid]. *)
Definition offends (valid : string -> bool) (v : option string) : Prop :=
  exists s, v = Some s /\ valid s = false.

End Params.

(** ** What a loaded document records of its changes *)
Module Tracking.
Import Query Model Req Routes.

(** The value of a path after an update that writes [paths]. *)
Definition pick {A : Type} (path : string) (paths : list string) (src dst : A) : A :=
  if existsb (String.eqb path) paths then src else dst.

(** [applyPaths] field by field, for paths none of which is a counter. *)
Definition written (paths : list string) (src dst : Product) : Product :=
  {| _id := _id dst;
     name := pick "name" paths (name src) (name dst);
     slug := pick "slug" paths (slug src) (slug dst);
     description := pick "description" paths (description src) (description dst);
     price := pick "price" paths (price src) (price dst);
     category := pick "category" paths (category src) (category dst);
     tags := pick "tags" paths (tags src) (tags dst);
     images := pick "images" paths (images src) (images dst);
     isActive := pick "isActive" paths (isActive src) (isActive dst);
     isFeatured := pick "isFeatured" paths (isFeatured src) (isFeatured dst);
     stats := pick "stats" paths (stats src) (stats dst);
     createdBy := pick "createdBy" paths (createdBy src) (createdBy dst);
     updatedBy := pick "updatedBy" paths (updatedBy src) (updatedBy dst);
     createdAt := createdAt dst |}.

(** A path is marked modified, or its value is the stored one. *)
Definition tracked {A : Type} (path : string) (d : Doc) (current stored : A) : Prop :=
  In path (modified d) \/ current = stored.

(** The document [d] was loaded from the stored product [p] and every
    difference between them is recorded in its modified paths. *)
Record Tracks (p : Product) (d : Doc) : Prop := {
  tr_isNew : isNew d = false;
  tr_id : _id (val d) = _id p;
  tr_createdAt : createdAt (val d) = createdAt p;
  tr_name : tracked "name" d (name (val d)) (name p);
  tr_slug : tracked "slug" d (slug (val d)) (slug p);
  tr_description : tracked "description" d (description (val d)) (description p);
  tr_price : tracked "price" d (price (val d)) (price p);
  tr_category : tracked "category" d (category (val d)) (category p);
  tr_tags : tracked "tags" d (tags (val d)) (tags p);
  tr_images : tracked "images" d (images (val d)) (images p);
  tr_isActive : tracked "isActive" d (isActive (val d)) (isActive p);
  tr_isFeatured : tracked "isFeatured" d (isFeatured (val d)) (isFeatured p);
  tr_stats : tracked "stats" d (stats (val d)) (stats p);
  tr_createdBy : tracked "createdBy" d (createdBy (val d)) (createdBy p);
  tr_updatedBy : tracked "updatedBy" d (updatedBy (val d)) (updatedBy p);
  tr_paths : forall path, In path (modified d) -> In path assignable
}.

End Tracking.

(** ** Routes as steps of the store *)
Module Invariants.
Import Model.

(** A route touches the store through at most one [save]. *)
Definition Saves `{Slugify} (store store' : Store) : Prop :=
  store' = store \/ exists d, store' = fst (fst (save store d)).

End Invariants.

(** ** Virtuals and statics of the Product model *)
Module Virtuals.
Import Query.

(** The virtual [primaryImage]:
    [images.find(img => img.isPrimary) || images[0] || null] *)
Definition primaryImage (p : Product) : option Image :=
  match List.find isPrimary (images p) with
  | Some primary => Some primary
  | None =>
      match images p with
      | first :: _ => Some first
      | [] => None
      end
  end.

Definition activeFilter : Filter :=
  {| f_isActive := Some true; f_category := None; f_price := None;
     f_isFeatured := None; f_text := None |}.

Definition featuredFilter : Filter :=
  {| f_isActive := Some true; f_category := None; f_price := None;
     f_isFeatured := Some true; f_text := None |}.

(** [Model.find(filter)] with no sort, skip or limit: the matches in the
    order of the collection. *)
Definition findAll `{TextIndex} (store : Store) (f : Filter) : list Product :=
  filter (matches f) store.

(** The statics [findActive] and [findFeatured]. *)
Definition findActive `{TextIndex} (store : Store) : list Product :=
  findAll store activeFilter.

Definition findFeatured `{TextIndex} (store : Store) : list Product :=
  findAll store featuredFilter.

End Virtuals.

(** ** GET /api/products/:id/download *)
Module Download.
Import Query Model Req Routes.

(** The [files] of a stored product, a path no other route reads.  The
    schema declares its entries as [{ name: String, url: String,
    size: Number, type: String }]; the key [type] makes this the
    declaration of a string, so the path is an array of strings. *)
Class Attachments := { files : Product -> list string }.

Record Links := {
  linkedFiles : list string;
  downloadUrl : option string
}.

Record DownloadResponse := {
  downloadStatus : Z;
  downloadSuccess : bool;
  downloadMessage : string;
  links : option Links
}.

(** The property [url] of an entry: a string has none ([undefined]). *)
Definition urlOf (file : string) : option string := None.

(** [files[0]?.url || null] *)
Definition firstUrl (l : list string) : option string :=
  match l with
  | first :: _ => urlOf first
  | [] => None
  end.

Definition failed (code : Z) (text : string) : DownloadResponse :=
  {| downloadStatus := code; downloadSuccess := false; downloadMessage := text;
     links := None |}.

(** The handler behind the authentication middleware, which supplies the
    user.  The purchase check of a user who is not an administrator is
    left to do in the source: the branch on the role is empty. *)
Definition downloadProduct `{Slugify} `{Attachments}
    (store : Store) (user : User) (id : string) : Store * DownloadResponse :=
  match findByParam store id with
  | None => (store, failed 500 "Server error while processing download")
  | Some None => (store, failed 404 "Product not found")
  | Some (Some p) =>
      if isActive p then
        let purchaseChecked := if negb (role user =? "admin")%string then tt else tt in
        (* the increment is not awaited; its failure is only logged *)
        let '(store', _, _) := incrementDownloads store (load p) in
        (store', {| downloadStatus := 200; downloadSuccess := true;
                    downloadMessage := "Download links generated";
                    links := Some {| linkedFiles := files p;
                                     downloadUrl := firstUrl (files p) |} |})
      else (store, failed 404 "Product not found")
  end.

End Download.

(** ** The newsletter routes *)
Module Newsletter.
Import Validator Req Routes.

(** validator.js: [isEmail] and [normalizeEmail] with their defaults. *)
Class EmailSyntax := {
  isEmail : string -> bool;
  normalizeEmail : string -> string
}.

(** [const subscribers = new Set()], the state of the module: the
    addresses in insertion order, none of them twice. *)
Definition Subscribers : Type := list string.

Definition has (email : string) (subscribers : Subscribers) : bool :=
  existsb (String.eqb email) subscribers.

Definition add (email : string) (subscribers : Subscribers) : Subscribers :=
  if has email subscribers then subscribers else (subscribers ++ [email])%list.

(** [Set.prototype.delete] returns whether the element was present. *)
Definition delete (email : string) (subscribers : Subscribers) : Subscribers * bool :=
  (filter (fun e => negb (e =? email)%string) subscribers, has email subscribers).

Definition size (subscribers : Subscribers) : Z := Z.of_nat (List.length subscribers).

Record Reply := {
  status : Z;
  success : bool;
  message : string;
  errors : option (list FieldError);
  subscriberCount : option Z
}.

Definition reply (code : Z) (ok : bool) (text : string) : Reply :=
  {| status := code; success := ok; message := text; errors := None;
     subscriberCount := None |}.

Definition invalid (errs : list FieldError) : Reply :=
  {| status := 400; success := false; message := "Validation failed";
     errors := Some errs; subscriberCount := None |}.

Definition validateEmail `{EmailSyntax} `{Casts} (body : Body) : list FieldError :=
  checkBody false "email" "Please provide a valid email" isEmail body.

(** [req.body.email] after the sanitizer of the chain. *)
Definition emailOf `{EmailSyntax} `{Casts} (body : Body) : string :=
  normalizeEmail (fieldString "email" body).

Definition validateSubscribe `{EmailSyntax} `{Casts} (body : Body) : list FieldError :=
  validateEmail body ++
  checkBody true "name" "Name must be between 2 and 100 characters" (isLength 2 100)
    (trimmed "name" body).

(** POST /api/newsletter/subscribe.  The welcome mail is sent inside its
    own [try]; its failure is logged and changes nothing. *)
Definition subscribe `{EmailSyntax} `{Casts} (subscribers : Subscribers) (body : Body)
    : Subscribers * Reply :=
  match validateSubscribe body with
  | (_ :: _) as errs => (subscribers, invalid errs)
  | [] =>
      let email := emailOf body in
      if has email subscribers
      then (subscribers, reply 400 false "Email is already subscribed to our newsletter")
      else (add email subscribers, reply 200 true "Successfully subscribed to newsletter!")
  end.

(** POST /api/newsletter/unsubscribe *)
Definition unsubscribe `{EmailSyntax} `{Casts} (subscribers : Subscribers) (body : Body)
    : Subscribers * Reply :=
  match validateEmail body with
  | (_ :: _) as errs => (subscribers, invalid errs)
  | [] =>
      let email := emailOf body in
      let '(subscribers', wasSubscribed) := delete email subscribers in
      if negb wasSubscribed
      then (subscribers', reply 400 false "Email is not subscribed to our newsletter")
      else (subscribers', reply 200 true "Successfully unsubscribed from newsletter")
  end.

(** GET /api/newsletter/count *)
Definition count (subscribers : Subscribers) : Reply :=
  {| status := 200; success := true; message := ""; errors := None;
     subscriberCount := Some (size subscribers) |}.

End Newsletter.

(** ** The email path of the User model (routes/users.js) *)
Module UserModel.

(** Regular expressions over characters, as far as the pattern of the
    schema needs them. *)
Inductive Regex :=
| Never                          (* matches nothing *)
| Empty                          (* the empty string *)
| Chars (f : ascii -> bool)      (* one character of a class *)
| Seq (a b : Regex)
| Alt (a b : Regex)
| Star (a : Regex).

Definition opt (a : Regex) : Regex := Alt a Empty.     (* a? *)
Definition plus (a : Regex) : Regex := Seq a (Star a). (* a+ *)

(** The strings a regular expression matches from end to end. *)
Inductive Lang : Regex -> string -> Prop :=
| LEmpty : Lang Empty ""
| LChars f c : f c = true -> Lang (Chars f) (String c "")
| LSeq a b s t : Lang a s -> Lang b t -> Lang (Seq a b) (s ++ t)
| LAltL a b s : Lang a s -> Lang (Alt a b) s
| LAltR a b s : Lang b s -> Lang (Alt a b) s
| LStarNone a : Lang (Star a) ""
| LStarMore a s t : Lang a s -> Lang (Star a) t -> Lang (Star a) (s ++ t).

Fixpoint nullable (r : Regex) : bool :=
  match r with
  | Never | Chars _ => false
  | Empty | Star _ => true
  | Seq a b => nullable a && nullable b
  | Alt a b => nullable a || nullable b
  end.

(** What is left to match after the character [c]. *)
Fixpoint deriv (c : ascii) (r : Regex) : Regex :=
  match r with
  | Never | Empty => Never
  | Chars f => if f c then Empty else Never
  | Seq a b =>
      if nullable a then Alt (Seq (deriv c a) b) (deriv c b) else Seq (deriv c a) b
  | Alt a b => Alt (deriv c a) (deriv c b)
  | Star a => Seq (deriv c a) (Star a)
  end.

(** [/^r$/.test(s)] *)
Fixpoint test (r : Regex) (s : string) : bool :=
  match s with
  | EmptyString => nullable r
  | String c t => test (deriv c r) t
  end.

(** [\w] *)
Definition isWord (c : ascii) : bool :=
  JS.isDigit c || JS.between 97 122 c || JS.between 65 90 c || Ascii.eqb c "_".

Definition word : Regex := Chars isWord.
Definition separator : Regex := Chars (fun c => Ascii.eqb c "." || Ascii.eqb c "-").
Definition dot : Regex := Chars (fun c => Ascii.eqb c ".").
Definition at_sign : Regex := Chars (fun c => Ascii.eqb c "@").

(** [\w+([\.-]?\w+)*] *)
Definition labels : Regex := Seq (plus word) (Star (Seq (opt separator) (plus word))).

(** [\.\w{2,3}] *)
Definition ending : Regex := Seq dot (Seq word (Seq word (opt word))).

(** [/^\w+([\.-]?\w+)*@\w+([\.-]?\w+)*(\.\w{2,3})+$/], the [match] of the
    path [email]. *)
Definition emailPattern : Regex :=
  Seq labels (Seq at_sign (Seq labels (plus ending))).

(** The validator of the path; [required] refuses the empty string, which
    the pattern refuses as well. *)
Definition emailMatches (v : string) : bool := test emailPattern v.

Fixpoint occurrences (c : ascii) (s : string) : nat :=
  match s with
  | EmptyString => 0
  | String x t => (if Ascii.eqb x c then 1 else 0) + occurrences c t
  end.

(** No class of the expression holds the character [c]. *)
Fixpoint avoids (c : ascii) (r : Regex) : bool :=
  match r with
  | Never | Empty => true
  | Chars f => negb (f c)
  | Seq a b | Alt a b => avoids c a && avoids c b
  | Star a => avoids c a
  end.

End UserModel.

(** ** The statistics the catalog routes leave alone *)
Module Statistics.
Import Req Service.

(** The stored product with the given identifier. *)
Definition stored (store : Store) (id : string) : option Product :=
  List.find (fun p => (_id p =? id)%string) store.

(** The sales counter, the download counter and the rating of a product. *)
Definition settled (p : Product) : Number * Number * Rating :=
  (sales (stats p), downloads (stats p), rating (stats p)).

(** The paths that write one of them. *)
Definition settledPaths : list string := ["stats"; "stats.sales"; "stats.downloads"].

(** Whether an operation is an update whose body names [stats]. *)
Definition namesStats (op : Op) : bool :=
  match op with
  | UpdateProduct _ _ body => has "stats" body
  | _ => false
  end.

(** Every product of [store] is in [store'] with the same sales, downloads
    and rating. *)
Definition settledKept (store store' : Store) : Prop :=
  forall id p, stored store id = Some p ->
    exists p', stored store' id = Some p' /\ settled p' = settled p.

End Statistics.

(** ** A concrete choice of the mail syntax and of the product files *)
Module SampleServices.

(** An address has an [@] with text on both sides; normalizing lowers
    the case. *)
#[export] Instance addresses : Newsletter.EmailSyntax := {|
  Newsletter.isEmail := fun s =>
    match JS.split "@"%char s with
    | [user; domain] => negb (user =? "")%string && negb (domain =? "")%string
    | _ => false
    end;
  Newsletter.normalizeEmail := JS.toLowerCase
|}.

(** Every product comes as one archive named after its slug. *)
#[export] Instance archives : Download.Attachments := {|
  Download.files := fun p => ["/files/" ++ slug p ++ ".zip"]
|}.

End SampleServices.

(** ** Example requests *)
Module Cases.
Import Listing Req Fixtures.

(** Templates priced between [lo] and [hi]. *)
Definition priced (lo hi : string) : ListQuery :=
  {| q_page := None; q_limit := None; q_category := Some "templates";
     q_minPrice := Some lo; q_maxPrice := Some hi; q_sort := None;
     q_search := None; q_featured := None |}.

Definition featuring (v : string) : ListQuery :=
  {| q_page := None; q_limit := None; q_category := None; q_minPrice := None;
     q_maxPrice := None; q_sort := None; q_search := None; q_featured := Some v |}.

Definition pricedFilters (lo hi : string) : Filters :=
  {| fl_category := Some "templates"; fl_minPrice := Some lo; fl_maxPrice := Some hi;
     fl_search := None; fl_sort := "newest" |}.

Definition emptyPage : Pagination :=
  {| currentPage := Some 1; totalPages := Some 0; totalProducts := 0;
     hasNextPage := false; hasPrevPage := false; limit := Some 12 |}.

Definition manager : User := {| uid := "cccccccccccccccccccccccc"; role := "admin" |}.

Definition customer : User := {| uid := "eeeeeeeeeeeeeeeeeeeeeeee"; role := "user" |}.

(** A body for POST that names a new product "Gamma" and tries to set its
    creator and its slug. *)
Definition newGamma : Body :=
  [("name", JStr " Gamma Kit "); ("description", JStr "A kit of components");
   ("price", JNum 30%Q); ("category", JStr "components");
   ("createdBy", JStr "eeeeeeeeeeeeeeeeeeeeeeee"); ("slug", JStr "chosen")].

Definition gamma : Product :=
  {| _id := idC; name := "Gamma Kit"; slug := "gamma-kit";
     description := "A kit of components";
     price := 30%Q; category := "components"; tags := [];
     images := [{| url := "/up/one.png"; alt := "Gamma Kit - Image 1"; isPrimary := true |};
                {| url := "/up/two.png"; alt := "Gamma Kit - Image 2"; isPrimary := false |}];
     isActive := true; isFeatured := false;
     stats := {| views := 0%Q; downloads := 0%Q; sales := 0%Q;
                 rating := {| average := 0%Q; count := 0%Q |} |};
     createdBy := "cccccccccccccccccccccccc"; updatedBy := None; createdAt := 5 |}.

(** A document whose images were just assigned. *)
Definition withImages (imgs : list Image) : Model.Doc :=
  Model.assignPath "images" (Model.setImages imgs) (Model.load (alpha 0%Q)).

(** A body for POST whose tags are a number. *)
Definition numberedTags : Body := (newGamma ++ [("tags", JNum 5%Q)])%list.

Definition ann : Body := [("email", JStr "Ann@Example.com"); ("name", JStr " Ann ")].

Definition annAgain : Body := [("email", JStr "ann@example.com")].

End Cases.

(** ** A catalog for the listing *)
Module Catalog.
Import Listing.

Definition item (id title itemSlug : string) (cost : Number)
    (labels : list string) (created : Z) : Product :=
  {| _id := id; name := title; slug := itemSlug;
     description := "A product of the catalog";
     price := cost; category := "components"; tags := labels; images := [];
     isActive := true; isFeatured := false;
     stats := {| views := 0%Q; downloads := 0%Q; sales := 0%Q;
                 rating := {| average := 0%Q; count := 0%Q |} |};
     createdBy := "cccccccccccccccccccccccc"; updatedBy := None;
     createdAt := created |}.

Definition starterKit : Product :=
  item "111111111111111111111111" "Starter Kit" "starter-kit" 30%Q [] 1.

(** A product that names the kits in a tag only. *)
Definition lamp : Product :=
  item "222222222222222222222222" "Lamp" "lamp" 5%Q ["Kit"] 2.

(** A product that names them in its name and in a tag. *)
Definition proKit : Product :=
  item "333333333333333333333333" "Pro Kit" "pro-kit" 20%Q ["Kit"] 3.

Definition miniKit : Product :=
  item "444444444444444444444444" "Mini Kit" "mini-kit" 10%Q [] 4.

Definition kits : Store := [starterKit; lamp; proKit; miniKit].

(** A product stored with a negative price, which no route would have
    accepted. *)
Definition mispriced : Product :=
  item "555555555555555555555555" "Odd Lot" "odd-lot" (-1)%Q [] 5.

Definition request (page lim sort search : option string) : ListQuery :=
  {| q_page := page; q_limit := lim; q_category := None; q_minPrice := None;
     q_maxPrice := None; q_sort := sort; q_search := search; q_featured := None |}.

Definition window (page pages total : Z) (next prev : bool) (lim : Z) : Pagination :=
  {| currentPage := Some page; totalPages := Some pages; totalProducts := total;
     hasNextPage := next; hasPrevPage := prev; limit := Some lim |}.

Definition echo (sort : string) (search : option string) : Filters :=
  {| fl_category := None; fl_minPrice := None; fl_maxPrice := None;
     fl_search := search; fl_sort := sort |}.

End Catalog.

(** * Properties *)

(** ** Validation of the listing parameters *)
Section ListingValidation.
Import Validator Listing.
Context `{FloatSyntax}.

Lemma check_passes field message valid v s :
  check field message valid v = [] -> v = Some s -> valid s = true.
Proof.
  unfold check. intros Hc ->. destruct (valid s); [reflexivity | discriminate].
Qed.

Lemma isInt_parseInt lo hi s :
  isInt lo hi s = true ->
  exists v, JS.parseInt s = Some v /\ lo <= v
            /\ match hi with Some m => v <= m | None => True end.
Proof.
  unfold isInt. intros Hi.
  apply andb_prop in Hi as [_ Hi].
  destruct (JS.parseInt s) as [v|]; [|discriminate].
  apply andb_prop in Hi as [Hlo Hhi].
  exists v. repeat split; [lia|].
  destruct hi; [lia | exact I].
Qed.

(** A request that passes validation has every chain satisfied. *)
Lemma validate_passes q :
  validate q = [] ->
  check "page" "Page must be a positive integer" (isInt 1 None) (q_page q) = []
  /\ check "limit" "Limit must be between 1 and 100" (isInt 1 (Some 100)) (q_limit q) = []
  /\ check "sort" "Invalid value" (isIn sortKeys) (q_sort q) = []
  /\ check "search" "Search term must be between 1 and 100 characters"
       (isLength 1 100) (q_search q) = [].
Proof.
  unfold validate. intros Hv.
  repeat (apply app_eq_nil in Hv as [? Hv]). auto.
Qed.

Lemma pageOf_valid q :
  validate q = [] -> exists n, pageOf q = Some n /\ 1 <= n.
Proof.
  intros Hv. apply validate_passes in Hv as (Hp & _).
  unfold pageOf. destruct (q_page q) as [s|] eqn:Eq.
  - pose proof (check_passes _ _ _ _ s Hp eq_refl) as Hi.
    apply isInt_parseInt in Hi as (v & -> & Hlo & _). eauto.
  - exists 1. split; [reflexivity | lia].
Qed.

Lemma limitOf_valid q :
  validate q = [] -> exists l, limitOf q = Some l /\ 1 <= l <= 100.
Proof.
  intros Hv. apply validate_passes in Hv as (_ & Hl & _).
  unfold limitOf. destruct (q_limit q) as [s|] eqn:Eq.
  - pose proof (check_passes _ _ _ _ s Hl eq_refl) as Hi.
    apply isInt_parseInt in Hi as (v & -> & Hlo & Hhi). eauto.
  - exists 12. split; [reflexivity | lia].
Qed.

Lemma search_valid q s :
  validate q = [] -> q_search q = Some s -> JS.truthy (q_search q) = true.
Proof.
  intros Hv Hs. apply validate_passes in Hv as (_ & _ & _ & Hc).
  pose proof (check_passes _ _ _ _ s Hc Hs) as Hl.
  rewrite Hs. unfold isLength in Hl. apply andb_prop in Hl as [Hmin _].
  destruct s; [discriminate Hmin | reflexivity].
Qed.

Lemma sort_error_reported q s :
  q_sort q = Some s -> isIn sortKeys s = false ->
  In {| param := "sort"; msg := "Invalid value" |} (validate q).
Proof.
  intros Hs Hk. unfold validate.
  do 5 (apply in_or_app; right). apply in_or_app; left.
  rewrite Hs. unfold check. rewrite Hk. left. reflexivity.
Qed.

Lemma resolveSort_unknown s :
  isIn sortKeys s = false -> resolveSort s = [("createdAt", Query.Dir (-1))].
Proof.
  unfold isIn, sortKeys, resolveSort. cbn [existsb].
  intros Hk.
  repeat (apply orb_false_elim in Hk as [-> Hk]). reflexivity.
Qed.

Context `{TextIndex}.

Lemma listProductsAt_invalid found counted q :
  validate q <> [] -> listProductsAt found counted q = ListInvalid (validate q).
Proof.
  intros Hne. unfold listProductsAt.
  destruct (validate q); [contradiction | reflexivity].
Qed.

Lemma listProducts_invalid store q :
  validate q <> [] -> listProducts store q = ListInvalid (validate q).
Proof. apply listProductsAt_invalid. Qed.

Lemma listProductsAt_ok found counted q data pg fl :
  listProductsAt found counted q = ListOk data pg fl ->
  validate q = []
  /\ exists skip lim,
       skipOf q = Some skip /\ limitOf q = Some lim
       /\ data = Query.find found (buildQuery q) (buildSort q) skip lim
       /\ pg = paginate q (Query.countDocuments counted (buildQuery q)).
Proof.
  unfold listProductsAt. intros Hl.
  destruct (validate q); [|discriminate]. split; [reflexivity|].
  destruct (skipOf q) as [skip|]; [|discriminate].
  destruct (limitOf q) as [lim|]; [|discriminate].
  injection Hl as <- <- _. exists skip, lim. auto.
Qed.

Lemma listProducts_ok store q data pg fl :
  listProducts store q = ListOk data pg fl ->
  validate q = []
  /\ exists skip lim,
       skipOf q = Some skip /\ limitOf q = Some lim
       /\ data = Query.find store (buildQuery q) (buildSort q) skip lim
       /\ pg = paginate q (Query.countDocuments store (buildQuery q)).
Proof. apply listProductsAt_ok. Qed.

Lemma listProducts_valid store q :
  validate q = [] -> exists data pg fl, listProducts store q = ListOk data pg fl.
Proof.
  intros Hv.
  destruct (pageOf_valid q Hv) as (n & Hn & _).
  destruct (limitOf_valid q Hv) as (l & Hl & _).
  unfold listProducts, listProductsAt, skipOf. rewrite Hv, Hn, Hl. cbn. eauto.
Qed.

End ListingValidation.

(** ** Sorting and pagination of a listing *)
Section ListingProperties.
Import Validator Query Listing.
Context `{FloatSyntax} `{TextIndex}.

Lemma In_insertBy cmp x y l : In y (insertBy cmp x l) <-> y = x \/ In y l.
Proof.
  induction l as [|z t IH]; cbn.
  - intuition.
  - destruct (cmp x z); cbn; rewrite ?IH; intuition.
Qed.

Lemma In_sortBy cmp y l : In y (sortBy cmp l) <-> In y l.
Proof.
  induction l as [|x t IH]; cbn; [reflexivity|].
  rewrite In_insertBy, IH. intuition.
Qed.

Lemma In_take {A : Type} n (x : A) l : In x (firstn n l) -> In x l.
Proof.
  revert l. induction n as [|n IH]; intros [|y t]; cbn; try tauto.
  intros [->|Hin]; [left; reflexivity | right; apply IH, Hin].
Qed.

Lemma In_drop {A : Type} n (x : A) l : In x (skipn n l) -> In x l.
Proof.
  revert l. induction n as [|n IH]; intros [|y t]; cbn; try tauto.
  intros Hin. right. apply IH, Hin.
Qed.

Lemma In_find store f so skip lim p :
  In p (find store f so skip lim) -> In p store /\ matches f p = true.
Proof.
  unfold find. intros Hin.
  apply In_take in Hin. apply In_drop in Hin.
  apply In_sortBy in Hin. apply filter_In in Hin. exact Hin.
Qed.

Lemma find_nothing store f so skip lim :
  countDocuments store f = 0 -> find store f so skip lim = [].
Proof.
  unfold countDocuments, find. intros Hc.
  destruct (filter (matches f) store); [|discriminate].
  cbn. rewrite skipn_nil. apply firstn_nil.
Qed.

Lemma compareKey_antisym search k a b :
  compareKey search k a b = CompOpp (compareKey search k b a).
Proof.
  unfold compareKey. destruct (snd k) as [d|].
  - destruct (0 <? d); symmetry; apply Qcompare_antisym.
  - destruct search; [symmetry; apply Qcompare_antisym | reflexivity].
Qed.

Lemma compareBy_antisym search so a b :
  compareBy search so a b = CompOpp (compareBy search so b a).
Proof.
  induction so as [|k rest IH]; cbn; [reflexivity|].
  rewrite (compareKey_antisym search k a b).
  destruct (compareKey search k b a); cbn; auto.
Qed.

Lemma insertBy_sorted cmp x l :
  (forall a b, cmp a b = CompOpp (cmp b a)) ->
  Sorted (notAfter cmp) l -> Sorted (notAfter cmp) (insertBy cmp x l).
Proof.
  intros Hanti. induction l as [|y t IH]; intros Hs; cbn.
  - repeat constructor.
  - apply Sorted_inv in Hs as [Hst Hhd].
    destruct (cmp x y) eqn:Ec.
    + constructor; [constructor; assumption|].
      constructor. unfold notAfter. congruence.
    + constructor; [constructor; assumption|].
      constructor. unfold notAfter. congruence.
    + constructor; [apply IH, Hst|].
      destruct t as [|z t']; cbn.
      * constructor. unfold notAfter. rewrite Hanti, Ec. discriminate.
      * destruct (cmp x z); constructor;
          try (unfold notAfter; rewrite Hanti, Ec; discriminate).
        apply HdRel_inv in Hhd. exact Hhd.
Qed.

Lemma sortBy_sorted cmp l :
  (forall a b, cmp a b = CompOpp (cmp b a)) -> Sorted (notAfter cmp) (sortBy cmp l).
Proof.
  intros Hanti. induction l as [|x t IH]; cbn; [constructor|].
  apply insertBy_sorted; assumption.
Qed.

Lemma Sorted_drop {A : Type} (R : A -> A -> Prop) n l :
  Sorted R l -> Sorted R (skipn n l).
Proof.
  revert l. induction n as [|n IH]; intros [|x t] Hs; cbn; auto.
  apply IH. apply Sorted_inv in Hs as [Hs _]. exact Hs.
Qed.

Lemma Sorted_take {A : Type} (R : A -> A -> Prop) n l :
  Sorted R l -> Sorted R (firstn n l).
Proof.
  revert l. induction n as [|n IH]; intros [|x t] Hs; cbn; try constructor.
  - apply IH. apply Sorted_inv in Hs as [Hs _]. exact Hs.
  - apply Sorted_inv in Hs as [_ Hhd].
    destruct t as [|y t'], n as [|n']; cbn; constructor.
    apply HdRel_inv in Hhd. exact Hhd.
Qed.

Lemma find_sorted store f so skip lim :
  Sorted (notAfter (compareBy (f_text f) so)) (find store f so skip lim).
Proof.
  unfold find. apply Sorted_take, Sorted_drop, sortBy_sorted.
  intros a b. apply compareBy_antisym.
Qed.

Lemma buildQuery_text q s :
  q_search q = Some s -> JS.truthy (q_search q) = true ->
  f_text (buildQuery q) = Some s.
Proof.
  intros Hs Ht. unfold buildQuery. rewrite Ht, Hs. reflexivity.
Qed.

(** C3 (as amended): a sort parameter outside the known keys is rejected by
    the validation chain: the listing answers with the validation errors,
    the one on [sort] among them, and no query runs.  The default branch
    of the sort switch, which resolves such a key to [createdAt]
    descending, is therefore not reached by a validated string; newest
    first is what a request without [sort] gets. *)
Theorem C3_unknown_sort_is_rejected store q s :
  q_sort q = Some s -> isIn sortKeys s = false ->
  listProducts store q = ListInvalid (validate q)
  /\ In {| param := "sort"; msg := "Invalid value" |} (validate q)
  /\ resolveSort s = [("createdAt", Dir (-1))]
  /\ (forall q', q_sort q' = None ->
                 resolveSort (sortOf q') = [("createdAt", Dir (-1))]).
Proof.
  intros Hs Hk.
  pose proof (sort_error_reported q s Hs Hk) as Hin.
  split; [|split; [|split]].
  - apply listProducts_invalid. intros Hnil. rewrite Hnil in Hin. exact Hin.
  - exact Hin.
  - apply resolveSort_unknown, Hk.
  - intros q' Hq'. unfold sortOf. rewrite Hq'. reflexivity.
Qed.

(** C4 (as amended): when the count of the matching products is 0,
    [totalPages] is 0 and [hasNextPage] is false, while [hasPrevPage] is
    [currentPage > 1]: false on page 1 only.  [currentPage] is the
    requested page, read as an integer (for a page up to
    [Number.MAX_SAFE_INTEGER], the integer it spells), and 1 without a
    [page] parameter.  The page and the count are read separately, so
    nothing is said of the page returned. *)
Theorem C4_pagination_of_empty_result found counted q data pg fl :
  listProductsAt found counted q = ListOk data pg fl ->
  totalProducts pg = 0 ->
  totalPages pg = Some 0
  /\ hasNextPage pg = false
  /\ (exists n, currentPage pg = Some n /\ 1 <= n /\ hasPrevPage pg = (1 <? n))
  /\ (forall n, pageOf q = Some n -> n <= JS.MAX_SAFE_INTEGER -> currentPage pg = Some n)
  /\ (q_page q = None -> hasPrevPage pg = false).
Proof.
  intros Hl Ht.
  apply listProductsAt_ok in Hl as (Hv & skip & lim & _ & Hlim & _ & ->).
  cbn in Ht.
  destruct (pageOf_valid q Hv) as (n & Hn & Hn1).
  destruct (limitOf_valid q Hv) as (l & Hl & Hl1).
  unfold paginate, JS.ceilDiv, JS.lt.
  cbn [totalPages hasNextPage hasPrevPage currentPage].
  rewrite Ht, Hl, Hn.
  destruct (l =? 0) eqn:El; [lia|].
  change (- 0) with 0. rewrite Z.div_0_l by lia.
  repeat split.
  - apply Z.ltb_ge. lia.
  - exists n. auto.
  - intros m Hm _. exact Hm.
  - intros Hnone. unfold pageOf in Hn. rewrite Hnone in Hn.
    injection Hn as <-. reflexivity.
Qed.

Lemma Sorted_weaken {A : Type} (R R' : A -> A -> Prop) l :
  (forall a b, R a b -> R' a b) -> Sorted R l -> Sorted R' l.
Proof.
  intros HR. induction 1 as [|a l Hs IH Hhd]; constructor; [exact IH|].
  destruct Hhd; constructor. apply HR. assumption.
Qed.

(** Under a sort document that starts with the text score, a product stands
    before another only if its score is not lower. *)
Lemma score_first_notAfter s rest a b :
  notAfter (compareBy (Some s) (("score", MetaTextScore) :: rest)) a b ->
  (textScore s b <= textScore s a)%Q.
Proof.
  unfold notAfter. cbn [compareBy]. unfold compareKey. cbn [snd].
  destruct (Qcompare_spec (textScore s b) (textScore s a)) as [Heq|Hlt|Hgt].
  - intros _. rewrite Heq. apply Qle_refl.
  - intros _. apply Qlt_le_weak, Hlt.
  - intros Hne. contradiction.
Qed.

(** It stands there with a higher score, or with the same score and in the
    order of the remaining keys. *)
Lemma score_then_rest s rest a b :
  notAfter (compareBy (Some s) (("score", MetaTextScore) :: rest)) a b ->
  (textScore s b < textScore s a)%Q
  \/ ((textScore s a == textScore s b)%Q /\ notAfter (compareBy (Some s) rest) a b).
Proof.
  unfold notAfter. cbn [compareBy]. unfold compareKey at 1. cbn [snd].
  destruct (Qcompare_spec (textScore s b) (textScore s a)) as [Heq|Hlt|Hgt].
  - intros Hrest. right. split; [symmetry; exact Heq | exact Hrest].
  - intros _. left. exact Hlt.
  - intros Hne. contradiction.
Qed.

(** With an ascending first key, a product stands before another only if
    its value is not greater; with a descending one, only if it is not
    smaller. *)
Lemma first_key_ascending search path d rest a b :
  0 < d ->
  notAfter (compareBy search ((path, Dir d) :: rest)) a b ->
  (fieldValue path a <= fieldValue path b)%Q.
Proof.
  intros Hd. unfold notAfter. cbn [compareBy]. unfold compareKey. cbn [fst snd].
  apply Z.ltb_lt in Hd. rewrite Hd.
  destruct (Qcompare_spec (fieldValue path a) (fieldValue path b)) as [Heq|Hlt|Hgt].
  - intros _. rewrite Heq. apply Qle_refl.
  - intros _. apply Qlt_le_weak, Hlt.
  - intros Hne. contradiction.
Qed.

Lemma first_key_descending search path d rest a b :
  d <= 0 ->
  notAfter (compareBy search ((path, Dir d) :: rest)) a b ->
  (fieldValue path b <= fieldValue path a)%Q.
Proof.
  intros Hd. unfold notAfter. cbn [compareBy]. unfold compareKey. cbn [fst snd].
  apply Z.ltb_ge in Hd. rewrite Hd.
  destruct (Qcompare_spec (fieldValue path b) (fieldValue path a)) as [Heq|Hlt|Hgt].
  - intros _. rewrite Heq. apply Qle_refl.
  - intros _. apply Qlt_le_weak, Hlt.
  - intros Hne. contradiction.
Qed.

(** A descending first key followed by further keys: the value is higher,
    or it is the same and the further keys decide. *)
Lemma descending_then_rest search path d rest a b :
  d <= 0 ->
  notAfter (compareBy search ((path, Dir d) :: rest)) a b ->
  (fieldValue path b < fieldValue path a)%Q
  \/ ((fieldValue path a == fieldValue path b)%Q /\ notAfter (compareBy search rest) a b).
Proof.
  intros Hd. unfold notAfter. cbn [compareBy]. unfold compareKey at 1. cbn [fst snd].
  apply Z.ltb_ge in Hd. rewrite Hd.
  destruct (Qcompare_spec (fieldValue path b) (fieldValue path a)) as [Heq|Hlt|Hgt].
  - intros Hrest. right. split; [symmetry; exact Heq | exact Hrest].
  - intros _. left. exact Hlt.
  - intros Hne. contradiction.
Qed.

(** C9: in every listing that is answered for a request with a search term,
    the sort document is the text score followed by the criteria resolved
    from [sort]; the page is cut from the matching products sorted by it,
    so it runs by decreasing score, and the resolved criteria decide only
    between products of equal score: of two neighbours of the page, the
    first has the higher score, or the same score and then the later
    creation time (no [sort], "newest"), the earlier one ("oldest"), the
    lower price ("price-low"), the higher price ("price-high"), more
    sales and among equal sales more views ("popular"), the higher
    average rating and among equal averages more ratings ("rating"). *)
Theorem C9_relevance_is_primary_sort_key found counted q s data pg fl :
  q_search q = Some s ->
  listProductsAt found counted q = ListOk data pg fl ->
  buildSort q = ("score", MetaTextScore) :: resolveSort (sortOf q)
  /\ (forall a b,
        compareBy (Some s) (buildSort q) a b =
        match (textScore s b ?= textScore s a)%Q with
        | Eq => compareBy (Some s) (resolveSort (sortOf q)) a b
        | c => c
        end)
  /\ (exists skip lim,
        data = firstn lim
                 (skipn skip
                    (sortBy (compareBy (Some s) (buildSort q))
                       (filter (matches (buildQuery q)) found))))
  /\ Sorted (notAfter (compareBy (Some s) (buildSort q))) data
  /\ Sorted (fun a b => (textScore s b <= textScore s a)%Q) data
  /\ (q_sort q = None \/ q_sort q = Some "newest" ->
      Sorted (fun a b =>
                (textScore s b < textScore s a)%Q
                \/ ((textScore s a == textScore s b)%Q
                    /\ createdAt b <= createdAt a)) data)
  /\ (q_sort q = Some "oldest" ->
      Sorted (fun a b =>
                (textScore s b < textScore s a)%Q
                \/ ((textScore s a == textScore s b)%Q
                    /\ createdAt a <= createdAt b)) data)
  /\ (q_sort q = Some "price-low" ->
      Sorted (fun a b =>
                (textScore s b < textScore s a)%Q
                \/ ((textScore s a == textScore s b)%Q
                    /\ (price a <= price b)%Q)) data)
  /\ (q_sort q = Some "price-high" ->
      Sorted (fun a b =>
                (textScore s b < textScore s a)%Q
                \/ ((textScore s a == textScore s b)%Q
                    /\ (price b <= price a)%Q)) data)
  /\ (q_sort q = Some "popular" ->
      Sorted (fun a b =>
                (textScore s b < textScore s a)%Q
                \/ ((textScore s a == textScore s b)%Q
                    /\ ((sales (stats b) < sales (stats a))%Q
                        \/ ((sales (stats a) == sales (stats b))%Q
                            /\ (views (stats b) <= views (stats a))%Q)))) data)
  /\ (q_sort q = Some "rating" ->
      Sorted (fun a b =>
                (textScore s b < textScore s a)%Q
                \/ ((textScore s a == textScore s b)%Q
                    /\ ((average (rating (stats b)) < average (rating (stats a)))%Q
                        \/ ((average (rating (stats a)) == average (rating (stats b)))%Q
                            /\ (count (rating (stats b))
                                 <= count (rating (stats a)))%Q)))) data).
Proof.
  intros Hs Hl.
  apply listProductsAt_ok in Hl as (Hv & skip & lim & _ & _ & -> & _).
  pose proof (search_valid q s Hv Hs) as Ht.
  pose proof (buildQuery_text q s Hs Ht) as Htext.
  assert (Hb : buildSort q = ("score", MetaTextScore) :: resolveSort (sortOf q)).
  { unfold buildSort. rewrite Ht. reflexivity. }
  assert (Hsorted : Sorted (notAfter (compareBy (Some s) (buildSort q)))
                      (find found (buildQuery q) (buildSort q) skip lim)).
  { rewrite <- Htext. apply find_sorted. }
  assert (Hkey : forall so, resolveSort (sortOf q) = so ->
            Sorted (fun a b =>
                      (textScore s b < textScore s a)%Q
                      \/ ((textScore s a == textScore s b)%Q
                          /\ notAfter (compareBy (Some s) so) a b))
              (find found (buildQuery q) (buildSort q) skip lim)).
  { intros so <-. rewrite Hb in Hsorted |- *. revert Hsorted. apply Sorted_weaken.
    intros a b. apply score_then_rest. }
  split; [exact Hb|]. split; [|split; [|split; [|split]]].
  - intros a b. rewrite Hb. reflexivity.
  - exists (Z.to_nat skip), (Z.to_nat lim). unfold find. rewrite Htext. reflexivity.
  - exact Hsorted.
  - rewrite Hb in Hsorted |- *. revert Hsorted. apply Sorted_weaken.
    intros a b. apply score_first_notAfter.
  - repeat split; intros Hk.
    + assert (Hr : resolveSort (sortOf q) = [("createdAt", Dir (-1))])
        by (unfold sortOf; destruct Hk as [-> | ->]; reflexivity).
      generalize (Hkey _ Hr). apply Sorted_weaken.
      intros a b [Hlt|[Heq Hab]]; [left; exact Hlt | right; split; [exact Heq|]].
      apply first_key_descending in Hab; [|lia].
      cbn in Hab. rewrite <- Zle_Qle in Hab. exact Hab.
    + assert (Hr : resolveSort (sortOf q) = [("createdAt", Dir 1)])
        by (unfold sortOf; rewrite Hk; reflexivity).
      generalize (Hkey _ Hr). apply Sorted_weaken.
      intros a b [Hlt|[Heq Hab]]; [left; exact Hlt | right; split; [exact Heq|]].
      apply first_key_ascending in Hab; [|lia].
      cbn in Hab. rewrite <- Zle_Qle in Hab. exact Hab.
    + assert (Hr : resolveSort (sortOf q) = [("price", Dir 1)])
        by (unfold sortOf; rewrite Hk; reflexivity).
      generalize (Hkey _ Hr). apply Sorted_weaken.
      intros a b [Hlt|[Heq Hab]]; [left; exact Hlt | right; split; [exact Heq|]].
      apply first_key_ascending in Hab; [exact Hab | lia].
    + assert (Hr : resolveSort (sortOf q) = [("price", Dir (-1))])
        by (unfold sortOf; rewrite Hk; reflexivity).
      generalize (Hkey _ Hr). apply Sorted_weaken.
      intros a b [Hlt|[Heq Hab]]; [left; exact Hlt | right; split; [exact Heq|]].
      apply first_key_descending in Hab; [exact Hab | lia].
    + assert (Hr : resolveSort (sortOf q)
                   = [("stats.sales", Dir (-1)); ("stats.views", Dir (-1))])
        by (unfold sortOf; rewrite Hk; reflexivity).
      generalize (Hkey _ Hr). apply Sorted_weaken.
      intros a b [Hlt|[Heq Hab]]; [left; exact Hlt | right; split; [exact Heq|]].
      apply descending_then_rest in Hab as [Hab|[Hsame Hab]]; [| |lia].
      * left. exact Hab.
      * right. split; [exact Hsame|].
        apply first_key_descending in Hab; [exact Hab | lia].
    + assert (Hr : resolveSort (sortOf q)
                   = [("stats.rating.average", Dir (-1)); ("stats.rating.count", Dir (-1))])
        by (unfold sortOf; rewrite Hk; reflexivity).
      generalize (Hkey _ Hr). apply Sorted_weaken.
      intros a b [Hlt|[Heq Hab]]; [left; exact Hlt | right; split; [exact Heq|]].
      apply descending_then_rest in Hab as [Hab|[Hsame Hab]]; [| |lia].
      * left. exact Hab.
      * right. split; [exact Hsame|].
        apply first_key_descending in Hab; [exact Hab | lia].
Qed.

End ListingProperties.

(** ** The listing on concrete requests *)
Section ListingExamples.
Import Validator Query Listing Sample Fixtures Catalog.

Lemma C3_unknown_sort_is_rejected_witness :
  (q_sort (sortedBy "cheapest") = Some "cheapest"
   /\ isIn sortKeys "cheapest" = false)
  /\ listProducts twoProducts (sortedBy "cheapest")
     = ListInvalid (validate (sortedBy "cheapest"))
  /\ In {| param := "sort"; msg := "Invalid value" |} (validate (sortedBy "cheapest"))
  /\ resolveSort "cheapest" = [("createdAt", Dir (-1))]
  /\ (forall q', q_sort q' = None ->
                 resolveSort (sortOf q') = [("createdAt", Dir (-1))]).
Proof.
  split; [split; reflexivity|].
  apply (C3_unknown_sort_is_rejected twoProducts (sortedBy "cheapest") "cheapest");
    reflexivity.
Defined.

(** C3, as stated, fails: the sort key "cheapest" is outside the known set
    and the listing answers with a validation error instead of the newest
    products. *)
Lemma C3_unknown_sort_counterexample :
  isIn sortKeys "cheapest" = false
  /\ listProducts twoProducts (sortedBy "cheapest")
     = ListInvalid [{| param := "sort"; msg := "Invalid value" |}].
Proof. split; reflexivity. Qed.

Lemma C4_pagination_of_empty_result_witness :
  (listProductsAt kits [] (request (Some "2") (Some "1") None None)
   = ListOk [proKit] (window 2 0 0 false true 1) (echo "newest" None)
   /\ totalProducts (window 2 0 0 false true 1) = 0)
  /\ totalPages (window 2 0 0 false true 1) = Some 0
  /\ hasNextPage (window 2 0 0 false true 1) = false
  /\ (exists n, currentPage (window 2 0 0 false true 1) = Some n /\ 1 <= n
                /\ hasPrevPage (window 2 0 0 false true 1) = (1 <? n))
  /\ (forall n, pageOf (request (Some "2") (Some "1") None None) = Some n ->
                n <= JS.MAX_SAFE_INTEGER ->
                currentPage (window 2 0 0 false true 1) = Some n)
  /\ (q_page (request (Some "2") (Some "1") None None) = None ->
      hasPrevPage (window 2 0 0 false true 1) = false).
Proof.
  split; [split; reflexivity|].
  apply (C4_pagination_of_empty_result kits [] (request (Some "2") (Some "1") None None)
           [proKit] (window 2 0 0 false true 1) (echo "newest" None));
    reflexivity.
Defined.

(** C4, as stated, fails: page 2 of an empty catalog has a previous page. *)
Lemma C4_empty_total_counterexample :
  listProducts [] (onPage "2") = ListOk [] emptyPageTwo noFilters
  /\ totalProducts emptyPageTwo = 0
  /\ hasPrevPage emptyPageTwo = true.
Proof. repeat split. Qed.

Lemma C9_relevance_is_primary_sort_key_witness :
  (q_search (request None None (Some "price-low") (Some "Kit")) = Some "Kit"
   /\ listProductsAt kits kits (request None None (Some "price-low") (Some "Kit"))
      = ListOk [proKit; miniKit; starterKit; lamp] (window 1 1 4 false false 12)
          (echo "price-low" (Some "Kit")))
  /\ buildSort (request None None (Some "price-low") (Some "Kit"))
     = [("score", MetaTextScore); ("price", Dir 1)]
  /\ Sorted (fun a b =>
               (textScore "Kit" b < textScore "Kit" a)%Q
               \/ ((textScore "Kit" a == textScore "Kit" b)%Q /\ (price a <= price b)%Q))
       [proKit; miniKit; starterKit; lamp].
Proof.
  split; [split; reflexivity|].
  pose proof (C9_relevance_is_primary_sort_key kits kits
                (request None None (Some "price-low") (Some "Kit")) "Kit"
                [proKit; miniKit; starterKit; lamp] (window 1 1 4 false false 12)
                (echo "price-low" (Some "Kit")) eq_refl eq_refl)
    as (Hsort & _ & _ & _ & _ & _ & _ & Hlow & _).
  split; [exact Hsort | exact (Hlow eq_refl)].
Defined.

End ListingExamples.

(** ** Saving a document *)
Section Saving.
Import Query Model.

Ltac by_path :=
  repeat match goal with
    | |- context [if (?k =? ?lit)%string then _ else _] =>
        destruct (String.eqb_spec k lit); [subst; try reflexivity; try contradiction|]
    end;
  try reflexivity.

Lemma copyPath_id path src dst : _id (copyPath path src dst) = _id dst.
Proof. unfold copyPath. by_path. Qed.

Lemma copyPath_isActive path src dst :
  path <> "isActive" -> isActive (copyPath path src dst) = isActive dst.
Proof. intros Hp. unfold copyPath. by_path. Qed.

Lemma copyPath_slug path src dst :
  path <> "slug" -> slug (copyPath path src dst) = slug dst.
Proof. intros Hp. unfold copyPath. by_path. Qed.

Lemma copyPath_createdBy path src dst :
  path <> "createdBy" -> createdBy (copyPath path src dst) = createdBy dst.
Proof. intros Hp. unfold copyPath. by_path. Qed.

Lemma copyPath_stats path src dst :
  ~ In path statsPaths -> stats (copyPath path src dst) = stats dst.
Proof.
  intros Hp. unfold copyPath.
  by_path; exfalso; apply Hp; cbn; tauto.
Qed.

Lemma applyPaths_id paths src dst : _id (applyPaths paths src dst) = _id dst.
Proof.
  induction paths as [|path t IH]; cbn; [reflexivity|].
  rewrite copyPath_id. exact IH.
Qed.

Lemma applyPaths_isActive paths src dst :
  ~ In "isActive" paths -> isActive (applyPaths paths src dst) = isActive dst.
Proof.
  induction paths as [|path t IH]; cbn; [reflexivity|]. intros Hn.
  rewrite copyPath_isActive by (intros ->; tauto). apply IH. tauto.
Qed.

Lemma applyPaths_isActive_from paths src dst :
  isActive (applyPaths paths src dst) = isActive dst
  \/ isActive (applyPaths paths src dst) = isActive src.
Proof.
  induction paths as [|path t IH]; cbn; [left; reflexivity|].
  destruct (String.eqb_spec path "isActive") as [->|Hne].
  - right. reflexivity.
  - rewrite copyPath_isActive by exact Hne. exact IH.
Qed.

Lemma applyPaths_slug paths src dst :
  ~ In "slug" paths -> slug (applyPaths paths src dst) = slug dst.
Proof.
  induction paths as [|path t IH]; cbn; [reflexivity|]. intros Hn.
  rewrite copyPath_slug by (intros ->; tauto). apply IH. tauto.
Qed.

Lemma applyPaths_createdBy paths src dst :
  ~ In "createdBy" paths -> createdBy (applyPaths paths src dst) = createdBy dst.
Proof.
  induction paths as [|path t IH]; cbn; [reflexivity|]. intros Hn.
  rewrite copyPath_createdBy by (intros ->; tauto). apply IH. tauto.
Qed.

Lemma applyPaths_stats paths src dst :
  (forall path, In path paths -> ~ In path statsPaths) ->
  stats (applyPaths paths src dst) = stats dst.
Proof.
  induction paths as [|path t IH]; cbn; [reflexivity|]. intros Hn.
  rewrite copyPath_stats by (apply Hn; left; reflexivity).
  apply IH. intros q Hq. apply Hn. right. exact Hq.
Qed.

Lemma hooks_frame `{Slugify} d :
  let dh := primaryImageHook (slugHook d) in
  _id (val dh) = _id (val d)
  /\ isActive (val dh) = isActive (val d)
  /\ stats (val dh) = stats (val d)
  /\ createdBy (val dh) = createdBy (val d)
  /\ isNew dh = isNew d
  /\ (isModified "name" d = false -> slug (val dh) = slug (val d))
  /\ (forall path, In path (modified dh) ->
        In path (modified d) \/ path = "images"
        \/ (path = "slug" /\ isModified "name" d = true)).
Proof.
  unfold primaryImageHook, slugHook.
  destruct (isModified "name" d) eqn:En;
    repeat match goal with
      | |- context [if ?b then _ else _] => destruct b
      end;
    cbn; repeat split; try reflexivity; try discriminate;
    intros path Hin; cbn in Hin; intuition auto.
Qed.

(** What a save does to the collection: nothing, one insert at the end
    under a fresh identifier, or one update of the modified paths of the
    documents with the identifier of the saved one. *)
Lemma save_cases `{Slugify} store d0 :
  let dh := primaryImageHook (slugHook d0) in
  let result := save store d0 in
  fst (fst result) = store
  \/ (isNew d0 = true
      /\ fst (fst result) = (store ++ [val dh])%list
      /\ existsb (fun q => (_id q =? _id (val dh))%string) store = false)
  \/ (isNew d0 = false
      /\ snd result = None
      /\ fst (fst result) = updatedStore store dh).
Proof.
  intros dh result. subst result. unfold save. fold dh.
  destruct (hooks_frame d0) as (_ & _ & _ & _ & HisNew & _). fold dh in HisNew.
  destruct (negb (validates d0)); [left; reflexivity|].
  rewrite HisNew. destruct (isNew d0).
  - destruct (existsb _ store) eqn:Ex; [left; reflexivity|].
    right; left. cbn. repeat split.
    apply not_true_is_false. intros Hex.
    apply existsb_exists in Hex as (q & Hq & Hid).
    assert (Hc : existsb (fun q => (_id q =? _id (val dh))%string
                                   || (slug q =? slug (val dh))%string) store = true).
    { apply existsb_exists. exists q. rewrite Hid. auto. }
    congruence.
  - destruct (modified dh) eqn:Em; [left; reflexivity|].
    destruct (_ && _); [left; reflexivity|].
    destruct (negb _); [left; reflexivity|].
    right; right. cbn. auto.
Qed.

Import Concurrent.

(** Raising a counter does not change what the validators look at. *)
Lemma valid_bumped c p : valid (bumped c p) = valid p.
Proof. destruct c; reflexivity. Qed.

Lemma increment_loaded `{Slugify} c store p :
  increment c store (load p) =
  let d := {| val := bumped c p; isNew := false; modified := [path c];
              castFailed := false |} in
  if valid p then
    if existsb (fun q => (_id q =? _id p)%string) store
    then (updatedStore store d, persisted d, None)
    else (store, d, Some DocumentNotFound)
  else (store, d, Some ValidationFailed).
Proof.
  rewrite <- (valid_bumped c p).
  destruct c;
    unfold increment, incrementViews, incrementDownloads, incrementSales, save,
      validates;
    cbn [val castFailed assignPath load negb andb bumped];
    (destruct (valid _); [|reflexivity]);
    cbn; destruct (existsb _ store); reflexivity.
Qed.

Lemma find_map_id (k : string) (upd : Product -> Product) store :
  (forall q, _id (upd q) = _id q) ->
  List.find (fun q => (_id q =? k)%string) (map upd store)
  = option_map upd (List.find (fun q => (_id q =? k)%string) store).
Proof.
  intros Hid. induction store as [|q t IH]; cbn; [reflexivity|].
  rewrite Hid. destruct (_id q =? k)%string; [reflexivity | exact IH].
Qed.

Lemma find_some_app {A : Type} (f : A -> bool) l l' x :
  List.find f l = Some x -> List.find f (l ++ l') = Some x.
Proof.
  induction l as [|y t IH]; cbn; [discriminate|].
  destruct (f y); [auto | exact IH].
Qed.

Lemma find_distinct (key : Product -> string) store p :
  distinct (map key store) = true -> In p store ->
  List.find (fun q => (key q =? key p)%string) store = Some p.
Proof.
  induction store as [|q t IH]; cbn; [contradiction|].
  intros Hd Hin. apply andb_prop in Hd as [Hq Ht].
  destruct Hin as [->|Hin]; [rewrite String.eqb_refl; reflexivity|].
  destruct (String.eqb_spec (key q) (key p)) as [Heq|_]; [|auto].
  exfalso. apply negb_true_iff in Hq.
  assert (Hex : existsb (String.eqb (key q)) (map key t) = true).
  { apply existsb_exists. exists (key p). split.
    - apply in_map, Hin.
    - apply String.eqb_eq, Heq. }
  congruence.
Qed.

End Saving.

(** ** Visibility of products *)
Section Visibility.
Import Query Model Req Routes Listing Concurrent.
Context `{FloatSyntax} `{TextIndex} `{Slugify}.

Lemma buildQuery_isActive q : f_isActive (buildQuery q) = Some true.
Proof.
  unfold buildQuery, withCategory, withPrice, withFeatured, withText.
  repeat match goal with
    | |- context [match ?x with _ => _ end] => destruct x
    end; reflexivity.
Qed.

Lemma matches_isActive f p :
  f_isActive f = Some true -> matches f p = true -> isActive p = true.
Proof.
  unfold matches. intros Hf Hm. rewrite Hf in Hm.
  destruct (isActive p); [reflexivity | discriminate Hm].
Qed.

Lemma getProduct_missing store identifier :
  (forall p, lookup store identifier = Some p -> isActive p = false) ->
  getProduct store identifier = (store, notFound).
Proof.
  unfold getProduct. fold (lookup store identifier). intros Hl.
  destruct (lookup store identifier) as [p|]; [|reflexivity].
  rewrite (Hl p eq_refl). reflexivity.
Qed.

Lemma getProduct_data store identifier r :
  data (snd (getProduct store identifier)) = Some r ->
  exists p, lookup store identifier = Some p /\ isActive p = true
            /\ r = bumped Views p.
Proof.
  unfold getProduct. fold (lookup store identifier).
  destruct (lookup store identifier) as [p|]; [|discriminate].
  destruct (isActive p) eqn:Ea; [|discriminate].
  change (incrementViews store (load p)) with (increment Views store (load p)).
  rewrite increment_loaded. cbv zeta.
  destruct (valid p); [destruct (existsb _ store)|]; cbn; intros [= <-]; eauto.
Qed.

Lemma wellFormed_inv store p :
  wellFormed store = true -> In p store ->
  distinct (map _id store) = true /\ distinct (map slug store) = true
  /\ JS.isObjectIdString (_id p) = true /\ JS.toLowerCase (_id p) = _id p.
Proof.
  unfold wellFormed. intros Hw Hin.
  apply andb_prop in Hw as [Hw Hall]. apply andb_prop in Hw as [Hi Hs].
  rewrite forallb_forall in Hall. specialize (Hall p Hin).
  apply andb_prop in Hall as [Ho Hl]. apply String.eqb_eq in Hl. auto.
Qed.

(** C5 (as amended): every filter the listing builds requires
    [isActive = true], so a soft-deleted product is in no page of results;
    GET on its identifier answers 404 and leaves the store as it is, and
    so does GET on its slug, unless the slug has the shape of an
    identifier and is the identifier of an active product.  No GET ever
    returns the soft-deleted product. *)
Theorem C5_inactive_products_are_hidden store p :
  wellFormed store = true -> In p store -> isActive p = false ->
  (forall q, f_isActive (buildQuery q) = Some true)
  /\ (forall q data pg fl, listProducts store q = ListOk data pg fl -> ~ In p data)
  /\ getProduct store (_id p) = (store, notFound)
  /\ (JS.isObjectIdString (slug p) = false
      \/ (forall r, findById store (slug p) = Some r -> isActive r = false) ->
      getProduct store (slug p) = (store, notFound))
  /\ (forall identifier r,
        data (snd (getProduct store identifier)) = Some r ->
        isActive r = true /\ _id r <> _id p).
Proof.
  intros Hw Hin Hoff.
  destruct (wellFormed_inv store p Hw Hin) as (Hids & Hslugs & Hobj & Hlow).
  split; [exact buildQuery_isActive|]. split; [|split; [|split]].
  - intros q data pg fl Hl Hd.
    apply listProducts_ok in Hl as (_ & skip & lim & _ & _ & -> & _).
    apply In_find in Hd as [_ Hm].
    apply matches_isActive in Hm; [congruence | apply buildQuery_isActive].
  - apply getProduct_missing. unfold lookup, findById.
    rewrite Hobj, Hlow, (find_distinct _id store p Hids Hin).
    intros ? [= <-]. exact Hoff.
  - intros Hcase. apply getProduct_missing. unfold lookup.
    destruct (JS.isObjectIdString (slug p)) eqn:Es.
    + destruct Hcase as [?|Hr]; [discriminate | exact Hr].
    + unfold findOneBySlug. rewrite (find_distinct slug store p Hslugs Hin).
      intros ? [= <-]. exact Hoff.
  - intros identifier r Hr.
    apply getProduct_data in Hr as (p0 & Hl & Ha & ->).
    split; [destruct p0; exact Ha|].
    assert (Hin0 : In p0 store).
    { unfold lookup, findById, findOneBySlug in Hl.
      destruct (JS.isObjectIdString identifier);
        apply find_some in Hl as [Hin0 _]; exact Hin0. }
    intros Heq.
    assert (Hp : Some p0 = Some p).
    { rewrite <- (find_distinct _id store p0 Hids Hin0).
      replace (_id p0) with (_id p) by (destruct p0; exact (eq_sym Heq)).
      apply find_distinct; assumption. }
    injection Hp as ->. congruence.
Qed.

(** C10 (as amended): an identifier of 24 hexadecimal digits is looked up
    as a store identifier only.  The answer is 404 when no active product
    has that identifier, whatever the slugs in the store, and the product
    found under the identifier when it is active; a product that is
    returned has that identifier, so a product with such a slug is reached
    through it only if the string is its own identifier. *)
Theorem C10_identifier_shaped_lookup store identifier :
  JS.isObjectIdString identifier = true ->
  ((forall q, In q store -> _id q = JS.toLowerCase identifier -> isActive q = false) ->
   getProduct store identifier = (store, notFound))
  /\ (forall p, findById store identifier = Some p -> isActive p = true ->
                snd (getProduct store identifier)
                = {| status := 200; success := true; message := ""; errors := None;
                     data := Some (bumped Views p) |})
  /\ (forall r, data (snd (getProduct store identifier)) = Some r ->
                _id r = JS.toLowerCase identifier
                /\ exists q, In q store /\ _id q = _id r /\ isActive q = true).
Proof.
  intros Ho. split; [|split].
  - intros Hnone. apply getProduct_missing. unfold lookup, findById. rewrite Ho.
    intros p Hp. apply find_some in Hp as [Hin Hid].
    apply String.eqb_eq in Hid. auto.
  - intros p Hf Ha. unfold getProduct. rewrite Ho, Hf, Ha.
    change (incrementViews store (load p)) with (increment Views store (load p)).
    rewrite increment_loaded. cbv zeta.
    destruct (valid p); [destruct (existsb _ store)|]; reflexivity.
  - intros r Hr.
    apply getProduct_data in Hr as (p & Hl & Ha & ->).
    unfold lookup, findById in Hl. rewrite Ho in Hl.
    apply find_some in Hl as [Hin Hid]. apply String.eqb_eq in Hid.
    assert (Hsame : _id (bumped Views p) = _id p) by reflexivity.
    rewrite Hsame. split; [exact Hid|]. exists p. auto.
Qed.

End Visibility.

(** ** Assignment of body fields *)
Section Assignment.
Import Query Model Req Routes.
Context `{Casts}.

Lemma Kept_refl named d : Kept named d d.
Proof. split; auto. Qed.

Lemma Kept_weaken (P Q : string -> Prop) d d' :
  (forall k, P k -> Q k) -> Kept P d d' -> Kept Q d d'.
Proof.
  intros HPQ [? ? ? ? ? ? ? Hm]. split; auto.
  intros path Hin. destruct (Hm path Hin) as [?|[? ?]]; auto.
Qed.

Lemma Kept_trans (P : string -> Prop) d1 d2 d3 :
  Kept P d1 d2 -> Kept P d2 d3 -> Kept P d1 d3.
Proof.
  intros [Hn1 Hi1 Ha1 Hb1 Hc1 Hd1 He1 Hm1] [Hn2 Hi2 Ha2 Hb2 Hc2 Hd2 He2 Hm2].
  split; intros.
  - congruence.
  - rewrite Hi2, Hi1; congruence.
  - rewrite Ha2, Ha1; auto.
  - rewrite Hb2, Hb1; auto.
  - rewrite Hc2, Hc1; auto.
  - rewrite Hd2, Hd1; auto.
  - rewrite He2, He1; auto.
  - destruct (Hm2 path) as [Hin|?]; auto.
Qed.

Lemma assign_keeps key v d : Kept (eq key) d (assign key v d).
Proof.
  unfold assign, assignCast, assignIfChanged.
  repeat match goal with
    | |- context [if (key =? ?lit)%string then _ else _] =>
        destruct (String.eqb_spec key lit)
    end;
    try subst key;
    repeat match goal with
      | |- context [match ?c with Some _ => _ | None => _ end] => destruct c
      | |- context [if ?b then _ else _] => destruct b eqn:?
      end;
    (split; cbn; intros; try reflexivity; try congruence; try contradiction;
     try (left; assumption);
     try match goal with
       | Hin : _ \/ _ |- _ =>
           destruct Hin as [<-|Hin];
           [right; split; [reflexivity | cbn; tauto] | left; exact Hin]
       end).
Qed.

Lemma assignPath_keeps path f d :
  In path assignable ->
  (forall p, _id (f p) = _id p) ->
  (path <> "name" -> forall p, name (f p) = name p) ->
  (path <> "slug" -> forall p, slug (f p) = slug p) ->
  (path <> "stats" -> forall p, stats (f p) = stats p) ->
  (path <> "createdBy" -> forall p, createdBy (f p) = createdBy p) ->
  (path <> "isActive" -> forall p, isActive (f p) = isActive p) ->
  Kept (eq path) d (assignPath path f d).
Proof.
  intros Hp Hid Hn Hs Hst Hc Ha. split; cbn; auto.
  intros q [<-|Hin]; auto.
Qed.

Lemma assignAll_keeps body d :
  Kept (fun key => has key body = true) d (assignAll body d).
Proof.
  unfold assignAll. revert d.
  induction body as [|[k v] t IH]; intros d; cbn [fold_left fst snd].
  - apply Kept_refl.
  - apply Kept_trans with (d2 := assign k v d).
    + apply Kept_weaken with (P := eq k); [|apply assign_keeps].
      intros ? <-. unfold has. cbn. rewrite String.eqb_refl. reflexivity.
    + apply Kept_weaken with (P := fun key => has key t = true); [|apply IH].
      intros key Hk. unfold has in *. cbn. rewrite Hk. apply orb_true_r.
Qed.

Lemma has_sanitize key k f body : has key (sanitize k f body) = has key body.
Proof.
  unfold has, sanitize. induction body as [|[k' v] t IH]; cbn; [reflexivity|].
  rewrite IH. destruct (k' =? k)%string; reflexivity.
Qed.

Lemma has_trimmed key body :
  has key (trimmed "description" (trimmed "name" body)) = has key body.
Proof. unfold trimmed. rewrite !has_sanitize. reflexivity. Qed.

Lemma hooks_keep `{Slugify} d :
  Kept (fun key => key = "images" \/ (key = "slug" /\ isModified "name" d = true))
    d (primaryImageHook (slugHook d)).
Proof.
  unfold primaryImageHook, slugHook.
  destruct (isModified "name" d) eqn:En;
    repeat match goal with
      | |- context [if ?b then _ else _] => destruct b
      end;
    (split; cbn; intros; try reflexivity; try tauto;
     try (exfalso; intuition congruence)).
  all: cbn in *; intuition (subst; auto).
Qed.

End Assignment.

(** ** The write routes as changes of the store *)
Section Writes.
Import Query Model Req Routes Service.
Context `{FloatSyntax} `{Casts} `{Slugify}.

Lemma saveUpdated_cases store d :
  isNew d = false ->
  fst (saveUpdated store d) = store
  \/ fst (saveUpdated store d) = updatedStore store (primaryImageHook (slugHook d)).
Proof.
  intros Hn. unfold saveUpdated.
  pose proof (save_cases store d) as Hc. cbv zeta in Hc.
  destruct (save store d) as [[s' d'] [e|]]; cbn in *; [left; reflexivity|].
  destruct Hc as [->|[(Hnew & _)|(_ & _ & ->)]]; auto. congruence.
Qed.

Lemma updateProduct_cases store user id body :
  fst (updateProduct store user id body) = store
  \/ exists p dh,
       findById store id = Some p
       /\ Kept (touched body) (load p) dh
       /\ fst (updateProduct store user id body) = updatedStore store dh.
Proof.
  unfold updateProduct.
  destruct (admin user); [left; reflexivity|].
  destruct user as [u|]; [|left; reflexivity].
  destruct (validateBody true _); [|left; reflexivity].
  unfold findByParam. destruct (JS.isObjectIdString id); [|left; reflexivity].
  destruct (findById store id) as [p|]; [|left; reflexivity].
  set (body' := trimmed "description" (trimmed "name" body)).
  set (d1 := assignAll body' (load p)).
  set (d2 := assignPath "updatedBy" (setUpdatedBy (Some (uid u))) d1).
  assert (K1 : Kept (touched body) (load p) d1).
  { apply Kept_weaken with (P := fun key => has key body' = true);
      [|apply assignAll_keeps].
    intros k Hk. left. subst body'. rewrite has_trimmed in Hk. exact Hk. }
  assert (K2 : Kept (touched body) (load p) d2).
  { apply Kept_trans with (d2 := d1); [exact K1|].
    apply Kept_weaken with (P := eq "updatedBy").
    - intros k <-. right; left. reflexivity.
    - apply assignPath_keeps; cbn; auto 20. }
  assert (K3 : Kept (touched body) (load p) (primaryImageHook (slugHook d2))).
  { apply Kept_trans with (d2 := d2); [exact K2|].
    apply Kept_weaken
      with (P := fun key => key = "images" \/ (key = "slug" /\ isModified "name" d2 = true));
      [|apply hooks_keep].
    intros k [->|[-> Hm]]; [right; right; left; reflexivity|].
    right; right; right. split; [reflexivity|].
    unfold isModified in Hm. apply existsb_exists in Hm as (x & Hx & Heq).
    apply String.eqb_eq in Heq. subst x.
    destruct (kept_modified _ _ _ K2 _ Hx) as [[]|[Ht _]].
    destruct Ht as [?|[?|[?|[? _]]]]; [assumption | discriminate ..]. }
  destruct (saveUpdated_cases store d2) as [->| ->].
  - rewrite (kept_isNew _ _ _ K2). reflexivity.
  - left; reflexivity.
  - right. exists p, (primaryImageHook (slugHook d2)). auto.
Qed.

Lemma findById_updatedStore store id p dh :
  findById store id = Some p -> _id (val dh) = _id p ->
  findById (updatedStore store dh) id = Some (applyPaths (modified dh) (val dh) p).
Proof.
  unfold findById, updatedStore. intros Hf Hid.
  rewrite find_map_id.
  - rewrite Hf. cbn. rewrite Hid, String.eqb_refl. reflexivity.
  - intros q. destruct (_ =? _)%string; [apply applyPaths_id | reflexivity].
Qed.

(** C6 (as amended): an update assigns every key of the request body that
    is a path of the schema, the server-managed ones included.  What it
    keeps of the stored product is what the body does not name: the slug
    when neither [slug] nor [name] is a key, the statistics when [stats]
    is not a key, the creator when [createdBy] is not a key. *)
Theorem C6_unnamed_server_fields_are_kept store user id body p :
  findById store id = Some p ->
  exists p',
    findById (fst (updateProduct store user id body)) id = Some p'
    /\ _id p' = _id p
    /\ (has "slug" body = false -> has "name" body = false -> slug p' = slug p)
    /\ (has "stats" body = false -> stats p' = stats p)
    /\ (has "createdBy" body = false -> createdBy p' = createdBy p).
Proof.
  intros Hf.
  destruct (updateProduct_cases store user id body) as [->|(p0 & dh & Hf0 & K & ->)].
  - exists p. auto.
  - rewrite Hf in Hf0. injection Hf0 as <-.
    exists (applyPaths (modified dh) (val dh) p).
    split; [apply findById_updatedStore; [exact Hf | apply (kept_id _ _ _ K); reflexivity]|].
    split; [apply applyPaths_id|].
    assert (Hpaths : forall path, In path (modified dh) ->
                                  touched body path /\ In path assignable).
    { intros path Hin. destruct (kept_modified _ _ _ K _ Hin) as [[]|?]; assumption. }
    split; [|split].
    + intros Hs Hn. apply applyPaths_slug. intros Hin.
      destruct (Hpaths _ Hin) as [[?|[?|[?|[_ ?]]]] _]; congruence.
    + intros Hs. apply applyPaths_stats. intros path Hin Hst.
      destruct (Hpaths _ Hin) as [Ht Ha].
      cbn in Hst, Ha.
      destruct Hst as [<-|[<-|[<-|[<-|[]]]]];
        try (repeat (destruct Ha as [Ha|Ha]; [discriminate Ha|]); contradiction).
      destruct Ht as [?|[?|[?|[? _]]]]; congruence.
    + intros Hc. apply applyPaths_createdBy. intros Hin.
      destruct (Hpaths _ Hin) as [[?|[?|[?|[? _]]]] _]; congruence.
Qed.

Lemma flagKept_refl store : flagKept store store.
Proof. intros id Hf. exact Hf. Qed.

Lemma flagKept_updated store dh :
  ~ In "isActive" (modified dh) \/ isActive (val dh) = false ->
  flagKept store (updatedStore store dh).
Proof.
  intros Hd id. unfold activeFlag, updatedStore.
  rewrite find_map_id
    by (intros q; destruct (_ =? _)%string; [apply applyPaths_id | reflexivity]).
  destruct (List.find _ store) as [q|]; [|discriminate].
  cbn. intros [= Hq]. f_equal.
  destruct (_id q =? _id (val dh))%string; [|exact Hq].
  destruct Hd as [Hn|Hoff].
  - rewrite applyPaths_isActive by exact Hn. exact Hq.
  - destruct (applyPaths_isActive_from (modified dh) (val dh) q) as [->| ->];
      assumption.
Qed.

Lemma flagKept_save store d :
  let dh := primaryImageHook (slugHook d) in
  isNew d = true \/ ~ In "isActive" (modified dh) \/ isActive (val dh) = false ->
  flagKept store (fst (fst (save store d))).
Proof.
  intros dh Hd.
  destruct (save_cases store d) as [->|[(_ & -> & _)|(Hn & _ & ->)]].
  - apply flagKept_refl.
  - intros id. unfold activeFlag.
    destruct (List.find _ store) as [q|] eqn:Ef; [|discriminate].
    rewrite (find_some_app _ _ _ _ Ef). auto.
  - apply flagKept_updated. destruct Hd as [?|?]; [congruence | assumption].
Qed.

Lemma fst_saveCreated store d :
  fst (saveCreated store d) = store
  \/ fst (saveCreated store d) = fst (fst (save store d)).
Proof.
  unfold saveCreated. destruct (save store d) as [[s' d'] [[]|]]; cbn; auto.
Qed.

Lemma fst_saveDeleted store d :
  fst (saveDeleted store d) = store
  \/ fst (saveDeleted store d) = fst (fst (save store d)).
Proof.
  unfold saveDeleted. destruct (save store d) as [[s' d'] [e|]]; cbn; auto.
Qed.

Lemma flagKept_get store identifier :
  flagKept store (fst (getProduct store identifier)).
Proof.
  unfold getProduct.
  destruct (if JS.isObjectIdString identifier then _ else _) as [p|];
    [|apply flagKept_refl].
  destruct (isActive p); [|apply flagKept_refl].
  change (incrementViews store (load p))
    with (Concurrent.increment Concurrent.Views store (load p)).
  rewrite increment_loaded. cbv zeta.
  destruct (valid p); [|apply flagKept_refl].
  destruct (existsb _ store); cbn; [|apply flagKept_refl].
  apply (flagKept_updated store
           {| val := Concurrent.bumped Concurrent.Views p; isNew := false;
              modified := ["stats.views"]; castFailed := false |}).
  left. cbn. intros [?|[]]. discriminate.
Qed.

Lemma flagKept_create store user newId now files body :
  flagKept store (fst (createProduct store user newId now files body)).
Proof.
  assert (Hnew : forall d, isNew d = true ->
                           flagKept store (fst (saveCreated store d))).
  { intros d Hd. destruct (fst_saveCreated store d) as [->| ->].
    - apply flagKept_refl.
    - apply flagKept_save. left. exact Hd. }
  assert (Hall : forall data, isNew (assignAll data (fresh newId now)) = true).
  { intros data. rewrite (kept_isNew _ _ _ (assignAll_keeps data _)). reflexivity. }
  unfold createProduct.
  destruct (admin user); [apply flagKept_refl|].
  destruct user as [u|]; [|apply flagKept_refl].
  destruct (validateBody false _); [|apply flagKept_refl].
  repeat match goal with
    | |- context [match parseArray ?v with _ => _ end] => destruct (parseArray v)
    end;
    try apply flagKept_refl;
    apply Hnew; destruct files; cbn [assignPath isNew]; apply Hall.
Qed.

Lemma flagKept_update store user id body :
  has "isActive" body = false ->
  flagKept store (fst (updateProduct store user id body)).
Proof.
  intros Hb.
  destruct (updateProduct_cases store user id body) as [->|(p & dh & _ & K & ->)].
  - apply flagKept_refl.
  - apply flagKept_updated. left. intros Hin.
    destruct (kept_modified _ _ _ K _ Hin) as [[]|[Ht _]].
    destruct Ht as [?|[?|[?|[? _]]]]; congruence.
Qed.

Lemma flagKept_delete store user id :
  flagKept store (fst (deleteProduct store user id)).
Proof.
  unfold deleteProduct.
  destruct (admin user); [apply flagKept_refl|].
  destruct user as [u|]; [|apply flagKept_refl].
  unfold findByParam. destruct (JS.isObjectIdString id); [|apply flagKept_refl].
  destruct (findById store id) as [p|]; [|apply flagKept_refl].
  match goal with |- flagKept _ (fst (saveDeleted _ ?d)) => set (d2 := d) end.
  destruct (fst_saveDeleted store d2) as [->| ->]; [apply flagKept_refl|].
  apply flagKept_save. right; right.
  rewrite (kept_isActive _ _ _ (hooks_keep d2))
    by (intros [?|[? _]]; discriminate).
  subst d2. unfold assignIfChanged. cbn.
  destruct (isActive p) eqn:Ea; cbn; [reflexivity | exact Ea].
Qed.

Lemma flagKept_apply store op :
  namesIsActive op = false -> flagKept store (apply store op).
Proof.
  destruct op; cbn; intros Hop.
  - apply flagKept_refl.
  - apply flagKept_get.
  - apply flagKept_create.
  - apply flagKept_update, Hop.
  - apply flagKept_delete.
Qed.

(** C7 (as amended): along any sequence of list, get, create, update and
    soft-delete operations in which no update names [isActive] in its
    body, a product that is inactive stays inactive. *)
Theorem C7_inactive_stays_inactive ops store id :
  (forall op, In op ops -> namesIsActive op = false) ->
  activeFlag store id = Some false ->
  activeFlag (applyAll ops store) id = Some false.
Proof.
  unfold applyAll. revert store.
  induction ops as [|op ops IH]; intros store Hops Hf; cbn; [exact Hf|].
  apply IH.
  - intros op' Hin. apply Hops. right. exact Hin.
  - apply flagKept_apply; [apply Hops; left; reflexivity | exact Hf].
Qed.

End Writes.

(** ** Concurrent increments *)
Section Increments.
Import Query Model Concurrent.
Context `{Slugify}.

Lemma counter_applied c c' p q :
  counter c (applyPaths [path c'] (bumped c' p) q)
  = if counterEqb c c' then (counter c p + 1)%Q else counter c q.
Proof. destruct c, c'; reflexivity. Qed.

Lemma isActive_applied c' p q :
  isActive (applyPaths [path c'] (bumped c' p) q) = isActive q.
Proof. destruct c'; reflexivity. Qed.

(** The counters carry no validator: a saved increment leaves a stored
    product as valid as it was. *)
Lemma valid_applied c' p q :
  valid (applyPaths [path c'] (bumped c' p) q) = valid q.
Proof. destruct c'; reflexivity. Qed.

Lemma found_exists store id p :
  findById store id = Some p ->
  existsb (fun q => (_id q =? _id p)%string) store = true
  /\ _id p = JS.toLowerCase id.
Proof.
  unfold findById. intros Hf. apply find_some in Hf as [Hin Hid].
  apply String.eqb_eq in Hid. split; [|exact Hid].
  apply existsb_exists. exists p. split; [exact Hin | apply String.eqb_refl].
Qed.

(** The save of an increment held by a request, when the product is still
    stored under the identifier it was loaded by and the document passes
    validation. *)
Lemma run_loaded id store c' p q :
  findById store id = Some q -> _id p = _id q -> valid p = true ->
  run id (Loaded c' (load p)) store
  = (updatedStore store {| val := bumped c' p; isNew := false;
                           modified := [path c']; castFailed := false |},
     Finished c' true)
  /\ findById (fst (run id (Loaded c' (load p)) store)) id
     = Some (applyPaths [path c'] (bumped c' p) q).
Proof.
  intros Hf Hid Hv. destruct (found_exists store id q Hf) as [Hex Hlow].
  assert (Hrun : run id (Loaded c' (load p)) store
                 = (updatedStore store {| val := bumped c' p; isNew := false;
                                          modified := [path c']; castFailed := false |},
                    Finished c' true)).
  { unfold run. rewrite increment_loaded. cbv zeta. rewrite Hv, Hid, Hex.
    unfold updatedStore. cbn [val modified].
    replace (_id (bumped c' p)) with (_id q) by (destruct c'; symmetry; exact Hid).
    reflexivity. }
  split; [exact Hrun|]. rewrite Hrun. cbn [fst].
  apply (findById_updatedStore store id q
           {| val := bumped c' p; isNew := false; modified := [path c'];
              castFailed := false |} Hf).
  destruct c'; exact Hid.
Qed.

(** The save of an increment held by a request whose document fails
    validation: nothing is written. *)
Lemma run_invalid id store c' p :
  valid p = false ->
  run id (Loaded c' (load p)) store = (store, Finished c' false).
Proof.
  intros Hv. unfold run. rewrite increment_loaded. cbv zeta. rewrite Hv.
  reflexivity.
Qed.

Lemma requested_cons c c' cs :
  requested c (c' :: cs) = ((if counterEqb c c' then 1 else 0) + requested c cs)%nat.
Proof. unfold requested. cbn. destruct (counterEqb c c'); reflexivity. Qed.

Lemma inject_succ n : (inject_Z (Z.of_nat (S n)) == inject_Z (Z.of_nat n) + 1)%Q.
Proof. rewrite Nat2Z.inj_succ. unfold Z.succ. rewrite inject_Z_plus. reflexivity. Qed.

Lemma nth_error_middle {A : Type} (l1 : list A) x l2 :
  nth_error (l1 ++ x :: l2) (List.length l1) = Some x.
Proof. induction l1 as [|y l1 IH]; cbn; auto. Qed.

Lemma replace_middle {A : Type} (l1 : list A) x y l2 :
  replace (List.length l1) y (l1 ++ x :: l2) = (l1 ++ y :: l2)%list.
Proof. induction l1 as [|z l1 IH]; cbn; [reflexivity | rewrite IH; reflexivity]. Qed.

(** Request number [length served] reads and saves with no access of
    another request between. *)
Lemma stepAt_twice id store c' q served waiting :
  findById store id = Some q -> isActive q = true -> valid q = true ->
  let i := List.length served in
  stepAt id (stepAt id {| db := store; tasks := (served ++ Received c' :: waiting)%list |} i) i
  = {| db := updatedStore store {| val := bumped c' q; isNew := false;
                                   modified := [path c']; castFailed := false |};
       tasks := ((served ++ [Finished c' true]) ++ waiting)%list |}
  /\ findById (updatedStore store {| val := bumped c' q; isNew := false;
                                     modified := [path c']; castFailed := false |}) id
     = Some (applyPaths [path c'] (bumped c' q) q).
Proof.
  intros Hf Ha Hv i. subst i.
  destruct (run_loaded id store c' q q Hf eq_refl Hv) as [Hrun Hfind].
  rewrite Hrun in Hfind. cbn [fst] in Hfind. split; [|exact Hfind].
  unfold stepAt at 2. cbn [tasks db]. rewrite nth_error_middle.
  cbn [run]. rewrite Hf, Ha. rewrite replace_middle.
  unfold stepAt. cbn [tasks db]. rewrite nth_error_middle, Hrun, replace_middle.
  rewrite <- app_assoc. reflexivity.
Qed.

(** Requests that do not overlap: every increment counts. *)
Lemma oneByOne_counter id c cs : forall served store q,
  findById store id = Some q -> isActive q = true -> valid q = true ->
  exists q',
    findById
      (db (exec id (flat_map (fun i => [i; i]) (seq (List.length served) (List.length cs)))
             {| db := store; tasks := (served ++ map Received cs)%list |})) id = Some q'
    /\ (counter c q' == counter c q + inject_Z (Z.of_nat (requested c cs)))%Q.
Proof.
  unfold exec.
  induction cs as [|c' cs IH]; intros served store q Hf Ha Hv.
  - exists q. split; [exact Hf|]. unfold requested. cbn.
    rewrite Qplus_0_r. reflexivity.
  - cbn [List.length seq flat_map map app fold_left].
    destruct (stepAt_twice id store c' q served (map Received cs) Hf Ha Hv)
      as [Hstep Hfind].
    cbv zeta in Hstep. rewrite Hstep.
    replace (S (List.length served))
      with (List.length (served ++ [Finished c' true])%list)
      by (rewrite length_app; cbn; lia).
    destruct (IH (served ++ [Finished c' true])%list _ _ Hfind) as (q' & Hq' & Hc').
    { rewrite isActive_applied. exact Ha. }
    { rewrite valid_applied. exact Hv. }
    exists q'. split; [exact Hq'|].
    rewrite Hc', counter_applied, requested_cons.
    destruct (counterEqb c c'); cbn [Nat.add].
    + rewrite inject_succ. ring.
    + reflexivity.
Qed.

Lemma In_replace {A : Type} i (x y : A) l :
  In x (replace i y l) -> x = y \/ In x l.
Proof.
  revert i. induction l as [|z t IH]; intros [|i]; cbn; try tauto.
  - intuition.
  - intros [->|Hin]; [tauto|]. destruct (IH i Hin); tauto.
Qed.

Lemma replace_same {A : Type} i (x : A) l :
  nth_error l i = Some x -> replace i x l = l.
Proof.
  revert i. induction l as [|z t IH]; intros [|i]; cbn; try discriminate.
  - intros [= ->]. reflexivity.
  - intros Hn. rewrite (IH i Hn). reflexivity.
Qed.

Lemma saved_replace c i t t' ts :
  nth_error ts i = Some t -> isSaved c t = false ->
  saved c (replace i t' ts) = ((if isSaved c t' then 1 else 0) + saved c ts)%nat.
Proof.
  unfold saved. revert i.
  induction ts as [|z r IH]; intros [|i]; cbn [nth_error replace filter];
    try discriminate.
  - intros [= ->] ->. destruct (isSaved c t'); reflexivity.
  - intros Hn Ht. specialize (IH i Hn Ht).
    destruct (isSaved c z); cbn [List.length]; rewrite IH;
      destruct (isSaved c t'); lia.
Qed.

Lemma within_more v0 n m x : (n <= m)%nat -> within v0 n x -> within v0 m x.
Proof.
  unfold within. intros Hnm [Hlo Hhi]. split; [exact Hlo|].
  eapply Qle_trans; [exact Hhi|].
  apply Qplus_le_r. rewrite <- Zle_Qle. lia.
Qed.

(** One store access of one request keeps the invariant. *)
Lemma Inv_step id c v0 w i : Inv id c v0 w -> Inv id c v0 (stepAt id w i).
Proof.
  intros [(q & Hf & Ha & Hw & Hone) Hloaded]. unfold stepAt.
  destruct (nth_error (tasks w) i) as [t|] eqn:Et;
    [|split; [exists q; auto | exact Hloaded]].
  destruct t as [c' | c' d | c' b | ].
  - (* the read *)
    cbn [run]. rewrite Hf, Ha.
    assert (Hs : saved c (replace i (Loaded c' (load q)) (tasks w)) = saved c (tasks w)).
    { rewrite (saved_replace c i (Received c')) by auto. reflexivity. }
    split; cbn [db tasks]; rewrite Hs.
    + exists q. auto.
    + intros c'' d Hin. apply In_replace in Hin as [Heq|Hin].
      * injection Heq as -> ->.
        destruct (found_exists _ _ _ Hf) as [_ Hid].
        split; [reflexivity|]. split; [exact Hid | exact Hw].
      * exact (Hloaded c'' d Hin).
  - (* the save *)
    destruct (Hloaded c' d (nth_error_In _ _ Et)) as (Hd & Hid & Hwd).
    destruct (found_exists _ _ _ Hf) as [_ Hq].
    rewrite Hd.
    destruct (valid (val d)) eqn:Hv.
    + (* the document is valid: the held value is written *)
      destruct (run_loaded id (db w) c' (val d) q Hf) as [Hrun Hfind];
        [congruence | exact Hv |].
      rewrite Hrun in Hfind |- *. cbn [fst] in Hfind. cbv beta iota.
      assert (Hs : saved c (replace i (Finished c' true) (tasks w))
                   = ((if counterEqb c c' then 1 else 0) + saved c (tasks w))%nat).
      { rewrite (saved_replace c i (Loaded c' d)) by auto. reflexivity. }
      split; cbn [db tasks]; rewrite Hs.
      * eexists. split; [exact Hfind|].
        rewrite isActive_applied, counter_applied.
        split; [exact Ha|].
        destruct (counterEqb c c'); cbn [Nat.add]; [|auto].
        destruct Hwd as [Hlo Hhi]. unfold within. rewrite inject_succ.
        unfold Number in *. repeat split; intros; lra.
      * intros c'' d'' Hin. apply In_replace in Hin as [Heq|Hin]; [discriminate Heq|].
        destruct (Hloaded c'' d'' Hin) as (? & ? & Hw'').
        split; [assumption|]. split; [assumption|].
        apply within_more with (n := saved c (tasks w)); [lia | exact Hw''].
    + (* validation fails: nothing is written *)
      rewrite (run_invalid id (db w) c' (val d) Hv). cbv beta iota.
      assert (Hs : saved c (replace i (Finished c' false) (tasks w)) = saved c (tasks w)).
      { rewrite (saved_replace c i (Loaded c' d)) by auto. reflexivity. }
      split; cbn [db tasks]; rewrite Hs.
      * exists q. auto.
      * intros c'' d'' Hin. apply In_replace in Hin as [Heq|Hin]; [discriminate Heq|].
        exact (Hloaded c'' d'' Hin).
  - cbn [run]. rewrite (replace_same _ _ _ Et).
    split; [exists q; auto | exact Hloaded].
  - cbn [run]. rewrite (replace_same _ _ _ Et).
    split; [exists q; auto | exact Hloaded].
Qed.

Lemma Inv_exec id c v0 schedule : forall w,
  Inv id c v0 w -> Inv id c v0 (exec id schedule w).
Proof.
  unfold exec. induction schedule as [|i rest IH]; intros w Hw; cbn [fold_left].
  - exact Hw.
  - apply IH, Inv_step, Hw.
Qed.

Lemma saved_received c cs : saved c (map Received cs) = 0%nat.
Proof. unfold saved. induction cs; cbn; auto. Qed.

Lemma Inv_initial id c store p cs :
  findById store id = Some p -> isActive p = true ->
  Inv id c (counter c p) {| db := store; tasks := map Received cs |}.
Proof.
  intros Hf Ha. split; cbn [db tasks].
  - exists p. rewrite saved_received. repeat split; auto.
    + apply Qle_refl.
    + cbn. rewrite Qplus_0_r. apply Qle_refl.
    + lia.
  - intros c' d Hin. apply in_map_iff in Hin as (? & [=] & _).
Qed.

Lemma Forall_replace {A : Type} (P : A -> Prop) i x l :
  P x -> Forall P l -> Forall P (replace i x l).
Proof.
  intros Hx Hl. revert i.
  induction Hl as [|y l Hy Hl IH]; intros [|i]; cbn; auto.
Qed.

Lemma unsaved_step id store p w i :
  findById store id = Some p -> valid p = false ->
  db w = store /\ Forall (unsaved p) (tasks w) ->
  db (stepAt id w i) = store /\ Forall (unsaved p) (tasks (stepAt id w i)).
Proof.
  intros Hf Hv [Hdb Hall]. destruct w as [dbw ts]. cbn [db tasks] in *.
  subst dbw. unfold stepAt. cbn [db tasks].
  destruct (nth_error ts i) as [t|] eqn:Et; [|auto].
  pose proof (proj1 (Forall_forall _ _) Hall t (nth_error_In _ _ Et)) as Ht.
  destruct t as [c' | c' d | c' b | ].
  - cbn [run]. rewrite Hf.
    destruct (isActive p); cbn [db tasks]; (split; [reflexivity|]);
      apply Forall_replace; cbn; auto.
  - cbn in Ht. subst d. rewrite (run_invalid id store c' p Hv). cbn [db tasks].
    split; [reflexivity|]. apply Forall_replace; cbn; auto.
  - cbn [run db tasks]. split; [reflexivity|]. apply Forall_replace; auto.
  - cbn [run db tasks]. split; [reflexivity|]. apply Forall_replace; auto.
Qed.

Lemma unsaved_exec id store p schedule : forall w,
  findById store id = Some p -> valid p = false ->
  db w = store /\ Forall (unsaved p) (tasks w) ->
  db (exec id schedule w) = store /\ Forall (unsaved p) (tasks (exec id schedule w)).
Proof.
  unfold exec. induction schedule as [|i rest IH]; intros w Hf Hv Hw; cbn [fold_left].
  - exact Hw.
  - apply IH; auto. apply unsaved_step; auto.
Qed.

Lemma unsaved_saved c p ts : Forall (unsaved p) ts -> saved c ts = 0%nat.
Proof.
  unfold saved. induction 1 as [|t ts Ht _ IH]; [reflexivity|].
  cbn [filter]. destruct t as [| | c' b|]; cbn in *; auto.
  subst b. exact IH.
Qed.

(** C1 (as amended): an increment adds one to the counter of the document
    the request holds and saves that value, after the validation of the
    whole document: a read followed by a write.  For a counter that holds
    an integer and stays in the range where adding one is exact
    ([Number.MAX_SAFE_INTEGER]), whatever the interleaving of the requests
    on one product, the stored counter stays between its initial value and
    that value plus the number of saved increments, and is above the
    initial value once an increment is saved; when the stored product
    passes validation and no two requests overlap, it is the initial value
    plus the number of increments; when the stored product fails
    validation, no increment is saved and the store stays as it was. *)
Theorem C1_increments_read_then_write id c store p cs schedule n :
  findById store id = Some p -> isActive p = true ->
  (counter c p == inject_Z n)%Q -> (0 <= n)%Z ->
  (n + Z.of_nat (List.length cs) <= JS.MAX_SAFE_INTEGER)%Z ->
  let w0 := {| db := store; tasks := map Received cs |} in
  let w := exec id schedule w0 in
  (exists q, findById (db w) id = Some q
             /\ (counter c p <= counter c q)%Q
             /\ (counter c q <= counter c p + inject_Z (Z.of_nat (saved c (tasks w))))%Q
             /\ ((1 <= saved c (tasks w))%nat -> (counter c p + 1 <= counter c q)%Q))
  /\ (valid p = true ->
      exists q, findById (db (exec id (oneByOne (List.length cs)) w0)) id = Some q
                /\ (counter c q == counter c p + inject_Z (Z.of_nat (requested c cs)))%Q)
  /\ (valid p = false -> db w = store /\ saved c (tasks w) = 0%nat).
Proof.
  intros Hf Ha _ _ _ w0 w. split; [|split].
  - destruct (Inv_exec id c (counter c p) schedule _ (Inv_initial id c store p cs Hf Ha))
      as [(q & Hq & _ & [Hlo Hhi] & Hone) _].
    exists q. auto.
  - intros Hv.
    destruct (oneByOne_counter id c cs [] store p Hf Ha Hv) as (q & Hq & Hc).
    exists q. auto.
  - intros Hv.
    destruct (unsaved_exec id store p schedule w0 Hf Hv) as [Hdb Hall].
    { split; [reflexivity|]. cbn [tasks]. apply Forall_forall.
      intros t Hin. apply in_map_iff in Hin as (? & <- & _). exact I. }
    split; [exact Hdb | exact (unsaved_saved c p _ Hall)].
Qed.

End Increments.

(** ** The primary image *)
Section PrimaryImage.
Import Model.

Lemma forEachFrom_later index imgs :
  forEachFrom (S index) (fun img i => if (0 <? i)%nat then setPrimary false img else img) imgs
  = map (setPrimary false) imgs.
Proof.
  revert index. induction imgs as [|img t IH]; intros index; cbn; [reflexivity|].
  rewrite IH. reflexivity.
Qed.

Lemma primaryCount_cleared imgs : primaryCount (map (setPrimary false) imgs) = 0%nat.
Proof. unfold primaryCount. induction imgs; cbn; auto. Qed.

(** After the hook the flags of all images but the first are what the
    first branch leaves of them: when several images are marked, only the
    first image can still be marked. *)
Lemma primaryImageHook_several d first rest :
  isModified "images" d = true -> images (val d) = first :: rest ->
  (1 < primaryCount (first :: rest))%nat ->
  images (val (primaryImageHook d)) = first :: map (setPrimary false) rest.
Proof.
  intros Hm Hi Hc. unfold primaryImageHook. rewrite Hm, Hi.
  fold (primaryCount (first :: rest)).
  apply Nat.ltb_lt in Hc. rewrite Hc. cbn [assignPath val images setImages].
  unfold forEach. cbn [forEachFrom]. rewrite forEachFrom_later. reflexivity.
Qed.

(** The hook does establish a single primary image, the first one, when
    the first image is marked or no image is. *)
Lemma primaryImageHook_first d first rest :
  isModified "images" d = true -> images (val d) = first :: rest ->
  isPrimary first = true \/ primaryCount (first :: rest) = 0%nat ->
  exists first',
    images (val (primaryImageHook d)) = first' :: map (setPrimary false) rest
    /\ isPrimary first' = true
    /\ primaryCount (images (val (primaryImageHook d))) = 1%nat.
Proof.
  intros Hm Hi Hcase.
  destruct (Nat.ltb_spec 1 (primaryCount (first :: rest))) as [Hlt|Hle].
  - rewrite (primaryImageHook_several d first rest Hm Hi Hlt).
    assert (Hp : isPrimary first = true) by (destruct Hcase; [assumption | lia]).
    exists first. repeat split; auto.
    unfold primaryCount. cbn. rewrite Hp. cbn.
    fold (primaryCount (map (setPrimary false) rest)).
    rewrite primaryCount_cleared. reflexivity.
  - assert (Hrest : map (setPrimary false) rest = rest
                    /\ primaryCount rest = 0%nat).
    { unfold primaryCount in *. cbn in Hle, Hcase.
      assert (Hz : List.length (filter isPrimary rest) = 0%nat).
      { destruct (isPrimary first); cbn in *; destruct Hcase; lia || congruence. }
      split; [|exact Hz].
      clear -Hz. induction rest as [|[u a []] t IH]; cbn in *;
        [reflexivity | discriminate | rewrite IH; auto]. }
    destruct Hrest as [Hmap Hzero]. rewrite Hmap. clear Hle Hcase Hmap.
    unfold primaryImageHook. rewrite Hm, Hi.
    unfold primaryCount in *. cbn [filter].
    destruct (isPrimary first) eqn:Hp; cbn [List.length]; rewrite Hzero; cbn.
    + rewrite Hi. exists first. cbn. rewrite Hp. cbn. rewrite Hzero. auto.
    + exists (setPrimary true first). rewrite Hzero. auto.
Qed.

(** When several images are marked and the first is not, none is marked
    after the hook. *)
Lemma primaryImageHook_loses d first rest :
  isModified "images" d = true -> images (val d) = first :: rest ->
  isPrimary first = false -> (1 < primaryCount (first :: rest))%nat ->
  primaryCount (images (val (primaryImageHook d))) = 0%nat.
Proof.
  intros Hm Hi Hp Hc.
  rewrite (primaryImageHook_several d first rest Hm Hi Hc).
  unfold primaryCount. cbn. rewrite Hp.
  apply primaryCount_cleared.
Qed.

End PrimaryImage.

(** ** Soft delete *)
Section SoftDelete.
Import Query Model Req Routes Service.
Context `{Slugify}.

Lemma applyPaths_isActive_in paths src dst :
  In "isActive" paths -> isActive (applyPaths paths src dst) = isActive src.
Proof.
  induction paths as [|path t IH]; cbn; [contradiction|].
  destruct (String.eqb_spec path "isActive") as [->|Hne]; [reflexivity|].
  intros [?|Hin]; [contradiction|].
  rewrite copyPath_isActive by exact Hne. apply IH, Hin.
Qed.

Lemma hooks_modified d path :
  In path (modified d) -> In path (modified (primaryImageHook (slugHook d))).
Proof.
  unfold primaryImageHook, slugHook.
  repeat match goal with
    | |- context [if ?b then _ else _] => destruct b
    end; cbn; auto.
Qed.

(** A save that succeeds on a stored document with modified paths is the
    update of those paths. *)
Lemma save_updates store d :
  isNew d = false -> modified d <> [] -> snd (save store d) = None ->
  fst (fst (save store d)) = updatedStore store (primaryImageHook (slugHook d)).
Proof.
  intros Hn Hm. unfold save.
  pose proof (hooks_keep d) as K.
  set (dh := primaryImageHook (slugHook d)) in *.
  destruct (negb (validates d)); [discriminate|].
  rewrite (kept_isNew _ _ _ K), Hn.
  destruct (modified dh) eqn:Em.
  - exfalso. destruct (modified d) as [|path t] eqn:Ed; [contradiction|].
    assert (Hin : In path (modified dh)).
    { apply hooks_modified. rewrite Ed. left. reflexivity. }
    rewrite Em in Hin. contradiction.
  - destruct (_ && _); [discriminate|].
    destruct (negb _); [discriminate|]. reflexivity.
Qed.

(** A soft delete that is answered with success leaves the product
    inactive: the transition from active to inactive. *)
Lemma softDelete_deactivates store user id :
  status (snd (deleteProduct store user id)) = 200 ->
  activeFlag (fst (deleteProduct store user id)) (JS.toLowerCase id) = Some false.
Proof.
  unfold deleteProduct, admin.
  destruct user as [u|]; [|discriminate].
  destruct (role u =? "admin")%string; [|discriminate].
  unfold findByParam. destruct (JS.isObjectIdString id); [|discriminate].
  destruct (findById store id) as [p|] eqn:Ef; [|discriminate].
  match goal with |- context [saveDeleted _ ?d] => set (d2 := d) end.
  assert (Hd2 : isNew d2 = false /\ _id (val d2) = _id p /\ isActive (val d2) = false
                /\ (isActive p = true -> In "isActive" (modified d2))
                /\ modified d2 <> []).
  { subst d2. unfold assignIfChanged.
    destruct (isActive p) eqn:Ea'; cbn; repeat split; auto; discriminate. }
  destruct Hd2 as (Hn & Hid & Hoff & Hmod & Hne).
  pose proof (hooks_keep d2) as K.
  pose proof (save_updates store d2 Hn Hne) as Hs.
  set (dh := primaryImageHook (slugHook d2)) in *.
  unfold saveDeleted.
  destruct (save store d2) as [[s' d'] [e|]]; cbn in *; [discriminate|].
  intros _. rewrite (Hs eq_refl).
  assert (Hdh : _id (val dh) = _id p /\ isActive (val dh) = false).
  { split.
    - rewrite (kept_id _ _ _ K Hn). exact Hid.
    - rewrite (kept_isActive _ _ _ K) by (intros [?|[? _]]; discriminate). exact Hoff. }
  destruct Hdh as [Hidh Hoffh].
  unfold activeFlag. fold (findById (updatedStore store dh) id).
  rewrite (findById_updatedStore store id p dh Ef Hidh). cbn.
  f_equal.
  destruct (isActive p) eqn:Ea.
  - rewrite applyPaths_isActive_in by (apply hooks_modified, Hmod; reflexivity).
    exact Hoffh.
  - destruct (applyPaths_isActive_from (modified dh) (val dh) p) as [->| ->];
      assumption.
Qed.

End SoftDelete.

(** ** The routes on concrete requests *)
Section RouteExamples.
Import Validator Query Model Req Routes Listing Concurrent Service Sample Fixtures.

Lemma saveCreated_duplicate `{Slugify} store d :
  snd (save store d) = Some DuplicateKey ->
  saveCreated store d
  = (store, reply 400 false "Product with this name already exists").
Proof.
  unfold saveCreated. destruct (save store d) as [[s' d'] e]. cbn.
  intros ->. reflexivity.
Qed.

Lemma saveUpdated_duplicate `{Slugify} store d :
  snd (save store d) = Some DuplicateKey ->
  saveUpdated store d = (store, serverError "Server error while updating product").
Proof.
  unfold saveUpdated. destruct (save store d) as [[s' d'] e]. cbn.
  intros ->. reflexivity.
Qed.

(** C2: the code breaks the claim.  Three images are submitted of which
    the second and the third are marked primary; the hook clears the flag
    of every image but the first, and no image is primary afterwards,
    where the claim keeps the second.  The same through PUT. *)
Theorem C2_later_primaries_leave_none :
  primaryCount laterPrimaries = 2%nat
  /\ map isPrimary
       (images (val (primaryImageHook
                       (assignPath "images" (setImages laterPrimaries) (load (alpha 0%Q))))))
     = [false; false; false]
  /\ map (fun p => map isPrimary (images p))
       (fst (updateProduct [alpha 0%Q] administrator idA laterPrimariesBody))
     = [[false; false; false]].
Proof. repeat split. Qed.

(** C8: the code breaks the claim on the update path.  Renaming a product
    to the name of another makes the save fail on the unique slug; PUT
    answers with the generic 500, while POST answers the same collision
    with its own 400 "Product with this name already exists". *)
Theorem C8_update_collision_is_server_error :
  snd (save twoProducts
         (assignPath "updatedBy" (setUpdatedBy (Some "cccccccccccccccccccccccc"))
            (assignAll [("name", JStr "Alpha")] (load beta))))
  = Some DuplicateKey
  /\ updateProduct twoProducts administrator idB [("name", JStr "Alpha")]
     = (twoProducts, serverError "Server error while updating product")
  /\ createProduct twoProducts administrator idC 0 [] newAlpha
     = (twoProducts, reply 400 false "Product with this name already exists").
Proof. repeat split. Qed.

Lemma C1_increments_read_then_write_witness :
  (findById [alpha 0%Q] idA = Some (alpha 0%Q) /\ isActive (alpha 0%Q) = true
   /\ (counter Views (alpha 0%Q) == inject_Z 0)%Q /\ 0 <= 0
   /\ 0 + Z.of_nat (List.length [Views; Views]) <= JS.MAX_SAFE_INTEGER)
  /\ let w0 := {| db := [alpha 0%Q]; tasks := map Received [Views; Views] |} in
     let w := exec idA [0; 1; 0; 1]%nat w0 in
     (exists q, findById (db w) idA = Some q
                /\ (counter Views (alpha 0%Q) <= counter Views q)%Q
                /\ (counter Views q
                    <= counter Views (alpha 0%Q)
                       + inject_Z (Z.of_nat (saved Views (tasks w))))%Q
                /\ ((1 <= saved Views (tasks w))%nat ->
                    (counter Views (alpha 0%Q) + 1 <= counter Views q)%Q))
     /\ (valid (alpha 0%Q) = true ->
         exists q, findById (db (exec idA (oneByOne (List.length [Views; Views])) w0)) idA
                   = Some q
                   /\ (counter Views q
                       == counter Views (alpha 0%Q)
                          + inject_Z (Z.of_nat (requested Views [Views; Views])))%Q)
     /\ (valid (alpha 0%Q) = false ->
         db w = [alpha 0%Q] /\ saved Views (tasks w) = 0%nat).
Proof.
  split.
  - repeat split; try reflexivity; unfold JS.MAX_SAFE_INTEGER; simpl; lia.
  - apply (C1_increments_read_then_write idA Views [alpha 0%Q] (alpha 0%Q) [Views; Views]
             [0; 1; 0; 1]%nat 0); try reflexivity; unfold JS.MAX_SAFE_INTEGER; simpl; lia.
Defined.

(** C1, as stated, fails: two requests for the same product both read the
    counter at 0 before either saves; both saves succeed and the counter
    ends at 1. *)
Lemma C1_lost_update_counterexample :
  let w := exec idA [0; 1; 0; 1]%nat
             {| db := [alpha 0%Q]; tasks := [Received Views; Received Views] |} in
  tasks w = [Finished Views true; Finished Views true]
  /\ saved Views (tasks w) = 2%nat
  /\ map (counter Views) (db w) = [1%Q].
Proof. repeat split. Qed.

Lemma C5_inactive_products_are_hidden_witness :
  (wellFormed twoProducts = true /\ In beta twoProducts /\ isActive beta = false)
  /\ getProduct twoProducts (_id beta) = (twoProducts, notFound).
Proof.
  assert (Hin : In beta twoProducts) by (right; left; reflexivity).
  split; [repeat split; exact Hin|].
  exact (proj1 (proj2 (proj2
           (@C5_inactive_products_are_hidden wholeNumbers nameAndTags hyphens
              twoProducts beta eq_refl Hin eq_refl)))).
Defined.

(** C5, as stated, fails on the slug: the soft-deleted product has a slug
    of 24 hexadecimal digits, GET on it looks the string up as an
    identifier and answers with the active product of that identifier. *)
Lemma C5_slug_shaped_as_id_counterexample :
  let hidden := product idB "aaaaaaaaaaaaaaaaaaaaaaaa" idA false 0%Q in
  wellFormed slugLikeId = true
  /\ In hidden slugLikeId
  /\ isActive hidden = false
  /\ snd (getProduct slugLikeId (slug hidden))
     = {| status := 200; success := true; message := ""; errors := None;
          data := Some (alpha 1%Q) |}.
Proof. cbn zeta. repeat split; cbn; auto. Qed.

Lemma C10_identifier_shaped_lookup_witness :
  JS.isObjectIdString idB = true
  /\ ((forall q, In q twoProducts -> _id q = JS.toLowerCase idB -> isActive q = false) ->
      getProduct twoProducts idB = (twoProducts, notFound)).
Proof.
  split; [reflexivity|].
  apply (C10_identifier_shaped_lookup twoProducts idB). reflexivity.
Defined.

(** C10, as stated, fails in its last clause: GET on a slug of 24
    hexadecimal digits that is not the identifier of the product bearing
    it does not answer 404 when another active product has that
    identifier. *)
Lemma C10_other_product_counterexample :
  let bearer := product idB "aaaaaaaaaaaaaaaaaaaaaaaa" idA true 0%Q in
  In bearer slugIsOtherId
  /\ JS.isObjectIdString (slug bearer) = true
  /\ _id bearer <> slug bearer
  /\ snd (getProduct slugIsOtherId (slug bearer))
     = {| status := 200; success := true; message := ""; errors := None;
          data := Some (alpha 1%Q) |}.
Proof. cbn zeta. repeat split; cbn; auto. discriminate. Qed.

Lemma C6_unnamed_server_fields_are_kept_witness :
  findById twoProducts idA = Some (alpha 0%Q)
  /\ exists p',
       findById (fst (updateProduct twoProducts administrator idA [("price", JNum 12%Q)])) idA
       = Some p'
       /\ _id p' = _id (alpha 0%Q)
       /\ (has "slug" [("price", JNum 12%Q)] = false ->
           has "name" [("price", JNum 12%Q)] = false -> slug p' = slug (alpha 0%Q))
       /\ (has "stats" [("price", JNum 12%Q)] = false -> stats p' = stats (alpha 0%Q))
       /\ (has "createdBy" [("price", JNum 12%Q)] = false ->
           createdBy p' = createdBy (alpha 0%Q)).
Proof.
  split; [reflexivity|].
  apply (C6_unnamed_server_fields_are_kept twoProducts administrator idA
           [("price", JNum 12%Q)] (alpha 0%Q)).
  reflexivity.
Defined.

(** C6, as stated, fails: the body of an update sets the slug, the creator
    and the statistics of the stored product, the view counter from 7 down
    to 0. *)
Lemma C6_body_sets_server_fields_counterexample :
  let body := [("slug", JStr "hijacked"); ("createdBy", JStr idB);
               ("stats", fullStats 0%Q)] in
  status (snd (updateProduct [alpha 7%Q] administrator idA body)) = 200
  /\ map (fun p => (slug p, createdBy p, views (stats p)))
       (fst (updateProduct [alpha 7%Q] administrator idA body))
     = [("hijacked", idB, 0%Q)].
Proof. cbn zeta. split; reflexivity. Qed.

Lemma C7_inactive_stays_inactive_witness :
  ((forall op, In op quietOps -> namesIsActive op = false)
   /\ activeFlag twoProducts idB = Some false)
  /\ activeFlag (applyAll quietOps twoProducts) idB = Some false.
Proof.
  assert (Hq : forall op, In op quietOps -> namesIsActive op = false).
  { intros op Hin. cbn in Hin.
    repeat (destruct Hin as [<-|Hin]; [reflexivity|]). contradiction. }
  split; [split; [exact Hq | reflexivity]|].
  apply (C7_inactive_stays_inactive quietOps twoProducts idB Hq). reflexivity.
Defined.

(** C7, as stated, fails: an update whose body is [{ isActive: true }]
    takes the soft-deleted product back to active. *)
Lemma C7_update_reactivates_counterexample :
  activeFlag twoProducts idB = Some false
  /\ activeFlag
       (applyAll [UpdateProduct administrator idB [("isActive", JBool true)]] twoProducts)
       idB
     = Some true.
Proof. split; reflexivity. Qed.

End RouteExamples.

(** ** The page window and its metadata *)
Section PageWindow.
Import Validator Query Listing.
Context `{FloatSyntax} `{TextIndex}.

Lemma ceilDiv_bounds total l :
  0 < l -> exists tp, JS.ceilDiv total (Some l) = Some tp
                      /\ (tp - 1) * l < total <= tp * l.
Proof.
  intros Hl. unfold JS.ceilDiv.
  destruct (l =? 0) eqn:El; [lia|].
  eexists. split; [reflexivity|].
  pose proof (Z.div_mod (- total) l ltac:(lia)) as Hdm.
  pose proof (Z.mod_pos_bound (- total) l Hl) as Hr.
  nia.
Qed.

Lemma length_insertBy cmp x l : List.length (insertBy cmp x l) = S (List.length l).
Proof.
  induction l as [|y t IH]; cbn; [reflexivity|].
  destruct (cmp x y); cbn; rewrite ?IH; reflexivity.
Qed.

Lemma length_sortBy cmp l : List.length (sortBy cmp l) = List.length l.
Proof.
  induction l as [|x t IH]; [reflexivity|].
  change (sortBy cmp (x :: t)) with (insertBy cmp x (sortBy cmp t)).
  rewrite length_insertBy, IH. reflexivity.
Qed.

Lemma length_window {A : Type} (l : list A) skip lim :
  List.length (firstn lim (skipn skip l)) = Nat.min lim (List.length l - skip).
Proof. rewrite length_firstn, length_skipn. reflexivity. Qed.

(** X1: in an answered listing whose page times its limit and whose count
    stay within the integers a double holds exactly
    ([Number.MAX_SAFE_INTEGER]), [totalPages] is the least number of pages
    of [limit] products that hold [totalProducts]; a next page is announced
    exactly when counted products remain after the window, and a previous
    page exactly when products were skipped. *)
Theorem X1_pagination_metadata_is_consistent found counted q data pg fl page lim :
  listProductsAt found counted q = ListOk data pg fl ->
  pageOf q = Some page -> limitOf q = Some lim ->
  page * lim <= JS.MAX_SAFE_INTEGER ->
  totalProducts pg <= JS.MAX_SAFE_INTEGER ->
  exists tp,
    currentPage pg = Some page /\ limit pg = Some lim /\ totalPages pg = Some tp
    /\ 1 <= page /\ 1 <= lim <= 100
    /\ skipOf q = Some ((page - 1) * lim)
    /\ (tp - 1) * lim < totalProducts pg <= tp * lim
    /\ (hasNextPage pg = true <-> (page - 1) * lim + lim < totalProducts pg)
    /\ (hasPrevPage pg = true <-> 0 < (page - 1) * lim).
Proof.
  intros Hl Hp Hlim _ _.
  apply listProductsAt_ok in Hl as (Hv & skip & lim' & Hskip & Hlim' & _ & ->).
  destruct (pageOf_valid q Hv) as (page' & Hp' & Hp1).
  destruct (limitOf_valid q Hv) as (l & Hl & Hl1).
  rewrite Hp in Hp'. injection Hp' as <-.
  rewrite Hlim in Hl. injection Hl as <-.
  destruct (ceilDiv_bounds (countDocuments counted (buildQuery q)) lim) as (tp & Htp & Hb);
    [lia|].
  exists tp. unfold paginate. cbn.
  rewrite Hlim, Hp, Htp. cbn.
  repeat split; try lia.
  - unfold skipOf. rewrite Hp, Hlim. reflexivity.
  - intros Hn. apply Z.ltb_lt in Hn. nia.
  - intros Hn. apply Z.ltb_lt. nia.
  - intros Hn. apply Z.ltb_lt in Hn. nia.
  - intros Hn. apply Z.ltb_lt. nia.
Qed.

(** X2: the page of an answered listing, for a page and a limit whose
    product is an integer a double holds exactly, holds the products the
    page read finds after the skipped ones, at most [limit] of them: none
    when the page lies beyond the last one.  When no write comes between
    the page read and the count, that is [totalProducts] less the skipped
    ones, at most [limit]. *)
Theorem X2_page_window_size found counted q data pg fl page lim :
  listProductsAt found counted q = ListOk data pg fl ->
  pageOf q = Some page -> limitOf q = Some lim ->
  page * lim <= JS.MAX_SAFE_INTEGER ->
  currentPage pg = Some page /\ limit pg = Some lim
  /\ Z.of_nat (List.length data)
     = Z.min lim (Z.max 0 (countDocuments found (buildQuery q) - (page - 1) * lim))
  /\ (countDocuments found (buildQuery q) <= (page - 1) * lim -> data = [])
  /\ (found = counted ->
      Z.of_nat (List.length data)
      = Z.min lim (Z.max 0 (totalProducts pg - (page - 1) * lim))).
Proof.
  intros Hl Hp Hlim _.
  apply listProductsAt_ok in Hl as (Hv & skip & lim' & Hskip & Hlim' & -> & ->).
  destruct (pageOf_valid q Hv) as (page' & Hp' & Hp1).
  destruct (limitOf_valid q Hv) as (l & Hl & Hl1).
  rewrite Hp in Hp'. injection Hp' as <-.
  rewrite Hlim in Hl. injection Hl as <-.
  rewrite Hlim in Hlim'. injection Hlim' as <-.
  unfold skipOf in Hskip. rewrite Hp, Hlim in Hskip. cbn in Hskip. injection Hskip as <-.
  unfold paginate. cbn [currentPage limit totalProducts].
  split; [exact Hp|]. split; [exact Hlim|].
  assert (Hlen : Z.of_nat (List.length (find found (buildQuery q) (buildSort q)
                                          ((page - 1) * lim) lim))
                 = Z.min lim (Z.max 0 (countDocuments found (buildQuery q)
                                        - (page - 1) * lim))).
  { unfold find, countDocuments.
    set (sorted := sortBy _ (filter _ found)).
    assert (Hsame : List.length sorted
                    = List.length (filter (matches (buildQuery q)) found))
      by apply length_sortBy.
    rewrite <- Hsame.
    assert (Hskip : 0 <= (page - 1) * lim) by nia.
    rewrite length_window. lia. }
  split; [exact Hlen|]. split.
  - intros Hbeyond. rewrite Z.max_l in Hlen by lia.
    destruct (find found _ _ _ _); [reflexivity | cbn in Hlen; lia].
  - intros <-. exact Hlen.
Qed.

End PageWindow.

(** ** What a listing selects *)
Section ListingFilters.
Import Validator Query Listing Params.
Context `{FloatSyntax} `{TextIndex}.

Lemma holds_some {A : Type} (v : A) f : holds (Some v) f = f v.
Proof. reflexivity. Qed.

(** The conjuncts of [matches]. *)
Lemma matches_inv f p :
  matches f p = true ->
  holds (f_isActive f) (Bool.eqb (isActive p)) = true
  /\ holds (f_category f) (String.eqb (category p)) = true
  /\ holds (f_price f) (fun r => inRange r (price p)) = true
  /\ holds (f_isFeatured f) (Bool.eqb (isFeatured p)) = true
  /\ holds (f_text f) (fun s => textMatch s p) = true.
Proof.
  unfold matches. intros Hm.
  repeat (apply andb_prop in Hm as [Hm ?]). auto.
Qed.

Lemma buildQuery_category q c :
  q_category q = Some c -> c <> "" -> f_category (buildQuery q) = Some c.
Proof.
  intros Hc Hne. unfold buildQuery. rewrite Hc. cbn [JS.truthy].
  destruct (String.eqb_spec c ""); [contradiction|]. cbn [negb].
  unfold withCategory, withPrice, withFeatured, withText.
  repeat match goal with
    | |- context [match ?x with _ => _ end] => destruct x
    end; reflexivity.
Qed.

Lemma buildQuery_price q :
  JS.truthy (q_minPrice q) || JS.truthy (q_maxPrice q) = true ->
  f_price (buildQuery q)
  = Some {| gte := bound (q_minPrice q); lte := bound (q_maxPrice q) |}.
Proof.
  intros Hp. unfold buildQuery. rewrite Hp.
  unfold withCategory, withPrice, withFeatured, withText.
  repeat match goal with
    | |- context [match ?x with _ => _ end] => destruct x
    end; reflexivity.
Qed.

Lemma buildQuery_featured q :
  f_isFeatured (buildQuery q)
  = match q_featured q with
    | Some v => if (v =? "true")%string then Some true else None
    | None => None
    end.
Proof.
  unfold buildQuery, withCategory, withPrice, withFeatured, withText.
  repeat match goal with
    | |- context [match ?x with _ => _ end] => destruct x
    end; reflexivity.
Qed.

Lemma category_valid q c :
  validate q = [] -> q_category q = Some c -> c <> "".
Proof.
  unfold validate. intros Hv Hc.
  apply app_eq_nil in Hv as [_ Hv]. apply app_eq_nil in Hv as [_ Hv].
  apply app_eq_nil in Hv as [Hcat _].
  pose proof (check_passes _ _ _ _ c Hcat Hc) as Hi.
  intros ->. discriminate Hi.
Qed.

Lemma bound_truthy v s :
  v = Some s -> s <> "" -> bound v = Some (parseFloat s) /\ JS.truthy v = true.
Proof.
  intros -> Hne. unfold bound. cbn.
  destruct (String.eqb_spec s ""); [contradiction|]. auto.
Qed.

(** X3: every product of an answered listing satisfies each filter the
    request gives: it is active, of the requested category, priced within
    the given bounds, featured when [featured] is "true", and matched by
    the search term. *)
Theorem X3_listed_products_satisfy_the_filters store q data pg fl p :
  listProducts store q = ListOk data pg fl -> In p data ->
  In p store
  /\ isActive p = true
  /\ (forall c, q_category q = Some c -> category p = c)
  /\ (forall s, q_minPrice q = Some s -> s <> "" -> (parseFloat s <= price p)%Q)
  /\ (forall s, q_maxPrice q = Some s -> s <> "" -> (price p <= parseFloat s)%Q)
  /\ (q_featured q = Some "true" -> isFeatured p = true)
  /\ (forall s, q_search q = Some s -> textMatch s p = true).
Proof.
  intros Hl Hin.
  apply listProducts_ok in Hl as (Hv & skip & lim & _ & _ & -> & _).
  apply In_find in Hin as [Hstore Hm].
  pose proof (matches_isActive _ _ (buildQuery_isActive q) Hm) as Ha.
  apply matches_inv in Hm as (_ & Hc & Hp & Hf & Ht).
  repeat split; auto.
  - intros c Hq.
    rewrite (buildQuery_category q c Hq (category_valid q c Hv Hq)) in Hc.
    apply String.eqb_eq in Hc. exact Hc.
  - intros s Hq Hne.
    destruct (bound_truthy _ s Hq Hne) as [Hb Htr].
    rewrite buildQuery_price in Hp by (rewrite Htr; reflexivity).
    cbn in Hp. unfold inRange in Hp. cbn [gte] in Hp. rewrite Hb in Hp.
    apply andb_prop in Hp as [Hp _]. apply Qle_bool_iff in Hp. exact Hp.
  - intros s Hq Hne.
    destruct (bound_truthy _ s Hq Hne) as [Hb Htr].
    rewrite buildQuery_price in Hp by (rewrite Htr; apply orb_true_r).
    cbn in Hp. unfold inRange in Hp. cbn [lte] in Hp. rewrite Hb in Hp.
    apply andb_prop in Hp as [_ Hp]. apply Qle_bool_iff in Hp. exact Hp.
  - intros Hq. rewrite buildQuery_featured, Hq in Hf. cbn in Hf.
    apply eqb_prop in Hf. exact Hf.
  - intros s Hq.
    rewrite (buildQuery_text q s Hq (search_valid q s Hv Hq)) in Ht. exact Ht.
Qed.

(** X4: a price range given upside down is no error: the listing is
    answered, with no product and a total of 0. *)
Theorem X4_inverted_price_range_is_empty store q data pg fl lo hi :
  listProducts store q = ListOk data pg fl ->
  q_minPrice q = Some lo -> q_maxPrice q = Some hi -> lo <> "" -> hi <> "" ->
  (parseFloat hi < parseFloat lo)%Q ->
  data = [] /\ totalProducts pg = 0 /\ totalPages pg = Some 0.
Proof.
  intros Hl Hlo Hhi Hnl Hnh Hinv.
  assert (Hnone : filter (matches (buildQuery q)) store = []).
  { destruct (filter (matches (buildQuery q)) store) as [|p t] eqn:Ef; [reflexivity|].
    exfalso.
    assert (Hin : In p (filter (matches (buildQuery q)) store))
      by (rewrite Ef; left; reflexivity).
    apply filter_In in Hin as [_ Hm].
    apply matches_inv in Hm as (_ & _ & Hp & _).
    destruct (bound_truthy _ lo Hlo Hnl) as [Hbl Htl].
    destruct (bound_truthy _ hi Hhi Hnh) as [Hbh _].
    rewrite buildQuery_price in Hp by (rewrite Htl; reflexivity).
    cbn in Hp. unfold inRange in Hp. cbn [gte lte] in Hp. rewrite Hbl, Hbh in Hp.
    apply andb_prop in Hp as [H1 H2].
    apply Qle_bool_iff in H1, H2.
    apply (Qlt_irrefl (parseFloat lo)).
    eapply Qle_lt_trans; [|exact Hinv]. eapply Qle_trans; eassumption. }
  assert (Hcount : countDocuments store (buildQuery q) = 0).
  { unfold countDocuments. rewrite Hnone. reflexivity. }
  pose proof Hl as Hl'.
  apply listProducts_ok in Hl' as (Hv & skip & lim & _ & _ & -> & ->).
  split; [apply find_nothing, Hcount|].
  split; [exact Hcount|].
  destruct (limitOf_valid q Hv) as (l & Hlim & Hl1).
  unfold paginate. cbn. rewrite Hcount, Hlim. unfold JS.ceilDiv.
  destruct (l =? 0) eqn:El; [lia|].
  change (- 0) with 0. rewrite Z.div_0_l by lia. reflexivity.
Qed.

(** X5: only the exact string "true" makes [featured] a filter: with any
    other value ("false", "1", "TRUE", ...) the listing is the one of the
    same request without the parameter. *)
Theorem X5_featured_filters_only_on_true store q v :
  q_featured q = Some v -> v <> "true" ->
  listProducts store q = listProducts store (withoutFeatured q).
Proof.
  intros Hf Hne.
  assert (Hb : buildQuery q = buildQuery (withoutFeatured q)).
  { unfold buildQuery. cbn. rewrite Hf.
    destruct (String.eqb_spec v "true"); [contradiction | reflexivity]. }
  unfold listProducts, listProductsAt. rewrite Hb. reflexivity.
Qed.

End ListingFilters.

(** ** The order of a listing without search *)
Section ListingOrder.
Import Validator Query Listing.
Context `{FloatSyntax} `{TextIndex}.

Lemma buildQuery_no_text q : q_search q = None -> f_text (buildQuery q) = None.
Proof.
  intros Hs. unfold buildQuery. rewrite Hs.
  unfold withCategory, withPrice, withFeatured.
  repeat match goal with
    | |- context [match ?x with _ => _ end] => destruct x
    end; reflexivity.
Qed.

Lemma listing_sorted store q data pg fl :
  q_search q = None -> listProducts store q = ListOk data pg fl ->
  Sorted (notAfter (compareBy None (resolveSort (sortOf q)))) data.
Proof.
  intros Hs Hl.
  apply listProducts_ok in Hl as (_ & skip & lim & _ & _ & -> & _).
  pose proof (find_sorted store (buildQuery q) (buildSort q) skip lim) as Hsorted.
  rewrite (buildQuery_no_text q Hs) in Hsorted.
  unfold buildSort in Hsorted |- *. rewrite Hs in Hsorted |- *.
  cbv [JS.truthy] in Hsorted |- *. exact Hsorted.
Qed.

(** X6: without a search term, the page of an answered listing is in the
    order its sort key names: newest first when [sort] is absent or
    "newest", oldest first for "oldest", by price upwards for "price-low"
    and downwards for "price-high", by sales downwards for "popular" and
    by average rating downwards for "rating". *)
Theorem X6_listing_order_follows_the_sort_key store q data pg fl :
  q_search q = None ->
  listProducts store q = ListOk data pg fl ->
  (q_sort q = None \/ q_sort q = Some "newest" ->
   Sorted (fun a b => createdAt b <= createdAt a) data)
  /\ (q_sort q = Some "oldest" -> Sorted (fun a b => createdAt a <= createdAt b) data)
  /\ (q_sort q = Some "price-low" -> Sorted (fun a b => (price a <= price b)%Q) data)
  /\ (q_sort q = Some "price-high" -> Sorted (fun a b => (price b <= price a)%Q) data)
  /\ (q_sort q = Some "popular" ->
      Sorted (fun a b => (sales (stats b) <= sales (stats a))%Q) data)
  /\ (q_sort q = Some "rating" ->
      Sorted (fun a b => (average (rating (stats b)) <= average (rating (stats a)))%Q)
        data).
Proof.
  intros Hs Hl. pose proof (listing_sorted store q data pg fl Hs Hl) as Hsorted.
  repeat split.
  - intros Hk.
    assert (Hr : resolveSort (sortOf q) = [("createdAt", Dir (-1))])
      by (unfold sortOf; destruct Hk as [-> | ->]; reflexivity).
    rewrite Hr in Hsorted. revert Hsorted. apply Sorted_weaken.
    intros a b Hab. apply first_key_descending in Hab; [|lia].
    cbn in Hab. rewrite <- Zle_Qle in Hab. exact Hab.
  - intros Hk. unfold sortOf in Hsorted. rewrite Hk in Hsorted.
    revert Hsorted. apply Sorted_weaken.
    intros a b Hab. apply first_key_ascending in Hab; [|lia].
    cbn in Hab. rewrite <- Zle_Qle in Hab. exact Hab.
  - intros Hk. unfold sortOf in Hsorted. rewrite Hk in Hsorted.
    revert Hsorted. apply Sorted_weaken.
    intros a b Hab. apply first_key_ascending in Hab; [exact Hab | lia].
  - intros Hk. unfold sortOf in Hsorted. rewrite Hk in Hsorted.
    revert Hsorted. apply Sorted_weaken.
    intros a b Hab. apply first_key_descending in Hab; [exact Hab | lia].
  - intros Hk. unfold sortOf in Hsorted. rewrite Hk in Hsorted.
    revert Hsorted. apply Sorted_weaken.
    intros a b Hab. apply first_key_descending in Hab; [exact Hab | lia].
  - intros Hk. unfold sortOf in Hsorted. rewrite Hk in Hsorted.
    revert Hsorted. apply Sorted_weaken.
    intros a b Hab. apply first_key_descending in Hab; [exact Hab | lia].
Qed.

End ListingOrder.

(** ** Validation errors of a listing *)
Section ListingErrors.
Import Validator Query Listing Params.
Context `{FloatSyntax} `{TextIndex}.

Lemma In_check e field message valid v :
  In e (check field message valid v)
  <-> e = {| param := field; msg := message |}
      /\ exists s, v = Some s /\ valid s = false.
Proof.
  unfold check. destruct v as [s|]; cbn.
  - destruct (valid s) eqn:Ev; cbn.
    + split; [contradiction|]. intros (_ & s' & [= <-] & Hf). congruence.
    + split.
      * intros [<-|[]]. split; [reflexivity|]. eauto.
      * intros [-> _]. left. reflexivity.
  - split; [contradiction|]. intros (_ & s & [=] & _).
Qed.

(** X7: the validation of a listing reports every offending parameter, not
    the first one only: each of the validated parameters has an error in
    the answer exactly when it is present and fails its rule ([search],
    whose rule counts characters, for a term of the ASCII range); a
    request with an offending parameter is answered with the whole list of
    errors, and a listing answered with data had none. *)
Theorem X7_every_offending_parameter_is_reported found counted q :
  (reports q "page" <-> offends (isInt 1 None) (q_page q))
  /\ (reports q "limit" <-> offends (isInt 1 (Some 100)) (q_limit q))
  /\ (reports q "category" <-> offends (isIn categories) (q_category q))
  /\ (reports q "minPrice" <-> offends isFloatMin0 (q_minPrice q))
  /\ (reports q "maxPrice" <-> offends isFloatMin0 (q_maxPrice q))
  /\ (reports q "sort" <-> offends (isIn sortKeys) (q_sort q))
  /\ ((forall s, q_search q = Some s -> JS.allChars JS.isAscii s = true) ->
      (reports q "search" <-> offends (isLength 1 100) (q_search q)))
  /\ ((exists field, reports q field) ->
      listProductsAt found counted q = ListInvalid (validate q))
  /\ ((exists data pg fl, listProductsAt found counted q = ListOk data pg fl) ->
      forall field, ~ reports q field).
Proof.
  assert (Hin : forall e, In e (validate q) <->
    In e (check "page" "Page must be a positive integer" (isInt 1 None) (q_page q))
    \/ In e (check "limit" "Limit must be between 1 and 100" (isInt 1 (Some 100)) (q_limit q))
    \/ In e (check "category" "Invalid value" (isIn categories) (q_category q))
    \/ In e (check "minPrice" "Min price must be non-negative" isFloatMin0 (q_minPrice q))
    \/ In e (check "maxPrice" "Max price must be non-negative" isFloatMin0 (q_maxPrice q))
    \/ In e (check "sort" "Invalid value" (isIn sortKeys) (q_sort q))
    \/ In e (check "search" "Search term must be between 1 and 100 characters"
               (isLength 1 100) (q_search q))).
  { intros e. unfold validate. rewrite !in_app_iff. tauto. }
  assert (Hfield : forall field,
    reports q field <->
    (field = "page" /\ offends (isInt 1 None) (q_page q))
    \/ (field = "limit" /\ offends (isInt 1 (Some 100)) (q_limit q))
    \/ (field = "category" /\ offends (isIn categories) (q_category q))
    \/ (field = "minPrice" /\ offends isFloatMin0 (q_minPrice q))
    \/ (field = "maxPrice" /\ offends isFloatMin0 (q_maxPrice q))
    \/ (field = "sort" /\ offends (isIn sortKeys) (q_sort q))
    \/ (field = "search" /\ offends (isLength 1 100) (q_search q))).
  { intros field. unfold reports, offends. split.
    - intros (message & He). apply Hin in He. rewrite !In_check in He.
      repeat (destruct He as [([= -> _] & Hs)|He]; [tauto|]).
      destruct He as ([= -> _] & Hs). tauto.
    - intros Hcase.
      repeat (destruct Hcase as [[-> Hs]|Hcase];
              [eexists; apply Hin; rewrite !In_check; eauto 10|]).
      destruct Hcase as [-> Hs]. eexists. apply Hin. rewrite !In_check. eauto 10. }
  repeat split;
    try (intros Hr; apply Hfield in Hr;
         repeat (destruct Hr as [[Hf Hs]|Hr]; [first [discriminate Hf | exact Hs]|]);
         destruct Hr as [Hf Hs]; first [discriminate Hf | exact Hs]);
    try (intros Hs; apply Hfield; tauto).
  - intros (field & message & He). apply listProductsAt_invalid.
    intros Hnil. rewrite Hnil in He. exact He.
  - intros (data & pg & fl & Hl) field (message & He).
    apply listProductsAt_ok in Hl as (Hv & _). rewrite Hv in He. exact He.
Qed.

End ListingErrors.

(** ** The stored product behind a request *)
Section StoredProduct.
Import Query Model Req Routes Concurrent.

Lemma distinct_NoDup l : distinct l = true <-> NoDup l.
Proof.
  induction l as [|x t IH]; cbn.
  - split; [constructor | reflexivity].
  - rewrite andb_true_iff, negb_true_iff, IH, NoDup_cons_iff.
    assert (Hx : existsb (String.eqb x) t = false <-> ~ In x t).
    { rewrite <- not_true_iff_false, existsb_exists. split.
      - intros Hn Hin. apply Hn. exists x. rewrite String.eqb_refl. auto.
      - intros Hn (y & Hin & He). apply String.eqb_eq in He. subst. auto. }
    tauto.
Qed.

(** A product found by a key that is unique in the store splits the store
    around it. *)
Lemma find_split (key : Product -> string) k store p :
  List.find (fun q => (key q =? k)%string) store = Some p ->
  exists l1 l2, store = (l1 ++ p :: l2)%list /\ key p = k
                /\ forall q, In q l1 -> key q <> k.
Proof.
  induction store as [|x t IH]; cbn; [discriminate|].
  destruct (String.eqb_spec (key x) k) as [He|Hne].
  - intros [= <-]. exists [], t. repeat split; [exact He | contradiction].
  - intros Hf. destruct (IH Hf) as (l1 & l2 & -> & Hk & Hl1).
    exists (x :: l1), l2. repeat split; [exact Hk|].
    intros q [<-|Hq]; auto.
Qed.

Lemma split_unique_id store p l1 l2 :
  distinct (map _id store) = true -> store = (l1 ++ p :: l2)%list ->
  forall q, In q l1 \/ In q l2 -> _id q <> _id p.
Proof.
  intros Hd -> q Hq He. apply distinct_NoDup in Hd.
  rewrite map_app in Hd. cbn in Hd. apply NoDup_remove_2 in Hd.
  apply Hd. rewrite <- He, <- map_app. apply in_map, in_app_iff, Hq.
Qed.

Lemma updatedStore_split store d p l1 l2 :
  store = (l1 ++ p :: l2)%list -> _id (val d) = _id p ->
  (forall q, In q l1 \/ In q l2 -> _id q <> _id p) ->
  updatedStore store d = (l1 ++ applyPaths (modified d) (val d) p :: l2)%list.
Proof.
  intros -> Hid Hne. unfold updatedStore. rewrite map_app. cbn [map].
  rewrite Hid, String.eqb_refl. f_equal; [|f_equal].
  - rewrite <- (map_id l1) at 2. apply map_ext_in. intros q Hq.
    destruct (String.eqb_spec (_id q) (_id p)) as [He|_]; [|reflexivity].
    exfalso. apply (Hne q); auto.
  - rewrite <- (map_id l2) at 2. apply map_ext_in. intros q Hq.
    destruct (String.eqb_spec (_id q) (_id p)) as [He|_]; [|reflexivity].
    exfalso. apply (Hne q); auto.
Qed.

Lemma lookup_split store identifier p :
  lookup store identifier = Some p ->
  exists l1 l2, store = (l1 ++ p :: l2)%list.
Proof.
  unfold lookup, findById, findOneBySlug.
  destruct (JS.isObjectIdString identifier); intros Hf;
    apply find_split in Hf as (l1 & l2 & -> & _); eauto.
Qed.

Lemma find_middle (key : Product -> string) k l1 x l2 :
  (forall q, In q l1 -> key q <> k) -> key x = k ->
  List.find (fun q => (key q =? k)%string) (l1 ++ x :: l2) = Some x.
Proof.
  intros Hl1 Hx. induction l1 as [|y t IH]; cbn.
  - rewrite Hx, String.eqb_refl. reflexivity.
  - destruct (String.eqb_spec (key y) k) as [He|_].
    + exfalso. apply (Hl1 y); [left; reflexivity | exact He].
    + apply IH. intros q Hq. apply Hl1. right. exact Hq.
Qed.

Lemma In_exists_id store p :
  In p store -> existsb (fun q => (_id q =? _id p)%string) store = true.
Proof.
  intros Hin. apply existsb_exists. exists p. rewrite String.eqb_refl. auto.
Qed.

End StoredProduct.

(** ** The effect of GET on one product *)
Section GetEffect.
Import Query Model Req Routes Concurrent.
Context `{Slugify}.

(** X8: GET on one product answers 404 and leaves the store as it is when
    no product is found or the product found is inactive.  For an active
    product whose view counter is an integer below
    [Number.MAX_SAFE_INTEGER], an answer 200 carries the product with the
    counter raised by one, and the increment it starts, once its save has
    completed with no other write between, stores exactly that when the
    stored product passes validation: the product is replaced in place,
    every other product and the order of the collection stay; when it
    fails validation, nothing is stored. *)
Theorem X8_get_counts_one_view store identifier :
  distinct (map _id store) = true ->
  ((forall p, lookup store identifier = Some p -> isActive p = false) ->
   getProduct store identifier = (store, notFound))
  /\ (forall p n store' r,
        lookup store identifier = Some p -> isActive p = true ->
        (views (stats p) == inject_Z n)%Q -> 0 <= n < JS.MAX_SAFE_INTEGER ->
        getProduct store identifier = (store', r) -> status r = 200 ->
        data r = Some (bumped Views p)
        /\ exists l1 l2,
             store = (l1 ++ p :: l2)%list
             /\ store' = if valid p then (l1 ++ bumped Views p :: l2)%list else store).
Proof.
  intros Hd. split.
  - intros Hnone. apply getProduct_missing. exact Hnone.
  - intros p n store' r El Ea _ _ Hget _.
    destruct (lookup_split store identifier p El) as (l1 & l2 & Hs).
    unfold getProduct in Hget. fold (lookup store identifier) in Hget.
    rewrite El, Ea in Hget.
    change (incrementViews store (load p)) with (increment Views store (load p)) in Hget.
    rewrite increment_loaded in Hget. cbv zeta in Hget.
    destruct (valid p).
    + rewrite In_exists_id in Hget by (rewrite Hs; apply in_elt).
      erewrite (updatedStore_split store _ p l1 l2 Hs) in Hget;
        [|reflexivity | exact (split_unique_id store p l1 l2 Hd Hs)].
      injection Hget as <- <-. split; [reflexivity|].
      exists l1, l2. split; [exact Hs | reflexivity].
    + injection Hget as <- <-. split; [reflexivity|].
      exists l1, l2. split; [exact Hs | reflexivity].
Qed.

End GetEffect.

(** ** The gate of the write routes, and the effect of DELETE *)
Section WriteEffects.
Import Validator Query Model Req Routes Concurrent Service.
Context `{FloatSyntax} `{Casts} `{Slugify}.

(** X9: the write routes behind the administrator gate do nothing for
    anyone else: without a user the answer is 401, with a user whose role is
    not "admin" it is 403, whatever the body, the identifier or the files,
    and the store is left as it is. *)
Theorem X9_writes_need_an_administrator store user :
  (forall u, user = Some u -> role u <> "admin") ->
  exists r,
    status r = (match user with None => 401 | Some _ => 403 end)
    /\ success r = false /\ data r = None
    /\ (forall newId now files body,
          createProduct store user newId now files body = (store, r))
    /\ (forall id body, updateProduct store user id body = (store, r))
    /\ (forall id, deleteProduct store user id = (store, r)).
Proof.
  intros Hrole. unfold createProduct, updateProduct, deleteProduct, admin.
  destruct user as [u|].
  - destruct (String.eqb_spec (role u) "admin") as [He|_].
    + exfalso. exact (Hrole u eq_refl He).
    + exists (reply 403 false "Access denied. Admin privileges required.").
      repeat split.
  - exists (reply 401 false "Access denied. Authentication required.").
    repeat split.
Qed.

(** Neither [isActive] nor [updatedBy] carries a validator. *)
Lemma validates_deleted p who :
  validates
    (assignPath "updatedBy" (setUpdatedBy who)
       (assignIfChanged Bool.eqb "isActive" (isActive p) setIsActive false (load p)))
  = valid p.
Proof. unfold assignIfChanged. destruct (isActive p); reflexivity. Qed.

Lemma deleteProduct_effect store u id p l1 l2 :
  role u = "admin" -> JS.isObjectIdString id = true ->
  findById store id = Some p -> valid p = true -> store = (l1 ++ p :: l2)%list ->
  (forall q, In q l1 \/ In q l2 -> _id q <> _id p) ->
  deleteProduct store (Some u) id
  = ((l1 ++ setUpdatedBy (Some (uid u)) (setIsActive false p) :: l2)%list,
     reply 200 true "Product deleted successfully").
Proof.
  intros Hr Ho Hf Hv Hs Hne.
  unfold deleteProduct, admin, findByParam. rewrite Hr, Ho, Hf. cbn [String.eqb Ascii.eqb].
  unfold saveDeleted, save. rewrite validates_deleted, Hv. cbn [negb].
  unfold assignIfChanged.
  pose proof (In_exists_id store p) as Hex.
  rewrite Hs in Hex at 1. specialize (Hex (in_elt _ _ _)).
  destruct (isActive p) eqn:Ea; cbn; rewrite Hex; cbn.
  all: erewrite (updatedStore_split store _ p l1 l2 Hs); [|reflexivity|exact Hne].
  all: cbn; repeat f_equal.
  destruct p; cbn in *; subst; reflexivity.
Qed.

(** The save of DELETE fails when the stored product fails validation. *)
Lemma deleteProduct_invalid store u id p :
  role u = "admin" -> JS.isObjectIdString id = true ->
  findById store id = Some p -> valid p = false ->
  deleteProduct store (Some u) id
  = (store, serverError "Server error while deleting product").
Proof.
  intros Hr Ho Hf Hv.
  unfold deleteProduct, admin, findByParam. rewrite Hr, Ho, Hf. cbn [String.eqb Ascii.eqb].
  unfold saveDeleted, save. rewrite validates_deleted, Hv. reflexivity.
Qed.

(** X10: DELETE by an administrator, for an identifier of 24 hexadecimal
    digits, answers 404 when no product has it; when the product found
    fails validation, the save is refused, the answer is 500 and the
    product stays as it was, active if it was; when it passes, the answer
    is 200: the product found, active or not, is replaced in place by
    itself with [isActive] false and [updatedBy] the acting user, nothing
    else changes, and a second DELETE by the same user answers 200 again
    and leaves the store as the first one did. *)
Theorem X10_soft_delete_effect store u id :
  distinct (map _id store) = true -> role u = "admin" ->
  JS.isObjectIdString id = true ->
  (findById store id = None -> deleteProduct store (Some u) id = (store, notFound))
  /\ (forall p, findById store id = Some p -> valid p = false ->
      deleteProduct store (Some u) id
      = (store, serverError "Server error while deleting product"))
  /\ (forall p, findById store id = Some p -> valid p = true ->
      exists l1 l2 store',
        store = (l1 ++ p :: l2)%list
        /\ store' = (l1 ++ setUpdatedBy (Some (uid u)) (setIsActive false p) :: l2)%list
        /\ deleteProduct store (Some u) id
           = (store', reply 200 true "Product deleted successfully")
        /\ deleteProduct store' (Some u) id
           = (store', reply 200 true "Product deleted successfully")).
Proof.
  intros Hd Hr Ho. repeat split.
  - intros Hf. unfold deleteProduct, admin, findByParam. rewrite Hr, Ho, Hf.
    reflexivity.
  - intros p Hf Hv. apply (deleteProduct_invalid store u id p); assumption.
  - intros p Hf Hv. pose proof Hf as Hfind. unfold findById in Hfind.
    apply find_split in Hfind as (l1 & l2 & Hs & Hk & Hl1).
    pose proof (split_unique_id store p l1 l2 Hd Hs) as Hne.
    exists l1, l2. eexists. split; [exact Hs|]. split; [reflexivity|]. split.
    + apply deleteProduct_effect; assumption.
    + set (p' := setUpdatedBy (Some (uid u)) (setIsActive false p)).
      rewrite (deleteProduct_effect (l1 ++ p' :: l2)%list u id p' l1 l2);
        try assumption; try reflexivity.
      * unfold findById. apply find_middle; assumption.
Qed.

End WriteEffects.

(** ** Loaded documents and what is stored of them *)
Section TrackingProperties.
Import Query Model Req Routes Tracking.

Ltac by_key :=
  repeat match goal with
    | |- context [if (?k =? ?lit)%string then _ else _] =>
        destruct (String.eqb_spec k lit); [subst|]
    end.

Ltac other_keys :=
  repeat match goal with
    | Hn : ?k <> ?lit |- context [(?lit =? ?k)%string] =>
        rewrite (proj2 (String.eqb_neq lit k)) by congruence
    end.

Lemma copyPath_written path paths src dst :
  ~ In path ["stats.views"; "stats.downloads"; "stats.sales"] ->
  copyPath path src (written paths src dst) = written (path :: paths) src dst.
Proof.
  intros Hp. unfold copyPath. by_key;
    try (exfalso; apply Hp; cbn; tauto);
    try reflexivity.
  unfold written, pick. cbn [existsb]. other_keys. reflexivity.
Qed.

Lemma applyPaths_written paths src dst :
  (forall path, In path paths ->
     ~ In path ["stats.views"; "stats.downloads"; "stats.sales"]) ->
  applyPaths paths src dst = written paths src dst.
Proof.
  induction paths as [|path t IH]; intros Hp.
  - destruct dst; reflexivity.
  - cbn [applyPaths fold_right]. fold (applyPaths t src dst).
    rewrite IH by (intros; apply Hp; right; assumption).
    apply copyPath_written. apply Hp. left. reflexivity.
Qed.

Lemma pick_tracked {A : Type} path d (current stored : A) :
  tracked path d current stored -> pick path (modified d) current stored = current.
Proof.
  intros Ht. unfold pick. destruct (existsb _ _) eqn:Ex; [reflexivity|].
  destruct Ht as [Hin|He]; [|auto].
  assert (Htrue : existsb (String.eqb path) (modified d) = true).
  { apply existsb_exists. exists path. rewrite String.eqb_refl. auto. }
  congruence.
Qed.

(** What the store holds after the update of a tracked document is the
    document itself. *)
Lemma Tracks_stored p d :
  Tracks p d -> applyPaths (modified d) (val d) p = val d.
Proof.
  intros T. rewrite applyPaths_written.
  - unfold written. destruct T.
    rewrite !pick_tracked by assumption.
    rewrite <- tr_id0, <- tr_createdAt0. destruct (val d); reflexivity.
  - intros path Hin Hc. apply (tr_paths _ _ T) in Hin.
    cbn in Hin, Hc.
    repeat (destruct Hin as [<-|Hin];
            [repeat (destruct Hc as [Hc|Hc]; [discriminate Hc|]); exact Hc|]).
    exact Hin.
Qed.

Lemma Tracks_load p : Tracks p (load p).
Proof. split; cbn; unfold tracked; auto. contradiction. Qed.

Lemma tracked_more {A : Type} path path' f d (current stored : A) :
  tracked path d current stored ->
  tracked path (assignPath path' f d) current stored.
Proof. intros [Hin|He]; [left; right; exact Hin | right; exact He]. Qed.

Lemma tracked_here {A : Type} path f d (current stored : A) :
  tracked path (assignPath path f d) current stored.
Proof. left. left. reflexivity. Qed.

Lemma Tracks_failCast p d : Tracks p d -> Tracks p (failCast d).
Proof. intros T. destruct T. split; assumption. Qed.

(** An assignment to one path of a tracked document. *)
Lemma Tracks_assignPath p d path f :
  Tracks p d -> In path assignable ->
  (forall x, _id (f x) = _id x) -> (forall x, createdAt (f x) = createdAt x) ->
  (path <> "name" -> forall x, name (f x) = name x) ->
  (path <> "slug" -> forall x, slug (f x) = slug x) ->
  (path <> "description" -> forall x, description (f x) = description x) ->
  (path <> "price" -> forall x, price (f x) = price x) ->
  (path <> "category" -> forall x, category (f x) = category x) ->
  (path <> "tags" -> forall x, tags (f x) = tags x) ->
  (path <> "images" -> forall x, images (f x) = images x) ->
  (path <> "isActive" -> forall x, isActive (f x) = isActive x) ->
  (path <> "isFeatured" -> forall x, isFeatured (f x) = isFeatured x) ->
  (path <> "stats" -> forall x, stats (f x) = stats x) ->
  (path <> "createdBy" -> forall x, createdBy (f x) = createdBy x) ->
  (path <> "updatedBy" -> forall x, updatedBy (f x) = updatedBy x) ->
  Tracks p (assignPath path f d).
Proof.
  intros T Hin Hid Hat Hname Hslug Hdesc Hprice Hcat Htags Himg Hact Hfeat Hstats Hcb Hub.
  destruct T.
  split; cbn [val isNew modified assignPath]; try assumption.
  - rewrite Hid. assumption.
  - rewrite Hat. assumption.
  - destruct (string_dec path "name") as [->|Hn]; [apply tracked_here|].
    rewrite Hname by assumption. apply tracked_more. assumption.
  - destruct (string_dec path "slug") as [->|Hn]; [apply tracked_here|].
    rewrite Hslug by assumption. apply tracked_more. assumption.
  - destruct (string_dec path "description") as [->|Hn]; [apply tracked_here|].
    rewrite Hdesc by assumption. apply tracked_more. assumption.
  - destruct (string_dec path "price") as [->|Hn]; [apply tracked_here|].
    rewrite Hprice by assumption. apply tracked_more. assumption.
  - destruct (string_dec path "category") as [->|Hn]; [apply tracked_here|].
    rewrite Hcat by assumption. apply tracked_more. assumption.
  - destruct (string_dec path "tags") as [->|Hn]; [apply tracked_here|].
    rewrite Htags by assumption. apply tracked_more. assumption.
  - destruct (string_dec path "images") as [->|Hn]; [apply tracked_here|].
    rewrite Himg by assumption. apply tracked_more. assumption.
  - destruct (string_dec path "isActive") as [->|Hn]; [apply tracked_here|].
    rewrite Hact by assumption. apply tracked_more. assumption.
  - destruct (string_dec path "isFeatured") as [->|Hn]; [apply tracked_here|].
    rewrite Hfeat by assumption. apply tracked_more. assumption.
  - destruct (string_dec path "stats") as [->|Hn]; [apply tracked_here|].
    rewrite Hstats by assumption. apply tracked_more. assumption.
  - destruct (string_dec path "createdBy") as [->|Hn]; [apply tracked_here|].
    rewrite Hcb by assumption. apply tracked_more. assumption.
  - destruct (string_dec path "updatedBy") as [->|Hn]; [apply tracked_here|].
    rewrite Hub by assumption. apply tracked_more. assumption.
  - intros path' [<-|Hp]; auto.
Qed.

Ltac setter :=
  apply Tracks_assignPath;
  [ assumption | cbn; tauto | .. ];
  try reflexivity;
  try (intros Hne x; first [reflexivity | contradiction Hne; reflexivity]).

Lemma Tracks_assign `{Casts} p key v d : Tracks p d -> Tracks p (assign key v d).
Proof.
  intros T. unfold assign. by_key; try assumption;
    unfold assignCast;
    match goal with
    | |- context [match ?c with Some _ => _ | None => _ end] => destruct c
    end;
    try (apply Tracks_failCast; assumption);
    unfold assignIfChanged;
    repeat match goal with
      | |- context [if ?b then _ else _] => destruct b eqn:?
      end;
    try assumption;
    try (apply Tracks_failCast; assumption);
    try setter.
  rewrite (tr_isNew _ _ T) in *. discriminate.
Qed.

Lemma Tracks_assignAll `{Casts} p body : forall d,
  Tracks p d -> Tracks p (assignAll body d).
Proof.
  unfold assignAll. induction body as [|[key v] t IH]; intros d T; cbn [fold_left].
  - exact T.
  - apply IH. apply Tracks_assign. exact T.
Qed.

Lemma Tracks_hooks `{Slugify} p d :
  Tracks p d -> Tracks p (primaryImageHook (slugHook d)).
Proof.
  intros T.
  assert (T1 : Tracks p (slugHook d)).
  { unfold slugHook. destruct (isModified "name" d); [setter | exact T]. }
  clear T. revert T1. generalize (slugHook d). clear d. intros d T.
  unfold primaryImageHook.
  repeat match goal with
    | |- context [if ?b then _ else _] => destruct b
    end; try exact T; setter.
Qed.

End TrackingProperties.

(** ** The effect of PUT *)
Section UpdateEffect.
Import Validator Query Model Req Routes Tracking.
Context `{FloatSyntax} `{Casts} `{Slugify}.

Lemma save_stored store d :
  isNew d = false -> modified d <> [] -> snd (save store d) = None ->
  save store d
  = (updatedStore store (primaryImageHook (slugHook d)),
     persisted (primaryImageHook (slugHook d)), None).
Proof.
  intros Hn Hm. unfold save.
  pose proof (hooks_keep d) as K.
  set (dh := primaryImageHook (slugHook d)) in *.
  destruct (negb (validates d)); [discriminate|].
  rewrite (kept_isNew _ _ _ K), Hn.
  destruct (modified dh) eqn:Em.
  - exfalso. destruct (modified d) as [|path t] eqn:Ed; [contradiction|].
    assert (Hin : In path (modified dh)).
    { apply hooks_modified. rewrite Ed. left. reflexivity. }
    rewrite Em in Hin. contradiction.
  - destruct (_ && _); [discriminate|].
    destruct (negb _); [discriminate|]. reflexivity.
Qed.

Lemma primaryImageHook_text d :
  name (val (primaryImageHook d)) = name (val d)
  /\ slug (val (primaryImageHook d)) = slug (val d)
  /\ updatedBy (val (primaryImageHook d)) = updatedBy (val d)
  /\ createdBy (val (primaryImageHook d)) = createdBy (val d).
Proof.
  unfold primaryImageHook.
  repeat match goal with
    | |- context [if ?b then _ else _] => destruct b
    end; repeat split.
Qed.

Lemma slugHook_text d :
  name (val (slugHook d)) = name (val d)
  /\ updatedBy (val (slugHook d)) = updatedBy (val d)
  /\ createdBy (val (slugHook d)) = createdBy (val d)
  /\ images (val (slugHook d)) = images (val d)
  /\ (isModified "name" d = true -> slug (val (slugHook d)) = slugify (name (val d))).
Proof.
  unfold slugHook. destruct (isModified "name" d); repeat split; discriminate.
Qed.

(** After the hooks of a save, the slug of a document whose name was
    assigned is the slug of its name. *)
Lemma hooks_slug d :
  isModified "name" d = true ->
  slug (val (primaryImageHook (slugHook d)))
  = slugify (name (val (primaryImageHook (slugHook d)))).
Proof.
  intros Hm.
  destruct (primaryImageHook_text (slugHook d)) as (-> & -> & _).
  destruct (slugHook_text d) as (-> & _ & _ & _ & Hs). exact (Hs Hm).
Qed.

Lemma In_isModified path d : In path (modified d) -> isModified path d = true.
Proof.
  intros Hin. unfold isModified. apply existsb_exists.
  exists path. rewrite String.eqb_refl. auto.
Qed.


End UpdateEffect.

(** ** The effect of POST *)
Section CreateEffect.
Import Validator Query Model Req Routes Tracking.
Context `{FloatSyntax} `{Casts} `{Slugify}.

Ltac by_key :=
  repeat match goal with
    | |- context [if (?k =? ?lit)%string then _ else _] =>
        destruct (String.eqb_spec k lit); [subst|]
    end.

(** The hooks of a save write the slug and the images, nothing else. *)
Lemma hooks_val d :
  exists s imgs, val (primaryImageHook (slugHook d)) = setImages imgs (setSlug s (val d)).
Proof.
  assert (Hs : exists s, val (slugHook d) = setSlug s (val d)
                         /\ images (val (slugHook d)) = images (val d)).
  { unfold slugHook. destruct (isModified "name" d).
    - eexists. split; reflexivity.
    - exists (slug (val d)). split; [destruct (val d)|]; reflexivity. }
  destruct Hs as (s & Hs & Hi). exists s.
  unfold primaryImageHook.
  repeat match goal with
    | |- context [if ?b then _ else _] => destruct b
    end; cbn [val assignPath]; rewrite Hs;
    try (eexists; reflexivity).
  all: exists (images (val d)); destruct (val d); reflexivity.
Qed.

Lemma save_created store d :
  isNew d = true -> snd (save store d) = None ->
  let dh := primaryImageHook (slugHook d) in
  validates d = true
  /\ existsb (fun q => (_id q =? _id (val dh))%string || (slug q =? slug (val dh))%string)
       store = false
  /\ save store d = ((store ++ [val dh])%list, persisted dh, None).
Proof.
  intros Hn. unfold save.
  pose proof (hooks_keep d) as K.
  set (dh := primaryImageHook (slugHook d)) in *.
  destruct (validates d); cbn [negb]; [|discriminate].
  rewrite (kept_isNew _ _ _ K), Hn.
  destruct (existsb _ store); [discriminate|]. intros _. auto.
Qed.

(** The name of a new document is the default one until it is assigned. *)
Lemma assign_name key v d stored :
  tracked "name" d (name (val d)) stored ->
  tracked "name" (assign key v d) (name (val (assign key v d))) stored.
Proof.
  intros T. unfold assign. by_key; try assumption;
    unfold assignCast;
    match goal with
    | |- context [match ?c with Some _ => _ | None => _ end] => destruct c
    end;
    try assumption;
    unfold assignIfChanged;
    repeat match goal with
      | |- context [if ?b then _ else _] => destruct b eqn:?
      end;
    try assumption;
    try apply tracked_here;
    try (apply tracked_more; assumption).
Qed.

Lemma assignAll_name body stored : forall d,
  tracked "name" d (name (val d)) stored ->
  tracked "name" (assignAll body d) (name (val (assignAll body d))) stored.
Proof.
  unfold assignAll. induction body as [|[key v] t IH]; intros d T; cbn [fold_left].
  - exact T.
  - apply IH. apply assign_name. exact T.
Qed.

Lemma mapFrom_url {A : Type} (f : A -> nat -> Image) (g : A -> string) l : forall index,
  (forall x i, url (f x i) = g x) ->
  map url (JS.mapFrom index f l) = map g l.
Proof.
  induction l as [|x t IH]; intros index Hf; cbn; [reflexivity|].
  rewrite Hf, IH by assumption. reflexivity.
Qed.

Lemma uploaded_later productName files : forall index,
  filter isPrimary
    (JS.mapFrom (S index)
       (fun path i =>
          {| url := path;
             alt := productName ++ " - Image " ++ JS.decimal (i + 1);
             isPrimary := (i =? 0)%nat |}) files) = [].
Proof.
  induction files as [|x t IH]; intros index; cbn; [reflexivity|]. apply IH.
Qed.

Lemma uploaded_primary productName file files :
  exists first rest,
    uploaded productName (file :: files) = first :: rest
    /\ isPrimary first = true
    /\ filter isPrimary (uploaded productName (file :: files)) = [first]
    /\ map url (uploaded productName (file :: files)) = file :: files.
Proof.
  unfold uploaded, JS.mapIndexed. cbn [JS.mapFrom].
  eexists. eexists. split; [reflexivity|]. split; [reflexivity|]. split.
  - cbn [filter isPrimary Nat.eqb]. rewrite uploaded_later. reflexivity.
  - cbn [map url]. f_equal.
    rewrite (mapFrom_url _ (fun x => x)) by reflexivity. apply map_id.
Qed.

Lemma primaryImageHook_one d :
  List.length (filter isPrimary (images (val d))) = 1%nat ->
  primaryImageHook d = d.
Proof.
  intros Hone. unfold primaryImageHook. rewrite Hone. cbn.
  destruct (isModified "images" d); reflexivity.
Qed.

Lemma validates_required d path :
  validates d = true -> In path validatedPaths -> validPath path (val d) = true.
Proof.
  unfold validates, valid. intros Hv Hin.
  apply andb_prop in Hv as [_ Hall]. rewrite forallb_forall in Hall.
  apply Hall. exact Hin.
Qed.

(** The save of a new document whose last assignment is [createdBy]. *)
Lemma created_effect store creator d2 :
  isNew d2 = true -> tracked "name" d2 (name (val d2)) "" ->
  let d3 := assignPath "createdBy" (setCreatedBy creator) d2 in
  status (snd (saveCreated store d3)) = 201 ->
  exists p,
    saveCreated store d3
    = ((store ++ [p])%list, replyData 201 "Product created successfully" p)
    /\ createdBy p = creator
    /\ name p <> "" /\ (String.length (name p) <= 100)%nat
    /\ slug p = slugify (name p)
    /\ (0 <= price p)%Q
    /\ In (category p) categories
    /\ (forall q, In q store -> _id q <> _id p /\ slug q <> slug p)
    /\ (isModified "images" d2 = true ->
        List.length (filter isPrimary (images (val d2))) = 1%nat ->
        images p = images (val d2)).
Proof.
  intros Hn Hname d3.
  pose proof (save_created store d3 Hn) as Hsave.
  unfold saveCreated.
  destruct (save store d3) as [[s' d'] [[]|]] eqn:Es; try discriminate.
  intros _. destruct (Hsave eq_refl) as (Hv & Hex & Heq). clear Hsave.
  injection Heq as -> ->.
  set (dh := primaryImageHook (slugHook d3)) in *.
  destruct (hooks_val d3) as (s & imgs & Hval). fold dh in Hval.
  exists (val dh). split; [reflexivity|].
  pose proof (validates_required d3 "name" Hv ltac:(cbn; tauto)) as Vname.
  pose proof (validates_required d3 "price" Hv ltac:(cbn; tauto)) as Vprice.
  pose proof (validates_required d3 "category" Hv ltac:(cbn; tauto)) as Vcat.
  cbn in Vname, Vprice.
  change (validPath "category" (val d3)) with (isIn categories (category (val d2)))
    in Vcat.
  apply andb_prop in Vname as [Vne Vlen].
  apply negb_true_iff in Vne. apply String.eqb_neq in Vne. apply Nat.leb_le in Vlen.
  apply Qle_bool_iff in Vprice.
  assert (Hmod : isModified "name" d3 = true).
  { apply In_isModified. right. destruct Hname as [Hin|He]; [exact Hin|].
    contradiction. }
  repeat split.
  - rewrite Hval. reflexivity.
  - rewrite Hval. exact Vne.
  - rewrite Hval. exact Vlen.
  - apply hooks_slug. exact Hmod.
  - rewrite Hval. exact Vprice.
  - rewrite Hval. cbn [category setImages setSlug].
    unfold isIn in Vcat. apply existsb_exists in Vcat as (c & Hc & He).
    apply String.eqb_eq in He. subst c. exact Hc.
  - intros He. apply not_true_iff_false in Hex. apply Hex.
    apply existsb_exists. exists q. split; [assumption|].
    rewrite He, String.eqb_refl. reflexivity.
  - intros He. apply not_true_iff_false in Hex. apply Hex.
    apply existsb_exists. exists q. split; [assumption|].
    rewrite He, String.eqb_refl. apply orb_true_r.
  - intros Himg Hone. subst dh.
    destruct (slugHook_text d3) as (_ & _ & _ & Hi & _).
    rewrite primaryImageHook_one; [exact Hi|]. rewrite Hi. exact Hone.
Qed.

Lemma isNew_assignAll body d : isNew (assignAll body d) = isNew d.
Proof. exact (kept_isNew _ _ _ (assignAll_keeps body d)). Qed.

(** X12: a POST answered with 201 appends exactly the product of the
    response to the store.  That product was created by the acting user
    whatever the body says, has a non-empty name of at most 100 characters,
    the slug of that name (a slug in the body is ignored), a non-negative
    price and a category of the schema, and no stored product has its
    identifier or its slug.  When files were uploaded its images are the
    uploaded files in order, the first one and only the first one primary. *)
Theorem X12_created_product store u newId now files body :
  status (snd (createProduct store (Some u) newId now files body)) = 201 ->
  exists p,
    createProduct store (Some u) newId now files body
    = ((store ++ [p])%list, replyData 201 "Product created successfully" p)
    /\ createdBy p = uid u
    /\ name p <> "" /\ (String.length (name p) <= 100)%nat
    /\ slug p = slugify (name p)
    /\ (0 <= price p)%Q
    /\ In (category p) categories
    /\ (forall q, In q store -> _id q <> _id p /\ slug q <> slug p)
    /\ (files <> [] ->
        map url (images p) = files
        /\ primaryCount (images p) = 1%nat
        /\ exists first rest, images p = first :: rest /\ isPrimary first = true).
Proof.
  unfold createProduct, admin.
  destruct (role u =? "admin")%string; [|discriminate].
  set (body' := trimmed "description" (trimmed "name" body)).
  destruct (validateBody false body'); [|discriminate].
  destruct files as [|file files];
  destruct (parseArray (get "tags" body')) as [|tagList|] eqn:Etags;
    destruct (parseArray (get "features" body')) eqn:Efeatures;
    destruct (parseArray (get "techStack" body')) eqn:Etech;
    try discriminate.
  all: cbv beta iota.
  all: intros Hst;
    match type of Hst with
    | context [saveCreated _ (assignPath "createdBy" _ ?d)] =>
        destruct (created_effect store (uid u) d) as (p & Heq & Hrest);
          [ | | exact Hst | ]
    end.
  all: try (cbn [isNew assignPath]; rewrite isNew_assignAll; reflexivity).
  all: try (cbn [name val assignPath setTags setImages];
            repeat apply tracked_more; apply assignAll_name; right; reflexivity).
  all: exists p;
    destruct Hrest as (Hc & Hn1 & Hn2 & Hslug & Hprice & Hcat & Huniq & Himgs).
  all: repeat (split; [assumption|]).
  all: intros Hfiles; try (contradiction Hfiles; reflexivity).
  all: destruct (uploaded_primary (fieldString "name" body') file files)
         as (first & rest & Hup & Hfirst & Hfilter & Hurl).
  all: rewrite Himgs;
    [ | apply In_isModified; cbn [modified assignPath]; cbn; tauto
      | cbn [images val assignPath setTags setImages]; rewrite Hfilter; reflexivity ].
  all: cbn [images val assignPath setTags setImages].
  all: unfold primaryCount; rewrite Hfilter, Hurl, Hup.
  all: split; [reflexivity|]; split; [reflexivity|].
  all: exists first, rest; split; [reflexivity | exact Hfirst].
Qed.

End CreateEffect.

(** ** What every sequence of requests maintains *)
Section StoreInvariants.
Import Validator Query Model Req Routes Service Invariants.
Context `{FloatSyntax} `{Casts} `{Slugify}.

Lemma apply_saves store op : Saves store (apply store op).
Proof.
  destruct op as [q|identifier|user newId now files body|user id body|user id];
    cbn [apply].
  - left. reflexivity.
  - unfold getProduct.
    destruct (if JS.isObjectIdString identifier then _ else _) as [p|];
      [|left; reflexivity].
    destruct (isActive p); [|left; reflexivity].
    unfold incrementViews.
    match goal with |- context [save store ?d] => set (d1 := d) end.
    right. exists d1. destruct (save store d1) as [[s' d'] e]. reflexivity.
  - unfold createProduct.
    destruct (admin user); [left; reflexivity|].
    destruct user; [|left; reflexivity].
    destruct (validateBody false _); [|left; reflexivity].
    repeat match goal with
      | |- context [match parseArray ?v with _ => _ end] => destruct (parseArray v)
      end; try (left; reflexivity).
    all: match goal with |- context [saveCreated _ ?d] => set (d1 := d) end.
    all: destruct (fst_saveCreated store d1) as [->| ->];
      [left; reflexivity | right; exists d1; reflexivity].
  - unfold updateProduct.
    destruct (admin user); [left; reflexivity|].
    destruct user; [|left; reflexivity].
    destruct (validateBody true _); [|left; reflexivity].
    destruct (findByParam store id) as [[p|]|]; try (left; reflexivity).
    match goal with |- context [saveUpdated store ?d] => set (d1 := d) end.
    unfold saveUpdated. destruct (save store d1) as [[s' d'] [e|]] eqn:Es;
      [left; reflexivity|].
    right. exists d1. rewrite Es. reflexivity.
  - unfold deleteProduct.
    destruct (admin user); [left; reflexivity|].
    destruct user; [|left; reflexivity].
    destruct (findByParam store id) as [[p|]|]; try (left; reflexivity).
    match goal with |- context [saveDeleted store ?d] => set (d1 := d) end.
    destruct (fst_saveDeleted store d1) as [->| ->];
      [left; reflexivity | right; exists d1; reflexivity].
Qed.

Lemma map_id_updatedStore store d :
  map _id (updatedStore store d) = map _id store.
Proof.
  unfold updatedStore. rewrite map_map. apply map_ext. intros q.
  destruct (_id q =? _id (val d))%string; [apply applyPaths_id | reflexivity].
Qed.

Lemma NoDup_snoc {A : Type} (x : A) l : NoDup l -> ~ In x l -> NoDup (l ++ [x]).
Proof.
  intros Hl Hx. apply (Permutation_NoDup (l := x :: l)).
  - apply Permutation_cons_append.
  - constructor; assumption.
Qed.

Lemma applyPaths_slug_in paths src dst :
  In "slug" paths -> slug (applyPaths paths src dst) = slug src.
Proof.
  induction paths as [|path t IH]; [contradiction|].
  intros Hin. cbn [applyPaths fold_right]. fold (applyPaths t src dst).
  destruct (string_dec path "slug") as [->|Hne].
  - reflexivity.
  - rewrite copyPath_slug by assumption. apply IH.
    destruct Hin as [He|Hin]; [contradiction | exact Hin].
Qed.

Lemma NoDup_rekeyed id s store :
  NoDup (map _id store) -> NoDup (map slug store) ->
  (forall q, In q store -> _id q <> id -> slug q <> s) ->
  NoDup (map (fun q => if (_id q =? id)%string then s else slug q) store).
Proof.
  induction store as [|x t IH]; cbn [map]; intros Hi Hs Hother; [constructor|].
  apply NoDup_cons_iff in Hi as [Hix Hit]. apply NoDup_cons_iff in Hs as [Hsx Hst].
  assert (IHt := IH Hit Hst (fun q Hq => Hother q (or_intror Hq))).
  destruct (String.eqb_spec (_id x) id) as [He|Hne].
  - assert (Hsame : map (fun q => if (_id q =? id)%string then s else slug q) t
                    = map slug t).
    { apply map_ext_in. intros q Hq.
      destruct (String.eqb_spec (_id q) id) as [Hq'|_]; [|reflexivity].
      exfalso. apply Hix. rewrite He, <- Hq'. apply in_map. exact Hq. }
    rewrite Hsame. constructor; [|exact Hst].
    intros Hin. apply in_map_iff in Hin as (q & Hq & Hin).
    assert (Hqid : _id q <> id).
    { intros Hq'. apply Hix. rewrite He, <- Hq'. apply in_map. exact Hin. }
    exact (Hother q (or_intror Hin) Hqid Hq).
  - constructor; [|exact IHt].
    intros Hin. apply in_map_iff in Hin as (q & Hq & Hin).
    destruct (String.eqb_spec (_id q) id) as [_|Hqid].
    + apply (Hother x (or_introl eq_refl) Hne). symmetry. exact Hq.
    + apply Hsx. rewrite <- Hq. apply in_map. exact Hin.
Qed.

(** One save keeps the identifiers and the slugs of the store unique. *)
Lemma save_unique store d :
  NoDup (map _id store) -> NoDup (map slug store) ->
  NoDup (map _id (fst (fst (save store d))))
  /\ NoDup (map slug (fst (fst (save store d)))).
Proof.
  intros Hi Hs. unfold save.
  set (dh := primaryImageHook (slugHook d)).
  destruct (negb (validates d)); [auto|].
  destruct (isNew dh).
  - destruct (existsb _ store) eqn:Ex; [auto|]. cbn [fst].
    rewrite !map_app. cbn [map].
    assert (Hnone : forall q, In q store ->
              _id q <> _id (val dh) /\ slug q <> slug (val dh)).
    { intros q Hq.
      assert (Hq' : (_id q =? _id (val dh))%string || (slug q =? slug (val dh))%string
                    = false).
      { apply not_true_iff_false. intros Ht.
        apply not_true_iff_false in Ex. apply Ex.
        apply existsb_exists. exists q. auto. }
      apply orb_false_elim in Hq' as [Ha Hb].
      apply String.eqb_neq in Ha, Hb. auto. }
    split; apply NoDup_snoc; try assumption.
    + intros Hin. apply in_map_iff in Hin as (q & He & Hq).
      exact (proj1 (Hnone q Hq) He).
    + intros Hin. apply in_map_iff in Hin as (q & He & Hq).
      exact (proj2 (Hnone q Hq) He).
  - destruct (modified dh) eqn:Em; [auto|]. clear Em.
    destruct (isModified "slug" dh && _) eqn:Edup; [auto|].
    destruct (negb _); [auto|]. cbn [fst].
    rewrite map_id_updatedStore. split; [exact Hi|].
    unfold updatedStore. rewrite map_map.
    destruct (isModified "slug" dh) eqn:Eslug.
    + cbn [andb] in Edup.
      assert (Hin : In "slug" (modified dh)).
      { unfold isModified in Eslug. apply existsb_exists in Eslug as (x & Hx & He).
        apply String.eqb_eq in He. subst x. exact Hx. }
      rewrite (map_ext _ (fun q => if (_id q =? _id (val dh))%string
                                   then slug (val dh) else slug q)).
      * apply NoDup_rekeyed; try assumption.
        intros q Hq Hid Hslug.
        apply not_true_iff_false in Edup. apply Edup.
        apply existsb_exists. exists q. split; [exact Hq|].
        apply String.eqb_neq in Hid. rewrite Hid, Hslug, String.eqb_refl. reflexivity.
      * intros q. destruct (_id q =? _id (val dh))%string; [|reflexivity].
        apply applyPaths_slug_in. exact Hin.
    + rewrite (map_ext _ slug); [exact Hs|].
      intros q. destruct (_id q =? _id (val dh))%string; [|reflexivity].
      apply applyPaths_slug. intros Hin.
      apply In_isModified in Hin. congruence.
Qed.

(** X13: the primary key and the unique index on the slug hold after
    every sequence of requests: listing, reading, creating, updating and
    soft-deleting products never leaves two stored products with the same
    identifier or the same slug. *)
Theorem X13_unique_indexes_are_maintained ops : forall store,
  distinct (map _id store) = true -> distinct (map slug store) = true ->
  distinct (map _id (applyAll ops store)) = true
  /\ distinct (map slug (applyAll ops store)) = true.
Proof.
  unfold applyAll. induction ops as [|op t IH]; intros store Hi Hs; cbn [fold_left].
  - auto.
  - assert (Hstep : distinct (map _id (apply store op)) = true
                    /\ distinct (map slug (apply store op)) = true).
    { destruct (apply_saves store op) as [->|(d & ->)]; [auto|].
      rewrite !distinct_NoDup in *. apply save_unique; assumption. }
    destruct Hstep. apply IH; assumption.
Qed.

(** One save keeps every stored identifier at its place and adds at most
    one product, at the end. *)
Lemma save_appends store d :
  exists added,
    map _id (fst (fst (save store d))) = (map _id store ++ added)%list
    /\ (List.length added <= 1)%nat.
Proof.
  destruct (save_cases store d) as [->|[(_ & -> & _)|(_ & _ & ->)]].
  - exists []. rewrite app_nil_r. split; [reflexivity | cbn; lia].
  - eexists [_]. rewrite map_app. split; [reflexivity | cbn; lia].
  - exists []. rewrite app_nil_r, map_id_updatedStore. split; [reflexivity | cbn; lia].
Qed.

(** X14: no request removes a product or changes an identifier: after any
    sequence of requests the identifiers of the products stored before are
    still there, in the same order, followed by those of the products
    created since, at most one per request. *)
Theorem X14_products_are_never_removed ops : forall store,
  exists added,
    map _id (applyAll ops store) = (map _id store ++ added)%list
    /\ (List.length added <= List.length ops)%nat.
Proof.
  unfold applyAll. induction ops as [|op t IH]; intros store; cbn [fold_left].
  - exists []. rewrite app_nil_r. split; [reflexivity | cbn; lia].
  - destruct (IH (apply store op)) as (later & -> & Hlater).
    assert (Hstep : exists added,
              map _id (apply store op) = (map _id store ++ added)%list
              /\ (List.length added <= 1)%nat).
    { destruct (apply_saves store op) as [->|(d & ->)].
      - exists []. rewrite app_nil_r. split; [reflexivity | cbn; lia].
      - apply save_appends. }
    destruct Hstep as (added & -> & Hadded).
    exists (added ++ later)%list. rewrite <- app_assoc. split; [reflexivity|].
    rewrite length_app. cbn [List.length]. lia.
Qed.

End StoreInvariants.

(** ** Virtuals and statics *)
Section VirtualProperties.
Import Validator Query Model Listing Virtuals.

Lemma find_none_cleared imgs :
  List.find isPrimary (map (setPrimary false) imgs) = None.
Proof. induction imgs as [|x t IH]; cbn; [reflexivity | exact IH]. Qed.

Lemma find_filter {A : Type} (f : A -> bool) l :
  List.find f l = hd_error (filter f l).
Proof.
  induction l as [|x t IH]; cbn; [reflexivity|].
  destruct (f x); [reflexivity | exact IH].
Qed.

Lemma primaryImage_none q : primaryImage q = None <-> images q = [].
Proof.
  unfold primaryImage. split.
  - destruct (List.find isPrimary (images q)); [discriminate|].
    destruct (images q); [reflexivity | discriminate].
  - intros ->. reflexivity.
Qed.

Lemma primaryImage_In q i : primaryImage q = Some i -> In i (images q).
Proof.
  unfold primaryImage.
  destruct (List.find isPrimary (images q)) as [x|] eqn:Ef.
  - intros [= <-]. apply find_some in Ef. tauto.
  - destruct (images q) as [|first rest]; [discriminate|].
    intros [= <-]. left. reflexivity.
Qed.

(** X16: the virtual [primaryImage] is absent exactly for a product
    without images, and otherwise one of its images.  After the pre-save
    hook ran on modified images it is the first image, now marked, when
    none was marked; the marked image when exactly one was; and the first
    image, marked or not, when several were. *)
Theorem X16_primary_image_after_save d first rest :
  isModified "images" d = true -> images (val d) = first :: rest ->
  let p := val (primaryImageHook d) in
  (forall q, primaryImage q = None <-> images q = [])
  /\ (forall q i, primaryImage q = Some i -> In i (images q))
  /\ (primaryCount (first :: rest) = 0%nat ->
      primaryImage p = Some (setPrimary true first))
  /\ (primaryCount (first :: rest) = 1%nat ->
      primaryImage p = List.find isPrimary (first :: rest)
      /\ exists i, primaryImage p = Some i /\ isPrimary i = true)
  /\ ((1 < primaryCount (first :: rest))%nat -> primaryImage p = Some first).
Proof.
  intros Hm Hi p.
  split; [exact primaryImage_none|]. split; [exact primaryImage_In|].
  split; [|split].
  - intros Hc. subst p. unfold primaryImageHook. rewrite Hm, Hi.
    unfold primaryCount in Hc. rewrite Hc. cbn [Nat.ltb Nat.leb Nat.eqb andb List.length].
    unfold primaryImage. cbn. reflexivity.
  - intros Hc. subst p. rewrite primaryImageHook_one by (rewrite Hi; exact Hc).
    unfold primaryImage. rewrite Hi.
    rewrite find_filter. unfold primaryCount in Hc.
    destruct (filter isPrimary (first :: rest)) as [|x [|y t]] eqn:Ef;
      try discriminate.
    cbn [hd_error]. split; [reflexivity|]. exists x. split; [reflexivity|].
    assert (Hin : In x (filter isPrimary (first :: rest)))
      by (rewrite Ef; left; reflexivity).
    apply filter_In in Hin. tauto.
  - intros Hc. subst p.
    unfold primaryImage.
    rewrite (primaryImageHook_several d first rest Hm Hi Hc).
    cbn [List.find]. destruct (isPrimary first); [reflexivity|].
    rewrite find_none_cleared. reflexivity.
Qed.

Context `{FloatSyntax} `{TextIndex}.

Lemma matches_active p :
  matches activeFilter p = isActive p.
Proof.
  unfold matches, activeFilter, holds. cbn.
  rewrite !andb_true_r. destruct (isActive p); reflexivity.
Qed.

Lemma matches_featured p :
  matches featuredFilter p = isActive p && isFeatured p.
Proof.
  unfold matches, featuredFilter, holds. cbn.
  rewrite !andb_true_r. destruct (isActive p), (isFeatured p); reflexivity.
Qed.

Lemma filter_filter {A : Type} (f g : A -> bool) l :
  filter f (filter g l) = filter (fun x => g x && f x) l.
Proof.
  induction l as [|x t IH]; cbn; [reflexivity|].
  destruct (g x); cbn; [destruct (f x)|]; rewrite IH; reflexivity.
Qed.

Lemma buildQuery_plain q :
  q_category q = None -> q_minPrice q = None -> q_maxPrice q = None ->
  q_search q = None ->
  buildQuery q = match q_featured q with
                 | Some v => if (v =? "true")%string then featuredFilter else activeFilter
                 | None => activeFilter
                 end.
Proof.
  intros Hc Hlo Hhi Hs. unfold buildQuery. rewrite Hc, Hlo, Hhi, Hs. cbn.
  destruct (q_featured q) as [v|]; [|reflexivity].
  destruct (v =? "true")%string; reflexivity.
Qed.

(** X17: the static [findActive] returns exactly the active products of
    the store and [findFeatured] those of them that are featured, in the
    order of the collection.  A listing without category, price and search
    parameters counts the products [findActive] returns, or those
    [findFeatured] returns when [featured] is "true", and every product of
    its page is among them. *)
Theorem X17_statics_agree_with_the_listing store q data pg fl :
  listProducts store q = ListOk data pg fl ->
  q_category q = None -> q_minPrice q = None -> q_maxPrice q = None ->
  q_search q = None ->
  (forall p, In p (findActive store) <-> In p store /\ isActive p = true)
  /\ findFeatured store = filter isFeatured (findActive store)
  /\ (q_featured q <> Some "true" ->
      totalProducts pg = Z.of_nat (List.length (findActive store))
      /\ incl data (findActive store))
  /\ (q_featured q = Some "true" ->
      totalProducts pg = Z.of_nat (List.length (findFeatured store))
      /\ incl data (findFeatured store)).
Proof.
  intros Hl Hc Hlo Hhi Hs.
  apply listProducts_ok in Hl as (_ & skip & lim & _ & _ & -> & ->).
  rewrite (buildQuery_plain q Hc Hlo Hhi Hs).
  assert (Hactive : forall p, In p (findActive store) <-> In p store /\ isActive p = true).
  { intros p. unfold findActive, findAll. rewrite filter_In, matches_active. tauto. }
  assert (Hfeat : findFeatured store = filter isFeatured (findActive store)).
  { unfold findFeatured, findActive, findAll. rewrite filter_filter.
    apply filter_ext. intros p. rewrite matches_active, matches_featured. reflexivity. }
  split; [exact Hactive|]. split; [exact Hfeat|]. split.
  - intros Hne.
    assert (Hq : match q_featured q with
                 | Some v => if (v =? "true")%string then featuredFilter else activeFilter
                 | None => activeFilter
                 end = activeFilter).
    { destruct (q_featured q) as [v|]; [|reflexivity].
      destruct (String.eqb_spec v "true") as [->|_]; [contradiction|reflexivity]. }
    rewrite Hq. split; [reflexivity|].
    intros p Hp. apply In_find in Hp as [Hp Hm].
    unfold findActive, findAll. apply filter_In. auto.
  - intros ->. cbn [String.eqb Ascii.eqb Bool.eqb]. split; [reflexivity|].
    intros p Hp. apply In_find in Hp as [Hp Hm].
    unfold findFeatured, findAll. apply filter_In. auto.
Qed.

End VirtualProperties.

(** ** The effect of a download *)
Section DownloadEffect.
Import Query Model Req Routes Concurrent Download.
Context `{Slugify} `{Attachments}.

(** X18: the download route, for an identifier of 24 hexadecimal digits,
    answers 404 when no active product has it, the store unchanged.
    Otherwise it answers 200 with the files of the product to every
    authenticated user, whatever the role; the files are the strings the
    schema makes of them, so the download link, the [url] of the first
    one, is always absent.  For a download counter that is an integer
    below [Number.MAX_SAFE_INTEGER], the increment the route starts, once
    its save has completed with no other write between, raises the counter
    of that product by one, in place, when the stored product passes
    validation, and stores nothing when it fails. *)
Theorem X18_download_counts_one_download store user id :
  distinct (map _id store) = true -> JS.isObjectIdString id = true ->
  ((forall p, findById store id = Some p -> isActive p = false) ->
   downloadProduct store user id = (store, failed 404 "Product not found"))
  /\ (forall p n, findById store id = Some p -> isActive p = true ->
      (downloads (stats p) == inject_Z n)%Q -> 0 <= n < JS.MAX_SAFE_INTEGER ->
      exists l1 l2,
        store = (l1 ++ p :: l2)%list
        /\ downloadProduct store user id
           = ((if valid p then (l1 ++ bumped Downloads p :: l2)%list else store),
              {| downloadStatus := 200; downloadSuccess := true;
                 downloadMessage := "Download links generated";
                 links := Some {| linkedFiles := files p; downloadUrl := None |} |})).
Proof.
  intros Hd Ho. unfold downloadProduct, findByParam. rewrite Ho. split.
  - intros Hoff. destruct (findById store id) as [p|]; [|reflexivity].
    rewrite (Hoff p eq_refl). reflexivity.
  - intros p n Hf Ha _ _. rewrite Hf, Ha.
    pose proof Hf as Hfind. unfold findById in Hfind.
    apply find_split in Hfind as (l1 & l2 & Hs & _ & _).
    exists l1, l2. split; [exact Hs|].
    change (incrementDownloads store (load p))
      with (increment Downloads store (load p)).
    rewrite increment_loaded. cbv zeta.
    assert (Hlink : firstUrl (files p) = None)
      by (unfold firstUrl; destruct (files p); reflexivity).
    rewrite Hlink.
    destruct (valid p); [|reflexivity].
    rewrite In_exists_id by (rewrite Hs; apply in_elt).
    erewrite (updatedStore_split store _ p l1 l2 Hs);
      [reflexivity | reflexivity | exact (split_unique_id store p l1 l2 Hd Hs)].
Qed.

End DownloadEffect.

(** ** The set of subscribers *)
Section NewsletterProperties.
Import Validator Req Routes Newsletter.
Context `{EmailSyntax} `{Casts}.

Lemma has_In email subscribers : has email subscribers = true <-> In email subscribers.
Proof.
  unfold has. rewrite existsb_exists. split.
  - intros (e & Hin & He). apply String.eqb_eq in He. subst. exact Hin.
  - intros Hin. exists email. rewrite String.eqb_refl. auto.
Qed.

Lemma has_false email subscribers :
  has email subscribers = false <-> ~ In email subscribers.
Proof. rewrite <- has_In. symmetry. apply not_true_iff_false. Qed.

Lemma filter_absent email (subscribers : Subscribers) :
  ~ In email subscribers ->
  filter (fun e => negb (e =? email)%string) subscribers = subscribers.
Proof.
  induction subscribers as [|x t IH]; cbn; [reflexivity|].
  intros Hn. destruct (String.eqb_spec x email) as [->|_]; cbn.
  - exfalso. apply Hn. left. reflexivity.
  - rewrite IH by tauto. reflexivity.
Qed.

Lemma filter_present email (subscribers : Subscribers) :
  NoDup subscribers -> In email subscribers ->
  List.length (filter (fun e => negb (e =? email)%string) subscribers)
  = pred (List.length subscribers)
  /\ (0 < List.length subscribers)%nat.
Proof.
  induction subscribers as [|x t IH]; cbn; [contradiction|].
  intros Hnd Hin. apply NoDup_cons_iff in Hnd as [Hx Ht].
  destruct (String.eqb_spec x email) as [->|Hne]; cbn.
  - rewrite filter_absent by exact Hx. split; [reflexivity | lia].
  - destruct Hin as [He|Hin]; [contradiction|].
    destruct (IH Ht Hin) as [-> Hpos]. split; lia.
Qed.

Lemma delete_removes email (subscribers : Subscribers) e :
  In e (fst (delete email subscribers)) <-> In e subscribers /\ e <> email.
Proof.
  unfold delete. cbn [fst]. rewrite filter_In, negb_true_iff, String.eqb_neq. tauto.
Qed.




End NewsletterProperties.

(** ** Requests that are refused *)
Section RefusedWrites.
Import Validator Query Model Req Routes.
Context `{FloatSyntax} `{Casts} `{Slugify}.

Ltac no_client_error :=
  let Hin := fresh "Hin" in
  intros Hin; cbn in Hin;
  repeat (destruct Hin as [Hin|Hin]; [discriminate Hin|]); contradiction.


End RefusedWrites.

(** ** The addresses the User model accepts *)
Section EmailPattern.
Import UserModel.

Lemma append_nil_r s : s ++ "" = s.
Proof. induction s as [|c t IH]; cbn; [reflexivity | rewrite IH; reflexivity]. Qed.

Lemma append_assoc (s t u : string) : (s ++ t) ++ u = s ++ (t ++ u).
Proof. induction s as [|c r IH]; cbn; [reflexivity | rewrite IH; reflexivity]. Qed.

Lemma append_empty (s t : string) : s ++ t = "" -> s = "" /\ t = "".
Proof. destruct s; cbn; [auto | discriminate]. Qed.

Lemma length_append (s t : string) :
  String.length (s ++ t) = (String.length s + String.length t)%nat.
Proof. induction s as [|c r IH]; cbn; [reflexivity | rewrite IH; reflexivity]. Qed.

Lemma occurrences_append c s t :
  occurrences c (s ++ t) = (occurrences c s + occurrences c t)%nat.
Proof. induction s as [|x r IH]; cbn; [reflexivity | rewrite IH; lia]. Qed.

Lemma allChars_append f s t :
  JS.allChars f (s ++ t) = JS.allChars f s && JS.allChars f t.
Proof.
  induction s as [|x r IH]; cbn; [reflexivity|].
  rewrite IH. apply andb_assoc.
Qed.

Lemma nullable_Lang r : nullable r = true <-> Lang r "".
Proof.
  split.
  - induction r; cbn; intros Hn; try discriminate.
    + constructor.
    + apply andb_prop in Hn as [Ha Hb].
      change "" with ("" ++ ""). constructor; auto.
    + apply orb_prop in Hn as [Ha|Hb]; [apply LAltL | apply LAltR]; auto.
    + constructor.
  - intros HL. remember "" as s eqn:Es. induction HL; cbn; try reflexivity.
    + discriminate.
    + apply append_empty in Es as [-> ->]. rewrite IHHL1, IHHL2; reflexivity.
    + rewrite IHHL by assumption. reflexivity.
    + rewrite IHHL by assumption. apply orb_true_r.
Qed.

Lemma deriv_Lang c r : forall s, Lang (deriv c r) s <-> Lang r (String c s).
Proof.
  intros s. split.
  - revert s. induction r; cbn; intros s HL.
    + inversion HL.
    + inversion HL.
    + destruct (f c) eqn:Ef; inversion HL; subst. constructor. exact Ef.
    + destruct (nullable r1) eqn:En.
      * inversion HL as [| | | ? ? ? HL1 | ? ? ? HL2 | |]; subst.
        -- inversion HL1; subst.
           change (String c (s0 ++ t)) with (String c s0 ++ t). constructor; auto.
        -- change (String c s) with ("" ++ String c s).
           constructor; [apply nullable_Lang; exact En | auto].
      * inversion HL; subst.
        change (String c (s0 ++ t)) with (String c s0 ++ t). constructor; auto.
    + inversion HL; subst; [apply LAltL | apply LAltR]; auto.
    + inversion HL; subst.
      change (String c (s0 ++ t)) with (String c s0 ++ t). constructor; auto.
  - intros HL. remember (String c s) as cs eqn:Ecs. revert s Ecs.
    induction HL; intros s' Ecs; cbn; try discriminate.
    + injection Ecs as -> <-. rewrite H. constructor.
    + destruct s as [|x s1].
      * cbn in Ecs. subst t.
        rewrite (proj2 (nullable_Lang a) HL1). apply LAltR. auto.
      * cbn in Ecs. injection Ecs as -> <-.
        assert (Hseq : Lang (Seq (deriv c a) b) (s1 ++ t))
          by (constructor; auto).
        destruct (nullable a); [apply LAltL|]; exact Hseq.
    + apply LAltL. auto.
    + apply LAltR. auto.
    + destruct s as [|x s1].
      * cbn in Ecs. apply IHHL2. exact Ecs.
      * cbn in Ecs. injection Ecs as -> <-. constructor; auto.
Qed.

(** The test decides the language of the expression. *)
Lemma test_Lang s : forall r, test r s = true <-> Lang r s.
Proof.
  induction s as [|c t IH]; intros r; cbn.
  - apply nullable_Lang.
  - rewrite IH. apply deriv_Lang.
Qed.

Lemma avoids_Lang c r s : avoids c r = true -> Lang r s -> occurrences c s = 0%nat.
Proof.
  intros Ha HL. induction HL; cbn in Ha |- *; try reflexivity.
  - apply negb_true_iff in Ha.
    destruct (Ascii.eqb_spec c0 c) as [->|_]; [congruence | reflexivity].
  - apply andb_prop in Ha as [Ha Hb].
    rewrite occurrences_append, IHHL1, IHHL2; auto.
  - apply andb_prop in Ha as [Ha Hb]. auto.
  - apply andb_prop in Ha as [Ha Hb]. auto.
  - rewrite occurrences_append, IHHL1, IHHL2; auto.
Qed.

(** A non-empty repetition ends with one more match. *)
Lemma Star_last a s :
  Lang (Star a) s -> s = "" \/ exists p l, s = p ++ l /\ Lang a l.
Proof.
  intros HL. remember (Star a) as r eqn:Er. induction HL; try discriminate.
  - left. reflexivity.
  - injection Er as ->. right.
    destruct (IHHL2 eq_refl) as [->|(p & l & -> & Hl)].
    + exists "", s. rewrite append_nil_r. auto.
    + exists (s ++ p), l. rewrite append_assoc. auto.
Qed.

Lemma plus_last a s : Lang (plus a) s -> exists p l, s = p ++ l /\ Lang a l.
Proof.
  intros HL. inversion HL as [| |? ? s1 t1 H1 H2| | | |]; subst.
  destruct (Star_last a t1 H2) as [->|(p & l & -> & Hl)].
  - exists "", s1. rewrite append_nil_r. auto.
  - exists (s1 ++ p), l. rewrite append_assoc. auto.
Qed.

Lemma Lang_word s : Lang word s -> exists c, s = String c "" /\ isWord c = true.
Proof. intros HL. inversion HL; subst. eauto. Qed.

Lemma Lang_ending s :
  Lang ending s ->
  exists tld, s = "." ++ tld
              /\ (2 <= String.length tld <= 3)%nat /\ JS.allChars isWord tld = true.
Proof.
  intros HL. unfold ending in HL.
  inversion HL as [| |? ? s1 t1 Hdot H1| | | |]; subst. clear HL.
  inversion Hdot as [|? c Hc| | | | |]; subst. clear Hdot.
  apply Ascii.eqb_eq in Hc. subst c.
  inversion H1 as [| |? ? s2 t2 Hw1 H2| | | |]; subst. clear H1.
  inversion H2 as [| |? ? s3 t3 Hw2 H3| | | |]; subst. clear H2.
  apply Lang_word in Hw1 as (c1 & -> & Hc1).
  apply Lang_word in Hw2 as (c2 & -> & Hc2).
  inversion H3 as [| | |? ? ? Hw3|? ? ? He| |]; subst; clear H3.
  - apply Lang_word in Hw3 as (c3 & -> & Hc3).
    exists (String c1 (String c2 (String c3 ""))). cbn.
    rewrite Hc1, Hc2, Hc3. repeat split; lia.
  - inversion He; subst.
    exists (String c1 (String c2 "")). cbn.
    rewrite Hc1, Hc2. repeat split; lia.
Qed.

(** X23: every address the pattern of the email path accepts holds
    exactly one [@] and ends with a dot followed by two or three word
    characters: an address in a longer top-level domain, such as [.info],
    is refused. *)
Theorem X23_accepted_addresses s :
  emailMatches s = true ->
  occurrences "@" s = 1%nat
  /\ exists before tld,
       s = before ++ "." ++ tld
       /\ (2 <= String.length tld <= 3)%nat
       /\ JS.allChars isWord tld = true.
Proof.
  unfold emailMatches. rewrite test_Lang. unfold emailPattern. intros HL.
  inversion HL as [| |? ? local r1 Hlocal H1| | | |]; subst. clear HL.
  inversion H1 as [| |? ? a r2 Hat H2| | | |]; subst. clear H1.
  inversion H2 as [| |? ? domain tail Hdomain Htail| | | |]; subst. clear H2.
  inversion Hat as [|? c Hc| | | | |]; subst. clear Hat.
  apply Ascii.eqb_eq in Hc. subst c.
  split.
  - rewrite !occurrences_append.
    rewrite (avoids_Lang "@" labels local eq_refl Hlocal).
    rewrite (avoids_Lang "@" labels domain eq_refl Hdomain).
    rewrite (avoids_Lang "@" (plus ending) tail eq_refl Htail).
    reflexivity.
  - apply plus_last in Htail as (p & l & -> & Hl).
    apply Lang_ending in Hl as (tld & -> & Hlen & Hw).
    exists (local ++ "@" ++ domain ++ p), tld.
    rewrite !append_assoc. auto.
Qed.

End EmailPattern.

(** ** Requests one after the other *)
Section RoundTrips.
Import Validator Query Model Req Routes Listing Concurrent Download Tracking.
Context `{FloatSyntax} `{TextIndex} `{Casts} `{Slugify} `{Attachments}.

Lemma find_last (key : Product -> string) store p :
  (forall q, In q store -> key q <> key p) ->
  List.find (fun q => (key q =? key p)%string) (store ++ [p]) = Some p.
Proof.
  intros Hne. apply (find_middle key (key p) store p []); [exact Hne | reflexivity].
Qed.

(** A POST answered with data appended the product of the answer, whose
    slug no stored product had. *)
Lemma created_appended store u newId now files body p :
  data (snd (createProduct store (Some u) newId now files body)) = Some p ->
  createProduct store (Some u) newId now files body
  = ((store ++ [p])%list, replyData 201 "Product created successfully" p)
  /\ forall q, In q store -> slug q <> slug p.
Proof.
  unfold createProduct.
  destruct (admin (Some u)) as [denied|] eqn:Ea.
  { unfold admin in Ea. destruct (role u =? "admin")%string; [discriminate|].
    injection Ea as <-. discriminate. }
  destruct (validateBody false _); [|discriminate].
  destruct files as [|file files];
  repeat match goal with
    | |- context [match parseArray ?v with _ => _ end] => destruct (parseArray v)
    end; try discriminate.
  all: match goal with
       | |- context [saveCreated _ (assignPath "createdBy" ?f ?d)] =>
           assert (Hn : isNew d = true)
             by (cbn [isNew assignPath]; rewrite isNew_assignAll; reflexivity);
           assert (Ht : tracked "name" d (name (val d)) "")
             by (cbn [name val assignPath setTags setImages];
                 repeat apply tracked_more; apply assignAll_name; right; reflexivity);
           revert Hn Ht; generalize d
       end.
  all: intros d Hn Ht Hdata.
  all: assert (Hst : status (snd (saveCreated store
                       (assignPath "createdBy" (setCreatedBy (uid u)) d))) = 201)
         by (revert Hdata; unfold saveCreated;
             destruct (save store _) as [[s' d'] [[]|]]; try discriminate; reflexivity).
  all: destruct (created_effect store (uid u) d Hn Ht Hst)
         as (p' & Heq & _ & _ & _ & _ & _ & _ & Huniq & _).
  all: rewrite Heq in Hdata |- *; cbn in Hdata; injection Hdata as ->.
  all: split; [reflexivity|]; intros q Hq; exact (proj2 (Huniq q Hq)).
Qed.

(** X24: a product that was just created can be read back by its slug:
    after a POST answered with 201 whose product is active and whose slug
    has not the shape of an identifier, GET on that slug answers 200 with
    the created product, its view counter raised by one. *)
Theorem X24_created_product_can_be_read store u newId now files body p :
  data (snd (createProduct store (Some u) newId now files body)) = Some p ->
  isActive p = true -> JS.isObjectIdString (slug p) = false ->
  let store' := fst (createProduct store (Some u) newId now files body) in
  store' = (store ++ [p])%list
  /\ snd (getProduct store' (slug p))
     = {| status := 200; success := true; message := ""; errors := None;
          data := Some (bumped Views p) |}.
Proof.
  intros Hdata Hactive Hshape store'. subst store'.
  destruct (created_appended store u newId now files body p Hdata) as [Heq Huniq].
  rewrite Heq.
  cbn [fst]. split; [reflexivity|].
  unfold getProduct. rewrite Hshape. unfold findOneBySlug.
  rewrite find_last by (intros q Hq; apply (Huniq q Hq)).
  rewrite Hactive.
  change (incrementViews (store ++ [p])%list (load p))
    with (increment Views (store ++ [p])%list (load p)).
  rewrite increment_loaded. cbv zeta.
  destruct (valid p); [destruct (existsb _ _)|]; reflexivity.
Qed.

(** X25: a product that was soft-deleted is gone from the public routes:
    after a DELETE answered with 200, GET on the identifier and the download
    route answer 404 and change nothing, and no listing holds a product
    with that identifier. *)
Theorem X25_soft_deleted_product_is_hidden store u user id :
  distinct (map _id store) = true ->
  status (snd (deleteProduct store (Some u) id)) = 200 ->
  let store' := fst (deleteProduct store (Some u) id) in
  getProduct store' id = (store', notFound)
  /\ downloadProduct store' user id = (store', failed 404 "Product not found")
  /\ (forall q data pg fl r,
        listProducts store' q = ListOk data pg fl -> In r data ->
        _id r <> JS.toLowerCase id).
Proof.
  intros Hd Hst store'.
  assert (Hcase : role u = "admin" /\ JS.isObjectIdString id = true
                  /\ exists p, findById store id = Some p).
  { revert Hst. unfold deleteProduct, admin, findByParam.
    destruct (String.eqb_spec (role u) "admin") as [Hr|_]; [|discriminate].
    destruct (JS.isObjectIdString id); [|discriminate].
    destruct (findById store id) as [p|]; [|discriminate]. eauto. }
  destruct Hcase as (Hr & Ho & p & Hf).
  pose proof Hf as Hfind. unfold findById in Hfind.
  apply find_split in Hfind as (l1 & l2 & Hs & Hk & Hl1).
  pose proof (split_unique_id store p l1 l2 Hd Hs) as Hne.
  set (p' := setUpdatedBy (Some (uid u)) (setIsActive false p)).
  assert (Hv : valid p = true).
  { destruct (valid p) eqn:Ev; [reflexivity|].
    rewrite (deleteProduct_invalid store u id p Hr Ho Hf Ev) in Hst. discriminate. }
  assert (Hstore : store' = (l1 ++ p' :: l2)%list).
  { subst store'. rewrite (deleteProduct_effect store u id p l1 l2); auto. }
  assert (Hf' : findById store' id = Some p').
  { rewrite Hstore. unfold findById. apply find_middle; assumption. }
  split; [|split].
  - unfold getProduct. rewrite Ho, Hf'. reflexivity.
  - unfold downloadProduct, findByParam. rewrite Ho, Hf'. reflexivity.
  - intros q items pg fl r Hl Hin He.
    apply listProducts_ok in Hl as (_ & skip & lim & _ & _ & -> & _).
    apply In_find in Hin as [Hin Hm].
    apply (matches_isActive _ _ (buildQuery_isActive q)) in Hm.
    rewrite Hstore in Hin. apply in_app_iff in Hin as [Hin|[<-|Hin]].
    + apply (Hl1 r Hin). exact He.
    + discriminate Hm.
    + apply (Hne r (or_intror Hin)). rewrite He, Hk. reflexivity.
Qed.

Lemma get_sanitize key k f body :
  key <> k -> get key (sanitize k f body) = get key body.
Proof.
  intros Hne. unfold get, sanitize. generalize (@None JValue).
  induction body as [|[k' v] t IH]; intros acc; cbn [map fold_left]; [reflexivity|].
  rewrite IH. f_equal. cbn [fst snd].
  destruct (String.eqb_spec k' k) as [->|_]; cbn [fst snd]; [|reflexivity].
  destruct (String.eqb_spec k key) as [He|_]; [|reflexivity].
  exfalso. apply Hne. symmetry. exact He.
Qed.

(** X26: the list fields of a POST are split as text: a [tags],
    [features] or [techStack] value that is truthy and neither an array
    nor a string has no [split], the handler throws, and the answer is the
    generic 500 with the store unchanged, although the body passed
    validation. *)
Theorem X26_list_field_that_is_no_text store u newId now files body key v :
  role u = "admin" ->
  validateBody false (trimmed "description" (trimmed "name" body)) = [] ->
  In key ["tags"; "features"; "techStack"] ->
  get key body = Some v -> truthyValue v = true ->
  (forall items, v <> JArr items) -> (forall s, v <> JStr s) ->
  createProduct store (Some u) newId now files body
  = (store, serverError "Server error while creating product").
Proof.
  intros Hr Hv Hkey Hget Htruthy Harr Hstr.
  assert (Hthrows : parseArray (Some v) = Throws).
  { destruct v; cbn in Htruthy |- *; try rewrite Htruthy; try reflexivity;
      try discriminate.
    - exfalso. exact (Hstr _ eq_refl).
    - exfalso. exact (Harr _ eq_refl). }
  assert (Hget' : get key (trimmed "description" (trimmed "name" body)) = Some v).
  { unfold trimmed. rewrite !get_sanitize; [exact Hget| |];
      intros ->; cbn in Hkey;
      repeat (destruct Hkey as [Hkey|Hkey]; [discriminate Hkey|]); exact Hkey. }
  unfold createProduct, admin. rewrite Hr, Hv. cbn [String.eqb Ascii.eqb Bool.eqb].
  cbn in Hkey. destruct Hkey as [<-|[<-|[<-|[]]]]; rewrite Hget', Hthrows.
  all: repeat match goal with
         | |- context [match parseArray ?x with _ => _ end] => destruct (parseArray x)
         end; reflexivity.
Qed.

End RoundTrips.

Section StatisticsProperties.
Import Validator Query Model Req Routes Concurrent Service Statistics.
Context `{FloatSyntax} `{Casts} `{Slugify}.

Lemma copyPath_settled path src dst :
  ~ In path settledPaths -> settled (copyPath path src dst) = settled dst.
Proof.
  intros Hp. unfold copyPath.
  repeat match goal with
    | |- context [if (?k =? ?lit)%string then _ else _] =>
        destruct (String.eqb_spec k lit); [subst|]
    end; try reflexivity; exfalso; apply Hp; cbn; tauto.
Qed.

Lemma applyPaths_settled paths src dst :
  (forall path, In path paths -> ~ In path settledPaths) ->
  settled (applyPaths paths src dst) = settled dst.
Proof.
  induction paths as [|path t IH]; intros Hp; [reflexivity|].
  cbn [applyPaths fold_right]. fold (applyPaths t src dst).
  rewrite copyPath_settled by (apply Hp; left; reflexivity).
  apply IH. intros path' Hin. apply Hp. right. exact Hin.
Qed.

Lemma settledKept_refl store : settledKept store store.
Proof. intros id p Hs. eauto. Qed.

Lemma settledKept_trans s1 s2 s3 :
  settledKept s1 s2 -> settledKept s2 s3 -> settledKept s1 s3.
Proof.
  intros H12 H23 id p Hs.
  destruct (H12 id p Hs) as (p2 & Hs2 & He2).
  destruct (H23 id p2 Hs2) as (p3 & Hs3 & He3).
  exists p3. split; [exact Hs3 | congruence].
Qed.

Lemma settledKept_updated store dh :
  (forall path, In path (modified dh) -> ~ In path settledPaths) ->
  settledKept store (updatedStore store dh).
Proof.
  intros Hp id p. unfold stored, updatedStore.
  rewrite find_map_id
    by (intros q; destruct (_ =? _)%string; [apply applyPaths_id | reflexivity]).
  intros ->. cbn [option_map]. eexists. split; [reflexivity|].
  destruct (_id p =? _id (val dh))%string; [|reflexivity].
  apply applyPaths_settled. exact Hp.
Qed.

Lemma settledKept_save store d :
  let dh := primaryImageHook (slugHook d) in
  isNew d = true \/ (forall path, In path (modified dh) -> ~ In path settledPaths) ->
  settledKept store (fst (fst (save store d))).
Proof.
  intros dh Hd.
  destruct (save_cases store d) as [->|[(_ & -> & _)|(Hn & _ & ->)]].
  - apply settledKept_refl.
  - intros id p Hs. exists p. split; [|reflexivity].
    unfold stored in *. apply find_some_app. exact Hs.
  - apply settledKept_updated. destruct Hd as [?|?]; [congruence | assumption].
Qed.

Lemma hooks_paths d path :
  In path (modified (primaryImageHook (slugHook d))) ->
  In path (modified d) \/ path = "images" \/ path = "slug".
Proof.
  intros Hin. destruct (hooks_frame d) as (_ & _ & _ & _ & _ & _ & Hm).
  destruct (Hm path Hin) as [?|[?|[? _]]]; auto.
Qed.

Lemma settledKept_apply store op :
  namesStats op = false -> settledKept store (apply store op).
Proof.
  destruct op as [q|identifier|user newId now files body|user id body|user id];
    cbn [apply namesStats]; intros Hn.
  - apply settledKept_refl.
  - unfold getProduct.
    destruct (if JS.isObjectIdString identifier then _ else _) as [p|];
      [|apply settledKept_refl].
    destruct (isActive p); [|apply settledKept_refl].
    change (incrementViews store (load p)) with (increment Views store (load p)).
    rewrite increment_loaded. cbv zeta.
    destruct (valid p); [|apply settledKept_refl].
    destruct (existsb _ store); cbn [fst]; [|apply settledKept_refl].
    apply settledKept_updated. cbn. intros path [<-|[]] [Hc|[Hc|[Hc|[]]]]; discriminate.
  - unfold createProduct.
    destruct (admin user); [apply settledKept_refl|].
    destruct user; [|apply settledKept_refl].
    destruct (validateBody false _); [|apply settledKept_refl].
    destruct files as [|file files];
    repeat match goal with
      | |- context [match parseArray ?v with _ => _ end] => destruct (parseArray v)
      end; try apply settledKept_refl.
    all: match goal with
         | |- context [saveCreated _ ?d] =>
             assert (Hnew : isNew d = true)
               by (cbn [isNew assignPath]; rewrite isNew_assignAll; reflexivity);
             revert Hnew; generalize d
         end.
    all: intros d Hnew; destruct (fst_saveCreated store d) as [->| ->];
      [apply settledKept_refl | apply settledKept_save; left; exact Hnew].
  - destruct (updateProduct_cases store user id body) as [->|(p & dh & _ & K & ->)];
      [apply settledKept_refl|].
    apply settledKept_updated. intros path Hin Hc.
    destruct (kept_modified _ _ _ K path Hin) as [[]|[Ht Ha]].
    cbn in Hc. destruct Hc as [<-|[<-|[<-|[]]]].
    + destruct Ht as [Ht|[Ht|[Ht|[Ht _]]]]; [congruence | discriminate ..].
    + cbn in Ha. repeat (destruct Ha as [Ha|Ha]; [discriminate Ha|]). exact Ha.
    + cbn in Ha. repeat (destruct Ha as [Ha|Ha]; [discriminate Ha|]). exact Ha.
  - unfold deleteProduct.
    destruct (admin user); [apply settledKept_refl|].
    destruct user as [u|]; [|apply settledKept_refl].
    destruct (findByParam store id) as [[p|]|]; try apply settledKept_refl.
    match goal with |- context [saveDeleted _ ?d] => set (d2 := d) end.
    destruct (fst_saveDeleted store d2) as [->| ->]; [apply settledKept_refl|].
    apply settledKept_save. right. intros path Hin Hc.
    apply hooks_paths in Hin.
    assert (Hpath : In path ["updatedBy"; "isActive"; "images"; "slug"]).
    { destruct Hin as [Hin|[-> | ->]]; [|cbn; tauto..].
      subst d2. unfold assignIfChanged in Hin.
      destruct (Bool.eqb (isActive p) false); cbn in Hin |- *; tauto. }
    cbn in Hpath, Hc.
    repeat (destruct Hpath as [<-|Hpath];
            [repeat (destruct Hc as [Hc|Hc]; [discriminate Hc|]); exact Hc|]).
    exact Hpath.
Qed.

(** X27: the catalog routes never write the sales counter, the download
    counter or the rating of a product: after any sequence of list, get,
    create, update and soft-delete requests in which no update names
    [stats] in its body, every product stored before is still stored with
    the sales, the downloads and the rating it had. *)
Theorem X27_sales_downloads_and_rating_stay ops : forall store id p,
  (forall op, In op ops -> namesStats op = false) ->
  stored store id = Some p ->
  exists p',
    stored (applyAll ops store) id = Some p'
    /\ sales (stats p') = sales (stats p)
    /\ downloads (stats p') = downloads (stats p)
    /\ rating (stats p') = rating (stats p).
Proof.
  assert (Hall : forall store, (forall op, In op ops -> namesStats op = false) ->
            settledKept store (applyAll ops store)).
  { unfold applyAll. induction ops as [|op t IH]; intros store Hq; cbn [fold_left].
    - apply settledKept_refl.
    - apply settledKept_trans with (s2 := apply store op).
      + apply settledKept_apply. apply Hq. left. reflexivity.
      + apply IH. intros op' Hin. apply Hq. right. exact Hin. }
  intros store id p Hq Hs.
  destruct (Hall store Hq id p Hs) as (p' & Hs' & He).
  exists p'. split; [exact Hs'|].
  unfold settled in He. injection He as -> -> ->. auto.
Qed.

End StatisticsProperties.

(** ** The further properties on concrete requests *)
Section FurtherExamples.
Import Validator Query Model Req Routes Listing Concurrent Service Sample Fixtures.
Import Params Virtuals Statistics Cases SampleServices Catalog.

Lemma X1_pagination_metadata_is_consistent_witness :
  (listProductsAt kits kits (request (Some "2") (Some "1") None None)
   = ListOk [proKit] (window 2 4 4 true true 1) (echo "newest" None)
   /\ pageOf (request (Some "2") (Some "1") None None) = Some 2
   /\ limitOf (request (Some "2") (Some "1") None None) = Some 1
   /\ 2 * 1 <= JS.MAX_SAFE_INTEGER
   /\ totalProducts (window 2 4 4 true true 1) <= JS.MAX_SAFE_INTEGER)
  /\ exists tp,
       currentPage (window 2 4 4 true true 1) = Some 2
       /\ limit (window 2 4 4 true true 1) = Some 1
       /\ totalPages (window 2 4 4 true true 1) = Some tp
       /\ 1 <= 2 /\ 1 <= 1 <= 100
       /\ skipOf (request (Some "2") (Some "1") None None) = Some ((2 - 1) * 1)
       /\ (tp - 1) * 1 < totalProducts (window 2 4 4 true true 1) <= tp * 1
       /\ (hasNextPage (window 2 4 4 true true 1) = true
           <-> (2 - 1) * 1 + 1 < totalProducts (window 2 4 4 true true 1))
       /\ (hasPrevPage (window 2 4 4 true true 1) = true <-> 0 < (2 - 1) * 1).
Proof.
  split.
  - repeat split; try reflexivity; unfold JS.MAX_SAFE_INTEGER; simpl; lia.
  - apply (X1_pagination_metadata_is_consistent kits kits
             (request (Some "2") (Some "1") None None) [proKit]
             (window 2 4 4 true true 1) (echo "newest" None) 2 1);
      try reflexivity; unfold JS.MAX_SAFE_INTEGER; simpl; lia.
Defined.

Lemma X2_page_window_size_witness :
  (listProductsAt kits kits (request (Some "3") (Some "2") None None)
   = ListOk [] (window 3 2 4 false true 2) (echo "newest" None)
   /\ pageOf (request (Some "3") (Some "2") None None) = Some 3
   /\ limitOf (request (Some "3") (Some "2") None None) = Some 2
   /\ 3 * 2 <= JS.MAX_SAFE_INTEGER)
  /\ currentPage (window 3 2 4 false true 2) = Some 3
  /\ limit (window 3 2 4 false true 2) = Some 2
  /\ Z.of_nat (List.length (@nil Product))
     = Z.min 2 (Z.max 0 (countDocuments kits
                           (buildQuery (request (Some "3") (Some "2") None None))
                         - (3 - 1) * 2))
  /\ (countDocuments kits (buildQuery (request (Some "3") (Some "2") None None))
      <= (3 - 1) * 2 -> @nil Product = [])
  /\ (kits = kits ->
      Z.of_nat (List.length (@nil Product))
      = Z.min 2 (Z.max 0 (totalProducts (window 3 2 4 false true 2) - (3 - 1) * 2))).
Proof.
  split.
  - repeat split; try reflexivity; unfold JS.MAX_SAFE_INTEGER; simpl; lia.
  - apply (X2_page_window_size kits kits (request (Some "3") (Some "2") None None) []
             (window 3 2 4 false true 2) (echo "newest" None) 3 2);
      try reflexivity; unfold JS.MAX_SAFE_INTEGER; simpl; lia.
Defined.

Lemma X3_listed_products_satisfy_the_filters_witness :
  (listProducts twoProducts (priced "5" "20")
   = ListOk [alpha 0%Q] alphaPage (pricedFilters "5" "20")
   /\ In (alpha 0%Q) [alpha 0%Q])
  /\ In (alpha 0%Q) twoProducts
  /\ isActive (alpha 0%Q) = true
  /\ (forall c, q_category (priced "5" "20") = Some c -> category (alpha 0%Q) = c)
  /\ (forall s, q_minPrice (priced "5" "20") = Some s -> s <> "" ->
                (parseFloat s <= price (alpha 0%Q))%Q)
  /\ (forall s, q_maxPrice (priced "5" "20") = Some s -> s <> "" ->
                (price (alpha 0%Q) <= parseFloat s)%Q)
  /\ (q_featured (priced "5" "20") = Some "true" -> isFeatured (alpha 0%Q) = true)
  /\ (forall s, q_search (priced "5" "20") = Some s -> textMatch s (alpha 0%Q) = true).
Proof.
  assert (Hin : In (alpha 0%Q) [alpha 0%Q]) by (left; reflexivity).
  split; [split; [reflexivity | exact Hin]|].
  exact (@X3_listed_products_satisfy_the_filters wholeNumbers nameAndTags
           twoProducts (priced "5" "20") [alpha 0%Q] alphaPage (pricedFilters "5" "20")
           (alpha 0%Q) eq_refl Hin).
Defined.

Lemma X4_inverted_price_range_is_empty_witness :
  (listProducts twoProducts (priced "20" "5")
   = ListOk [] emptyPage (pricedFilters "20" "5")
   /\ q_minPrice (priced "20" "5") = Some "20"
   /\ q_maxPrice (priced "20" "5") = Some "5"
   /\ "20" <> "" /\ "5" <> ""
   /\ (parseFloat "5" < parseFloat "20")%Q)
  /\ @nil Product = [] /\ totalProducts emptyPage = 0 /\ totalPages emptyPage = Some 0.
Proof.
  split; [repeat split; discriminate|].
  apply (X4_inverted_price_range_is_empty twoProducts (priced "20" "5") [] emptyPage
           (pricedFilters "20" "5") "20" "5");
    first [reflexivity | discriminate].
Defined.

Lemma X5_featured_filters_only_on_true_witness :
  (q_featured (featuring "1") = Some "1" /\ "1" <> "true")
  /\ listProducts twoProducts (featuring "1")
     = listProducts twoProducts (withoutFeatured (featuring "1")).
Proof.
  split; [split; [reflexivity | discriminate]|].
  apply (X5_featured_filters_only_on_true twoProducts (featuring "1") "1");
    first [reflexivity | discriminate].
Defined.

Lemma X6_listing_order_follows_the_sort_key_witness :
  (q_search (sortedBy "price-low") = None
   /\ listProducts twoProducts (sortedBy "price-low")
      = ListOk [alpha 0%Q] alphaPage
          {| fl_category := None; fl_minPrice := None; fl_maxPrice := None;
             fl_search := None; fl_sort := "price-low" |})
  /\ (q_sort (sortedBy "price-low") = Some "price-low" ->
      Sorted (fun a b => (price a <= price b)%Q) [alpha 0%Q]).
Proof.
  split; [split; reflexivity|].
  exact (proj1 (proj2 (proj2
           (@X6_listing_order_follows_the_sort_key wholeNumbers nameAndTags
              twoProducts (sortedBy "price-low") [alpha 0%Q] alphaPage _
              eq_refl eq_refl)))).
Defined.

Lemma X8_get_counts_one_view_witness :
  (distinct (map _id twoProducts) = true
   /\ lookup twoProducts "alpha" = Some (alpha 0%Q) /\ isActive (alpha 0%Q) = true
   /\ (views (stats (alpha 0%Q)) == inject_Z 0)%Q /\ 0 <= 0 < JS.MAX_SAFE_INTEGER
   /\ getProduct twoProducts "alpha"
      = ([alpha 1%Q; beta], replyData 200 "" (alpha 1%Q))
   /\ status (replyData 200 "" (alpha 1%Q)) = 200)
  /\ data (replyData 200 "" (alpha 1%Q)) = Some (bumped Views (alpha 0%Q))
  /\ exists l1 l2,
       twoProducts = (l1 ++ alpha 0%Q :: l2)%list
       /\ [alpha 1%Q; beta]
          = if valid (alpha 0%Q) then (l1 ++ bumped Views (alpha 0%Q) :: l2)%list
            else twoProducts.
Proof.
  split.
  - repeat split; try reflexivity; unfold JS.MAX_SAFE_INTEGER; simpl; lia.
  - apply (proj2 (X8_get_counts_one_view twoProducts "alpha" eq_refl)
             (alpha 0%Q) 0 [alpha 1%Q; beta] (replyData 200 "" (alpha 1%Q)));
      try reflexivity; unfold JS.MAX_SAFE_INTEGER; simpl; lia.
Defined.

(** A stored product that fails validation is served but never written:
    GET answers 200 with one more view and stores nothing, DELETE answers
    500 and leaves the product active, and no increment of it is saved. *)
Example stored_product_that_fails_validation :
  valid mispriced = false
  /\ getProduct [mispriced] "odd-lot"
     = ([mispriced], replyData 200 "" (bumped Views mispriced))
  /\ deleteProduct [mispriced] (Some manager) (_id mispriced)
     = ([mispriced], serverError "Server error while deleting product")
  /\ (let w := exec (_id mispriced) [0; 0; 1; 1]%nat
                 {| db := [mispriced]; tasks := [Received Views; Received Views] |} in
      tasks w = [Finished Views false; Finished Views false] /\ db w = [mispriced]).
Proof. repeat split. Qed.

Lemma X9_writes_need_an_administrator_witness :
  (forall u, Some customer = Some u -> role u <> "admin")
  /\ exists r,
       status r = 403 /\ success r = false /\ data r = None
       /\ (forall newId now files body,
             createProduct twoProducts (Some customer) newId now files body
             = (twoProducts, r))
       /\ (forall id body,
             updateProduct twoProducts (Some customer) id body = (twoProducts, r))
       /\ (forall id, deleteProduct twoProducts (Some customer) id = (twoProducts, r)).
Proof.
  assert (Hrole : forall u, Some customer = Some u -> role u <> "admin")
    by (intros u [= <-]; discriminate).
  split; [exact Hrole|].
  exact (@X9_writes_need_an_administrator wholeNumbers plainCasts hyphens
           twoProducts (Some customer) Hrole).
Defined.

Lemma X10_soft_delete_effect_witness :
  (distinct (map _id twoProducts) = true /\ role manager = "admin"
   /\ JS.isObjectIdString idA = true
   /\ findById twoProducts idA = Some (alpha 0%Q) /\ valid (alpha 0%Q) = true)
  /\ exists l1 l2 store',
       twoProducts = (l1 ++ alpha 0%Q :: l2)%list
       /\ store'
          = (l1 ++ setUpdatedBy (Some (uid manager)) (setIsActive false (alpha 0%Q))
                   :: l2)%list
       /\ deleteProduct twoProducts (Some manager) idA
          = (store', reply 200 true "Product deleted successfully")
       /\ deleteProduct store' (Some manager) idA
          = (store', reply 200 true "Product deleted successfully").
Proof.
  split; [repeat split; reflexivity|].
  exact (proj2 (proj2 (@X10_soft_delete_effect hyphens twoProducts manager idA
                         eq_refl eq_refl eq_refl))
           (alpha 0%Q) eq_refl eq_refl).
Defined.


Lemma X12_created_product_witness :
  status (snd (createProduct twoProducts (Some manager) idC 5
                 ["/up/one.png"; "/up/two.png"] newGamma)) = 201
  /\ exists p,
       createProduct twoProducts (Some manager) idC 5 ["/up/one.png"; "/up/two.png"]
         newGamma
       = ((twoProducts ++ [p])%list, replyData 201 "Product created successfully" p)
       /\ createdBy p = uid manager
       /\ name p <> "" /\ (String.length (name p) <= 100)%nat
       /\ slug p = slugify (name p)
       /\ (0 <= price p)%Q
       /\ In (category p) categories
       /\ (forall q, In q twoProducts -> _id q <> _id p /\ slug q <> slug p)
       /\ (["/up/one.png"; "/up/two.png"] <> [] ->
           map url (images p) = ["/up/one.png"; "/up/two.png"]
           /\ primaryCount (images p) = 1%nat
           /\ exists first rest, images p = first :: rest /\ isPrimary first = true).
Proof.
  split; [reflexivity|].
  apply (X12_created_product twoProducts manager idC 5 ["/up/one.png"; "/up/two.png"]
           newGamma).
  reflexivity.
Defined.

Lemma X13_unique_indexes_are_maintained_witness :
  (distinct (map _id twoProducts) = true /\ distinct (map slug twoProducts) = true)
  /\ distinct (map _id (applyAll quietOps twoProducts)) = true
  /\ distinct (map slug (applyAll quietOps twoProducts)) = true.
Proof.
  split; [split; reflexivity|].
  apply (X13_unique_indexes_are_maintained quietOps twoProducts); reflexivity.
Defined.

Lemma X16_primary_image_after_save_witness :
  (isModified "images" (withImages laterPrimaries) = true
   /\ images (val (withImages laterPrimaries))
      = picture "/img/a.png" false :: [picture "/img/b.png" true; picture "/img/c.png" true])
  /\ ((1 < primaryCount laterPrimaries)%nat ->
      primaryImage (val (primaryImageHook (withImages laterPrimaries)))
      = Some (picture "/img/a.png" false)).
Proof.
  split; [split; reflexivity|].
  exact (proj2 (proj2 (proj2 (proj2
           (X16_primary_image_after_save (withImages laterPrimaries)
              (picture "/img/a.png" false)
              [picture "/img/b.png" true; picture "/img/c.png" true]
              eq_refl eq_refl))))).
Defined.

Lemma X17_statics_agree_with_the_listing_witness :
  (listProducts twoProducts noParams = ListOk [alpha 0%Q] alphaPage noFilters
   /\ q_category noParams = None /\ q_minPrice noParams = None
   /\ q_maxPrice noParams = None /\ q_search noParams = None)
  /\ findFeatured twoProducts = filter isFeatured (findActive twoProducts).
Proof.
  split; [repeat split|].
  exact (proj1 (proj2
           (@X17_statics_agree_with_the_listing wholeNumbers nameAndTags
              twoProducts noParams [alpha 0%Q] alphaPage noFilters
              eq_refl eq_refl eq_refl eq_refl eq_refl))).
Defined.

Lemma X18_download_counts_one_download_witness :
  (distinct (map _id twoProducts) = true /\ JS.isObjectIdString idA = true
   /\ findById twoProducts idA = Some (alpha 0%Q) /\ isActive (alpha 0%Q) = true
   /\ (downloads (stats (alpha 0%Q)) == inject_Z 0)%Q /\ 0 <= 0 < JS.MAX_SAFE_INTEGER)
  /\ exists l1 l2,
       twoProducts = (l1 ++ alpha 0%Q :: l2)%list
       /\ Download.downloadProduct twoProducts customer idA
          = ((if valid (alpha 0%Q) then (l1 ++ bumped Downloads (alpha 0%Q) :: l2)%list
              else twoProducts),
             {| Download.downloadStatus := 200; Download.downloadSuccess := true;
                Download.downloadMessage := "Download links generated";
                Download.links :=
                  Some {| Download.linkedFiles := ["/files/alpha.zip"];
                          Download.downloadUrl := None |} |}).
Proof.
  split.
  - repeat split; try reflexivity; unfold JS.MAX_SAFE_INTEGER; simpl; lia.
  - apply (proj2 (@X18_download_counts_one_download hyphens archives twoProducts
                    customer idA eq_refl eq_refl) (alpha 0%Q) 0);
      try reflexivity; unfold JS.MAX_SAFE_INTEGER; simpl; lia.
Defined.




Lemma X23_accepted_addresses_witness :
  UserModel.emailMatches "ann@example.com" = true
  /\ UserModel.occurrences "@" "ann@example.com" = 1%nat
  /\ exists before tld,
       "ann@example.com" = before ++ "." ++ tld
       /\ (2 <= String.length tld <= 3)%nat
       /\ JS.allChars UserModel.isWord tld = true.
Proof.
  split; [reflexivity|].
  apply (X23_accepted_addresses "ann@example.com"). reflexivity.
Defined.

Lemma X24_created_product_can_be_read_witness :
  (data (snd (createProduct twoProducts (Some manager) idC 5
                ["/up/one.png"; "/up/two.png"] newGamma)) = Some gamma
   /\ isActive gamma = true /\ JS.isObjectIdString (slug gamma) = false)
  /\ let store' := fst (createProduct twoProducts (Some manager) idC 5
                          ["/up/one.png"; "/up/two.png"] newGamma) in
     store' = (twoProducts ++ [gamma])%list
     /\ snd (getProduct store' (slug gamma))
        = {| status := 200; success := true; message := ""; errors := None;
             data := Some (bumped Views gamma) |}.
Proof.
  split; [repeat split|].
  apply (X24_created_product_can_be_read twoProducts manager idC 5
           ["/up/one.png"; "/up/two.png"] newGamma gamma); reflexivity.
Defined.

Lemma X25_soft_deleted_product_is_hidden_witness :
  (distinct (map _id twoProducts) = true
   /\ status (snd (deleteProduct twoProducts (Some manager) idA)) = 200)
  /\ let store' := fst (deleteProduct twoProducts (Some manager) idA) in
     getProduct store' idA = (store', notFound)
     /\ Download.downloadProduct store' customer idA
        = (store', Download.failed 404 "Product not found")
     /\ (forall q data pg fl r,
           listProducts store' q = ListOk data pg fl -> In r data ->
           _id r <> JS.toLowerCase idA).
Proof.
  split; [split; reflexivity|].
  exact (@X25_soft_deleted_product_is_hidden wholeNumbers nameAndTags hyphens archives
           twoProducts manager customer idA eq_refl eq_refl).
Defined.

Lemma X26_list_field_that_is_no_text_witness :
  (role manager = "admin"
   /\ validateBody false (trimmed "description" (trimmed "name" numberedTags)) = []
   /\ In "tags" ["tags"; "features"; "techStack"]
   /\ get "tags" numberedTags = Some (JNum 5%Q)
   /\ truthyValue (JNum 5%Q) = true
   /\ (forall items, JNum 5%Q <> JArr items) /\ (forall s, JNum 5%Q <> JStr s))
  /\ createProduct twoProducts (Some manager) idC 5 [] numberedTags
     = (twoProducts, serverError "Server error while creating product").
Proof.
  assert (Hin : In "tags" ["tags"; "features"; "techStack"]) by (left; reflexivity).
  split; [repeat split; first [exact Hin | discriminate]|].
  apply (X26_list_field_that_is_no_text twoProducts manager idC 5 [] numberedTags
           "tags" (JNum 5%Q));
    first [reflexivity | exact Hin | discriminate].
Defined.

Lemma X27_sales_downloads_and_rating_stay_witness :
  ((forall op, In op quietOps -> namesStats op = false)
   /\ stored twoProducts idA = Some (alpha 0%Q))
  /\ exists p',
       stored (applyAll quietOps twoProducts) idA = Some p'
       /\ sales (stats p') = sales (stats (alpha 0%Q))
       /\ downloads (stats p') = downloads (stats (alpha 0%Q))
       /\ rating (stats p') = rating (stats (alpha 0%Q)).
Proof.
  assert (Hq : forall op, In op quietOps -> namesStats op = false).
  { intros op Hin. cbn in Hin.
    repeat (destruct Hin as [<-|Hin]; [reflexivity|]). contradiction. }
  split; [split; [exact Hq | reflexivity]|].
  apply (X27_sales_downloads_and_rating_stay quietOps twoProducts idA (alpha 0%Q) Hq).
  reflexivity.
Defined.

End FurtherExamples.
